(** * Adafruit_BQ25798: register-level model of the charger driver

    Shallow embedding of [Adafruit_BQ25798.cpp].  Every accessor of the
    driver is a computation in a small state monad over the state of the
    I2C peripheral.  C [float] is IEEE-754 binary32 with every operation
    rounded to nearest, ties to even, as given by the executable
    specification [SpecFloat] of the standard library; an expression such
    as [raw * scale + offset] is evaluated as written, the product rounded
    before the sum is (no contraction into a fused multiply-add). *)

From Stdlib Require Import ZArith Lia Bool List SpecFloat Zpower QArith Qabs Qpower Lqa.
Import ListNotations.

#[local] Open Scope Z_scope.

(** ** Unsigned C integers *)

Definition uint8_t (z : Z) : Z := z mod 2 ^ 8.
Definition uint16_t (z : Z) : Z := z mod 2 ^ 16.

(** [bool] to integer conversion ([true] is 1) and back (non-zero is [true]). *)
Definition bool_to_uint (b : bool) : Z := if b then 1 else 0.
Definition uint_to_bool (z : Z) : bool := negb (z =? 0).

(** ** binary32 arithmetic *)

Definition float : Type := spec_float.

Module F32.

Definition prec : Z := 24.
Definition emax : Z := 128.

Definition add : float -> float -> float := SFadd prec emax.
Definition sub : float -> float -> float := SFsub prec emax.
Definition mul : float -> float -> float := SFmul prec emax.
Definition div : float -> float -> float := SFdiv prec emax.
Definition ltb : float -> float -> bool := SFltb.
Definition leb : float -> float -> bool := SFleb.
Definition valid (x : float) : bool := valid_binary prec emax x.

(** Conversion of a C integer to [float] (exact below 2^24). *)
Definition of_int (z : Z) : float := binary_normalize prec emax z 0 false.

(** A decimal literal [n/d] with the [f] suffix: the binary32 number
    nearest to it.  Numerator and denominator are small integers, hence
    exact, and [SFdiv] rounds their quotient to nearest-even. *)
Definition lit (n d : Z) : float := div (of_int n) (of_int d).

(** Integral part of a float, rounding toward zero; none for NaN and
    the infinities. *)
Definition trunc (x : float) : option Z :=
  match x with
  | S754_zero _ => Some 0
  | S754_finite s m e => Some (cond_Zopp s (Z.shiftl (Zpos m) e))
  | S754_infinity _ | S754_nan => None
  end.

(** Exact rational value of a finite float. *)
Definition to_Q (x : float) : Q :=
  match x with
  | S754_finite s m e => (inject_Z (cond_Zopp s (Zpos m)) * Qpower 2 e)%Q
  | _ => 0%Q
  end.

End F32.

(** ** The peripheral and the bus *)

(** Register addresses.  Their numeric values come from the header
    [Adafruit_BQ25798.h]; the driver only ever names them, so they are kept
    symbolic and pairwise distinct. *)
Inductive RegAddr : Set :=
| BQ25798_REG_MINIMAL_SYSTEM_VOLTAGE
| BQ25798_REG_CHARGE_VOLTAGE_LIMIT
| BQ25798_REG_CHARGE_CURRENT_LIMIT
| BQ25798_REG_INPUT_VOLTAGE_LIMIT
| BQ25798_REG_INPUT_CURRENT_LIMIT
| BQ25798_REG_PRECHARGE_CONTROL
| BQ25798_REG_TERMINATION_CONTROL
| BQ25798_REG_RECHARGE_CONTROL
| BQ25798_REG_VOTG_REGULATION
| BQ25798_REG_IOTG_REGULATION
| BQ25798_REG_TIMER_CONTROL
| BQ25798_REG_CHARGER_CONTROL_0
| BQ25798_REG_CHARGER_CONTROL_1
| BQ25798_REG_CHARGER_CONTROL_2
| BQ25798_REG_CHARGER_CONTROL_3
| BQ25798_REG_CHARGER_CONTROL_4
| BQ25798_REG_CHARGER_CONTROL_5
| BQ25798_REG_MPPT_CONTROL
| BQ25798_REG_TEMPERATURE_CONTROL
| BQ25798_REG_PART_INFORMATION.

Definition RegAddr_eq_dec (a b : RegAddr) : {a = b} + {a <> b}.
Proof. decide equality. Defined.

Inductive ByteOrder : Set := LSBFIRST | MSBFIRST.

(** One transaction attempted on the bus. *)
Inductive BusOp : Type :=
| BusProbe
| BusRead (a : RegAddr) (width : Z)
| BusWrite (a : RegAddr) (width : Z) (value : Z).

(** The chip as seen through the bus: the contents of its registers,
    whether it acknowledges transactions, what a read hands back when it
    does not, and the transactions attempted so far (latest first). *)
Record Device : Type := mkDevice {
  regs : RegAddr -> Z;
  acks : bool;
  nack_value : Z;
  trace : list BusOp
}.

Definition set_reg (a : RegAddr) (v : Z) (f : RegAddr -> Z) : RegAddr -> Z :=
  fun b => if RegAddr_eq_dec a b then v else f b.

Definition log (op : BusOp) (d : Device) : Device :=
  mkDevice (regs d) (acks d) (nack_value d) (op :: trace d).

(** *** State monad of driver calls *)

Definition Dev (A : Type) : Type := Device -> A * Device.

Definition ret {A : Type} (a : A) : Dev A := fun d => (a, d).

Definition bind {A B : Type} (c : Dev A) (k : A -> Dev B) : Dev B :=
  fun d => let (a, d') := c d in k a d'.

Notation "x <- c ;; k" := (bind c (fun x => k))
  (at level 61, c at next level, right associativity).
Notation "'_' <- c ;; k" := (bind c (fun _ => k))
  (at level 61, c at next level, right associativity).

(** *** The bus-access collaborator (Adafruit_BusIO) *)

Record BusIO_Register : Type := Adafruit_BusIO_Register {
  reg_addr : RegAddr;
  reg_width : Z;
  reg_byteorder : ByteOrder
}.

Record BusIO_RegisterBits : Type := Adafruit_BusIO_RegisterBits {
  bits_register : BusIO_Register;
  bits_count : Z;
  bits_shift : Z
}.

(** Modelled from the spec: [Adafruit_I2CDevice::begin], the opening of the
    bus session, which fails when the device is unreachable. *)
Definition I2CDevice_begin : Dev bool :=
  fun d => (acks d, log BusProbe d).

(** Modelled from the spec: [Adafruit_BusIO_Register::read], reading the
    full register ([reg_width] bytes) in one transaction. *)
Definition Register_read (r : BusIO_Register) : Dev Z :=
  fun d =>
    let w := 8 * reg_width r in
    ((if acks d then regs d (reg_addr r) else nack_value d) mod 2 ^ w,
     log (BusRead (reg_addr r) (reg_width r)) d).

(** Modelled from the spec: [Adafruit_BusIO_Register::write], writing the
    full register in one transaction; the result tells whether the device
    acknowledged, and nothing is stored when it did not. *)
Definition Register_write (r : BusIO_Register) (value : Z) : Dev bool :=
  fun d =>
    let v := value mod 2 ^ (8 * reg_width r) in
    let op := BusWrite (reg_addr r) (reg_width r) v in
    if acks d
    then (true, mkDevice (set_reg (reg_addr r) v (regs d)) true
                         (nack_value d) (op :: trace d))
    else (false, log op d).

(** Modelled from the spec: [Adafruit_BusIO_RegisterBits::read], the read
    contract of the generic field accessor: read the full register, shift
    and mask. *)
Definition RegisterBits_read (b : BusIO_RegisterBits) : Dev Z :=
  val <- Register_read (bits_register b) ;;
  ret (Z.land (Z.shiftr val (bits_shift b)) (Z.ones (bits_count b))).

(** Modelled from the spec: [Adafruit_BusIO_RegisterBits::write], the write
    contract of the generic field accessor: read the current full register,
    clear exactly the target bits, merge the masked value shifted into
    position, write the full register back. *)
Definition RegisterBits_write (b : BusIO_RegisterBits) (data : Z) : Dev bool :=
  val <- Register_read (bits_register b) ;;
  let mask := Z.ones (bits_count b) in
  let data := Z.land data mask in
  let mask := Z.shiftl mask (bits_shift b) in
  let val := Z.land val (Z.lnot mask) in
  let val := Z.lor val (Z.shiftl data (bits_shift b)) in
  Register_write (bits_register b) val.

(** ** The driver *)

(** Largest enumerator of each enumeration that a setter compares against.
    The enumerations are declared in [Adafruit_BQ25798.h], which is not part
    of the sources at hand: the twelve constants the driver uses are
    parameters of the model. *)
Record Header : Type := mkHeader {
  BQ25798_VBAT_LOWV_71_4_PERCENT : Z;
  BQ25798_CELL_COUNT_4S : Z;
  BQ25798_TRECHG_2048MS : Z;
  BQ25798_PRECHG_TMR_0_5HR : Z;
  BQ25798_TOPOFF_TMR_45MIN : Z;
  BQ25798_CHG_TMR_24HR : Z;
  BQ25798_VBUS_BACKUP_100_PERCENT : Z;
  BQ25798_VAC_OVP_7V : Z;
  BQ25798_WDT_160S : Z;
  BQ25798_SDRV_SYSTEM_RESET : Z;
  BQ25798_WKUP_DLY_15MS : Z;
  BQ25798_PWM_FREQ_750KHZ : Z
}.

Section Driver.

(** The header constants, and the value a conversion from [float] to an
    unsigned integer type yields where C++ leaves it undefined (the
    truncated value does not fit, or the operand is not a number). *)
Variable hdr : Header.
Variable ub_cast : float -> Z.

Definition float_to_uint (bits : Z) (x : float) : Z :=
  match F32.trunc x with
  | Some z => if (0 <=? z) && (z <? 2 ^ bits) then z else ub_cast x mod 2 ^ bits
  | None => ub_cast x mod 2 ^ bits
  end.

(** [reset] is the last function of the source file; [begin] calls it. *)
Definition reset : Dev bool :=
  let term_reg := Adafruit_BusIO_Register BQ25798_REG_TERMINATION_CONTROL 1 LSBFIRST in
  let reg_rst_bit := Adafruit_BusIO_RegisterBits term_reg 1 6 in
  _ <- RegisterBits_write reg_rst_bit 1 ;;
  ret true.

Definition begin : Dev bool :=
  ok <- I2CDevice_begin ;;
  if negb ok then ret false else
  let part_info_reg := Adafruit_BusIO_Register BQ25798_REG_PART_INFORMATION 1 LSBFIRST in
  v <- Register_read part_info_reg ;;
  let part_info := uint8_t v in
  if negb (Z.land part_info 0x38 =? 0x18) then ret false else
  _ <- reset ;;
  ret true.

Definition getMinSystemV : Dev float :=
  let vsys_reg := Adafruit_BusIO_Register BQ25798_REG_MINIMAL_SYSTEM_VOLTAGE 1 LSBFIRST in
  let vsys_bits := Adafruit_BusIO_RegisterBits vsys_reg 6 0 in
  v <- RegisterBits_read vsys_bits ;;
  let reg_value := uint8_t v in
  ret (F32.add (F32.mul (F32.of_int reg_value) (F32.lit 25 100)) (F32.lit 25 10)).

Definition setMinSystemV (voltage : float) : Dev bool :=
  if F32.ltb voltage (F32.lit 25 10) || F32.ltb (F32.lit 160 10) voltage then ret false else
  let reg_value := float_to_uint 8 (F32.div (F32.sub voltage (F32.lit 25 10)) (F32.lit 25 100)) in
  let reg_value := if reg_value >? 63 then 63 else reg_value in
  let vsys_reg := Adafruit_BusIO_Register BQ25798_REG_MINIMAL_SYSTEM_VOLTAGE 1 LSBFIRST in
  let vsys_bits := Adafruit_BusIO_RegisterBits vsys_reg 6 0 in
  _ <- RegisterBits_write vsys_bits reg_value ;;
  ret true.

Definition getChargeLimitV : Dev float :=
  let vreg_reg := Adafruit_BusIO_Register BQ25798_REG_CHARGE_VOLTAGE_LIMIT 2 MSBFIRST in
  let vreg_bits := Adafruit_BusIO_RegisterBits vreg_reg 11 0 in
  v <- RegisterBits_read vreg_bits ;;
  let reg_value := uint16_t v in
  ret (F32.mul (F32.of_int reg_value) (F32.lit 1 100)).

Definition setChargeLimitV (voltage : float) : Dev bool :=
  if F32.ltb voltage (F32.lit 30 10) || F32.ltb (F32.lit 188 10) voltage then ret false else
  let reg_value := float_to_uint 16 (F32.div voltage (F32.lit 1 100)) in
  let reg_value := if reg_value >? 2047 then 2047 else reg_value in
  let vreg_reg := Adafruit_BusIO_Register BQ25798_REG_CHARGE_VOLTAGE_LIMIT 2 MSBFIRST in
  let vreg_bits := Adafruit_BusIO_RegisterBits vreg_reg 11 0 in
  _ <- RegisterBits_write vreg_bits reg_value ;;
  ret true.

Definition getChargeLimitA : Dev float :=
  let ichg_reg := Adafruit_BusIO_Register BQ25798_REG_CHARGE_CURRENT_LIMIT 2 MSBFIRST in
  let ichg_bits := Adafruit_BusIO_RegisterBits ichg_reg 9 0 in
  v <- RegisterBits_read ichg_bits ;;
  let reg_value := uint16_t v in
  ret (F32.mul (F32.of_int reg_value) (F32.lit 1 100)).

Definition setChargeLimitA (current : float) : Dev bool :=
  if F32.ltb current (F32.lit 5 100) || F32.ltb (F32.lit 50 10) current then ret false else
  let reg_value := float_to_uint 16 (F32.div current (F32.lit 1 100)) in
  let reg_value := if reg_value >? 511 then 511 else reg_value in
  let ichg_reg := Adafruit_BusIO_Register BQ25798_REG_CHARGE_CURRENT_LIMIT 2 MSBFIRST in
  let ichg_bits := Adafruit_BusIO_RegisterBits ichg_reg 9 0 in
  _ <- RegisterBits_write ichg_bits reg_value ;;
  ret true.

Definition getInputLimitV : Dev float :=
  let vindpm_reg := Adafruit_BusIO_Register BQ25798_REG_INPUT_VOLTAGE_LIMIT 1 LSBFIRST in
  v <- Register_read vindpm_reg ;;
  let reg_value := uint8_t v in
  ret (F32.mul (F32.of_int reg_value) (F32.lit 1 10)).

Definition setInputLimitV (voltage : float) : Dev bool :=
  if F32.ltb voltage (F32.lit 36 10) || F32.ltb (F32.lit 220 10) voltage then ret false else
  let reg_value := float_to_uint 8 (F32.div voltage (F32.lit 1 10)) in
  let reg_value := if reg_value >? 255 then 255 else reg_value in
  let vindpm_reg := Adafruit_BusIO_Register BQ25798_REG_INPUT_VOLTAGE_LIMIT 1 LSBFIRST in
  _ <- Register_write vindpm_reg reg_value ;;
  ret true.

Definition getInputLimitA : Dev float :=
  let iindpm_reg := Adafruit_BusIO_Register BQ25798_REG_INPUT_CURRENT_LIMIT 2 MSBFIRST in
  let iindpm_bits := Adafruit_BusIO_RegisterBits iindpm_reg 9 0 in
  v <- RegisterBits_read iindpm_bits ;;
  let reg_value := uint16_t v in
  ret (F32.mul (F32.of_int reg_value) (F32.lit 1 100)).

Definition setInputLimitA (current : float) : Dev bool :=
  if F32.ltb current (F32.lit 1 10) || F32.ltb (F32.lit 33 10) current then ret false else
  let reg_value := float_to_uint 16 (F32.div current (F32.lit 1 100)) in
  let reg_value := if reg_value >? 511 then 511 else reg_value in
  let iindpm_reg := Adafruit_BusIO_Register BQ25798_REG_INPUT_CURRENT_LIMIT 2 MSBFIRST in
  let iindpm_bits := Adafruit_BusIO_RegisterBits iindpm_reg 9 0 in
  _ <- RegisterBits_write iindpm_bits reg_value ;;
  ret true.

Definition getVBatLowV : Dev Z :=
  let precharge_reg := Adafruit_BusIO_Register BQ25798_REG_PRECHARGE_CONTROL 1 LSBFIRST in
  let vbat_lowv_bits := Adafruit_BusIO_RegisterBits precharge_reg 2 6 in
  v <- RegisterBits_read vbat_lowv_bits ;;
  let reg_value := uint8_t v in
  ret reg_value.

Definition setVBatLowV (threshold : Z) : Dev bool :=
  if threshold >? BQ25798_VBAT_LOWV_71_4_PERCENT hdr then ret false else
  let precharge_reg := Adafruit_BusIO_Register BQ25798_REG_PRECHARGE_CONTROL 1 LSBFIRST in
  let vbat_lowv_bits := Adafruit_BusIO_RegisterBits precharge_reg 2 6 in
  _ <- RegisterBits_write vbat_lowv_bits (uint8_t threshold) ;;
  ret true.

Definition getPrechargeLimitA : Dev float :=
  let precharge_reg := Adafruit_BusIO_Register BQ25798_REG_PRECHARGE_CONTROL 1 LSBFIRST in
  let iprechg_bits := Adafruit_BusIO_RegisterBits precharge_reg 6 0 in
  v <- RegisterBits_read iprechg_bits ;;
  let reg_value := uint8_t v in
  ret (F32.mul (F32.of_int reg_value) (F32.lit 4 100)).

Definition setPrechargeLimitA (current : float) : Dev bool :=
  if F32.ltb current (F32.lit 4 100) || F32.ltb (F32.lit 20 10) current then ret false else
  let reg_value := float_to_uint 8 (F32.div current (F32.lit 4 100)) in
  let reg_value := if reg_value >? 63 then 63 else reg_value in
  let precharge_reg := Adafruit_BusIO_Register BQ25798_REG_PRECHARGE_CONTROL 1 LSBFIRST in
  let iprechg_bits := Adafruit_BusIO_RegisterBits precharge_reg 6 0 in
  _ <- RegisterBits_write iprechg_bits reg_value ;;
  ret true.

Definition getStopOnWDT : Dev bool :=
  let term_reg := Adafruit_BusIO_Register BQ25798_REG_TERMINATION_CONTROL 1 LSBFIRST in
  let stop_wd_bit := Adafruit_BusIO_RegisterBits term_reg 1 5 in
  v <- RegisterBits_read stop_wd_bit ;;
  ret (v =? 1).

Definition setStopOnWDT (stopOnWDT : bool) : Dev bool :=
  let term_reg := Adafruit_BusIO_Register BQ25798_REG_TERMINATION_CONTROL 1 LSBFIRST in
  let stop_wd_bit := Adafruit_BusIO_RegisterBits term_reg 1 5 in
  _ <- RegisterBits_write stop_wd_bit (if stopOnWDT then 1 else 0) ;;
  ret true.

Definition getTerminationA : Dev float :=
  let term_reg := Adafruit_BusIO_Register BQ25798_REG_TERMINATION_CONTROL 1 LSBFIRST in
  let iterm_bits := Adafruit_BusIO_RegisterBits term_reg 5 0 in
  v <- RegisterBits_read iterm_bits ;;
  let reg_value := uint8_t v in
  ret (F32.mul (F32.of_int reg_value) (F32.lit 4 100)).

Definition setTerminationA (current : float) : Dev bool :=
  if F32.ltb current (F32.lit 4 100) || F32.ltb (F32.lit 10 10) current then ret false else
  let reg_value := float_to_uint 8 (F32.div current (F32.lit 4 100)) in
  let reg_value := if reg_value >? 31 then 31 else reg_value in
  let term_reg := Adafruit_BusIO_Register BQ25798_REG_TERMINATION_CONTROL 1 LSBFIRST in
  let iterm_bits := Adafruit_BusIO_RegisterBits term_reg 5 0 in
  _ <- RegisterBits_write iterm_bits reg_value ;;
  ret true.

Definition getCellCount : Dev Z :=
  let recharge_reg := Adafruit_BusIO_Register BQ25798_REG_RECHARGE_CONTROL 1 LSBFIRST in
  let cell_bits := Adafruit_BusIO_RegisterBits recharge_reg 2 6 in
  v <- RegisterBits_read cell_bits ;;
  let reg_value := uint8_t v in
  ret reg_value.

Definition setCellCount (cellCount : Z) : Dev bool :=
  if cellCount >? BQ25798_CELL_COUNT_4S hdr then ret false else
  let recharge_reg := Adafruit_BusIO_Register BQ25798_REG_RECHARGE_CONTROL 1 LSBFIRST in
  let cell_bits := Adafruit_BusIO_RegisterBits recharge_reg 2 6 in
  _ <- RegisterBits_write cell_bits (uint8_t cellCount) ;;
  ret true.

Definition getRechargeDeglitchTime : Dev Z :=
  let recharge_reg := Adafruit_BusIO_Register BQ25798_REG_RECHARGE_CONTROL 1 LSBFIRST in
  let trechg_bits := Adafruit_BusIO_RegisterBits recharge_reg 2 4 in
  v <- RegisterBits_read trechg_bits ;;
  let reg_value := uint8_t v in
  ret reg_value.

Definition setRechargeDeglitchTime (deglitchTime : Z) : Dev bool :=
  if deglitchTime >? BQ25798_TRECHG_2048MS hdr then ret false else
  let recharge_reg := Adafruit_BusIO_Register BQ25798_REG_RECHARGE_CONTROL 1 LSBFIRST in
  let trechg_bits := Adafruit_BusIO_RegisterBits recharge_reg 2 4 in
  _ <- RegisterBits_write trechg_bits (uint8_t deglitchTime) ;;
  ret true.

Definition getRechargeThreshOffsetV : Dev float :=
  let recharge_reg := Adafruit_BusIO_Register BQ25798_REG_RECHARGE_CONTROL 1 LSBFIRST in
  let vrechg_bits := Adafruit_BusIO_RegisterBits recharge_reg 4 0 in
  v <- RegisterBits_read vrechg_bits ;;
  let reg_value := uint8_t v in
  ret (F32.add (F32.mul (F32.of_int reg_value) (F32.lit 5 100)) (F32.lit 5 100)).

Definition setRechargeThreshOffsetV (voltage : float) : Dev bool :=
  if F32.ltb voltage (F32.lit 5 100) || F32.ltb (F32.lit 8 10) voltage then ret false else
  let reg_value := float_to_uint 8 (F32.div (F32.sub voltage (F32.lit 5 100)) (F32.lit 5 100)) in
  let reg_value := if reg_value >? 15 then 15 else reg_value in
  let recharge_reg := Adafruit_BusIO_Register BQ25798_REG_RECHARGE_CONTROL 1 LSBFIRST in
  let vrechg_bits := Adafruit_BusIO_RegisterBits recharge_reg 4 0 in
  _ <- RegisterBits_write vrechg_bits reg_value ;;
  ret true.

Definition getOTGV : Dev float :=
  let votg_reg := Adafruit_BusIO_Register BQ25798_REG_VOTG_REGULATION 2 MSBFIRST in
  let votg_bits := Adafruit_BusIO_RegisterBits votg_reg 11 0 in
  v <- RegisterBits_read votg_bits ;;
  let reg_value := uint16_t v in
  ret (F32.add (F32.mul (F32.of_int reg_value) (F32.lit 1 100)) (F32.lit 28 10)).

Definition setOTGV (voltage : float) : Dev bool :=
  if F32.ltb voltage (F32.lit 28 10) || F32.ltb (F32.lit 220 10) voltage then ret false else
  let reg_value := float_to_uint 16 (F32.div (F32.sub voltage (F32.lit 28 10)) (F32.lit 1 100)) in
  let reg_value := if reg_value >? 2047 then 2047 else reg_value in
  let votg_reg := Adafruit_BusIO_Register BQ25798_REG_VOTG_REGULATION 2 MSBFIRST in
  let votg_bits := Adafruit_BusIO_RegisterBits votg_reg 11 0 in
  _ <- RegisterBits_write votg_bits reg_value ;;
  ret true.

Definition getPrechargeTimer : Dev Z :=
  let iotg_reg := Adafruit_BusIO_Register BQ25798_REG_IOTG_REGULATION 1 LSBFIRST in
  let prechg_tmr_bit := Adafruit_BusIO_RegisterBits iotg_reg 1 7 in
  v <- RegisterBits_read prechg_tmr_bit ;;
  let reg_value := uint8_t v in
  ret reg_value.

Definition setPrechargeTimer (timer : Z) : Dev bool :=
  if timer >? BQ25798_PRECHG_TMR_0_5HR hdr then ret false else
  let iotg_reg := Adafruit_BusIO_Register BQ25798_REG_IOTG_REGULATION 1 LSBFIRST in
  let prechg_tmr_bit := Adafruit_BusIO_RegisterBits iotg_reg 1 7 in
  _ <- RegisterBits_write prechg_tmr_bit (uint8_t timer) ;;
  ret true.

Definition getOTGLimitA : Dev float :=
  let iotg_reg := Adafruit_BusIO_Register BQ25798_REG_IOTG_REGULATION 1 LSBFIRST in
  let iotg_bits := Adafruit_BusIO_RegisterBits iotg_reg 7 0 in
  v <- RegisterBits_read iotg_bits ;;
  let reg_value := uint8_t v in
  ret (F32.mul (F32.of_int reg_value) (F32.lit 4 100)).

Definition setOTGLimitA (current : float) : Dev bool :=
  if F32.ltb current (F32.lit 16 100) || F32.ltb (F32.lit 336 100) current then ret false else
  let reg_value := float_to_uint 8 (F32.div current (F32.lit 4 100)) in
  let reg_value := if reg_value >? 127 then 127 else reg_value in
  let iotg_reg := Adafruit_BusIO_Register BQ25798_REG_IOTG_REGULATION 1 LSBFIRST in
  let iotg_bits := Adafruit_BusIO_RegisterBits iotg_reg 7 0 in
  _ <- RegisterBits_write iotg_bits reg_value ;;
  ret true.

Definition getTopOffTimer : Dev Z :=
  let timer_reg := Adafruit_BusIO_Register BQ25798_REG_TIMER_CONTROL 1 LSBFIRST in
  let topoff_bits := Adafruit_BusIO_RegisterBits timer_reg 2 6 in
  v <- RegisterBits_read topoff_bits ;;
  let reg_value := uint8_t v in
  ret reg_value.

Definition setTopOffTimer (timer : Z) : Dev bool :=
  if timer >? BQ25798_TOPOFF_TMR_45MIN hdr then ret false else
  let timer_reg := Adafruit_BusIO_Register BQ25798_REG_TIMER_CONTROL 1 LSBFIRST in
  let topoff_bits := Adafruit_BusIO_RegisterBits timer_reg 2 6 in
  _ <- RegisterBits_write topoff_bits (uint8_t timer) ;;
  ret true.

Definition getTrickleChargeTimerEnable : Dev bool :=
  let timer_reg := Adafruit_BusIO_Register BQ25798_REG_TIMER_CONTROL 1 LSBFIRST in
  let trickle_bit := Adafruit_BusIO_RegisterBits timer_reg 1 5 in
  v <- RegisterBits_read trickle_bit ;;
  ret (v =? 1).

Definition setTrickleChargeTimerEnable (enable : bool) : Dev bool :=
  let timer_reg := Adafruit_BusIO_Register BQ25798_REG_TIMER_CONTROL 1 LSBFIRST in
  let trickle_bit := Adafruit_BusIO_RegisterBits timer_reg 1 5 in
  _ <- RegisterBits_write trickle_bit (if enable then 1 else 0) ;;
  ret true.

Definition getPrechargeTimerEnable : Dev bool :=
  let timer_reg := Adafruit_BusIO_Register BQ25798_REG_TIMER_CONTROL 1 LSBFIRST in
  let prechg_bit := Adafruit_BusIO_RegisterBits timer_reg 1 4 in
  v <- RegisterBits_read prechg_bit ;;
  ret (v =? 1).

Definition setPrechargeTimerEnable (enable : bool) : Dev bool :=
  let timer_reg := Adafruit_BusIO_Register BQ25798_REG_TIMER_CONTROL 1 LSBFIRST in
  let prechg_bit := Adafruit_BusIO_RegisterBits timer_reg 1 4 in
  _ <- RegisterBits_write prechg_bit (if enable then 1 else 0) ;;
  ret true.

Definition getFastChargeTimerEnable : Dev bool :=
  let timer_reg := Adafruit_BusIO_Register BQ25798_REG_TIMER_CONTROL 1 LSBFIRST in
  let chg_bit := Adafruit_BusIO_RegisterBits timer_reg 1 3 in
  v <- RegisterBits_read chg_bit ;;
  ret (v =? 1).

Definition setFastChargeTimerEnable (enable : bool) : Dev bool :=
  let timer_reg := Adafruit_BusIO_Register BQ25798_REG_TIMER_CONTROL 1 LSBFIRST in
  let chg_bit := Adafruit_BusIO_RegisterBits timer_reg 1 3 in
  _ <- RegisterBits_write chg_bit (if enable then 1 else 0) ;;
  ret true.

Definition getFastChargeTimer : Dev Z :=
  let timer_reg := Adafruit_BusIO_Register BQ25798_REG_TIMER_CONTROL 1 LSBFIRST in
  let chg_tmr_bits := Adafruit_BusIO_RegisterBits timer_reg 2 1 in
  v <- RegisterBits_read chg_tmr_bits ;;
  let reg_value := uint8_t v in
  ret reg_value.

Definition setFastChargeTimer (timer : Z) : Dev bool :=
  if timer >? BQ25798_CHG_TMR_24HR hdr then ret false else
  let timer_reg := Adafruit_BusIO_Register BQ25798_REG_TIMER_CONTROL 1 LSBFIRST in
  let chg_tmr_bits := Adafruit_BusIO_RegisterBits timer_reg 2 1 in
  _ <- RegisterBits_write chg_tmr_bits (uint8_t timer) ;;
  ret true.

Definition getTimerHalfRateEnable : Dev bool :=
  let timer_reg := Adafruit_BusIO_Register BQ25798_REG_TIMER_CONTROL 1 LSBFIRST in
  let tmr2x_bit := Adafruit_BusIO_RegisterBits timer_reg 1 0 in
  v <- RegisterBits_read tmr2x_bit ;;
  ret (v =? 1).

Definition setTimerHalfRateEnable (enable : bool) : Dev bool :=
  let timer_reg := Adafruit_BusIO_Register BQ25798_REG_TIMER_CONTROL 1 LSBFIRST in
  let tmr2x_bit := Adafruit_BusIO_RegisterBits timer_reg 1 0 in
  _ <- RegisterBits_write tmr2x_bit (if enable then 1 else 0) ;;
  ret true.

Definition getAutoOVPBattDischarge : Dev bool :=
  let chg_ctrl0_reg := Adafruit_BusIO_Register BQ25798_REG_CHARGER_CONTROL_0 1 LSBFIRST in
  let auto_ibatdis_bit := Adafruit_BusIO_RegisterBits chg_ctrl0_reg 1 7 in
  v <- RegisterBits_read auto_ibatdis_bit ;;
  ret (v =? 1).

Definition setAutoOVPBattDischarge (enable : bool) : Dev bool :=
  let chg_ctrl0_reg := Adafruit_BusIO_Register BQ25798_REG_CHARGER_CONTROL_0 1 LSBFIRST in
  let auto_ibatdis_bit := Adafruit_BusIO_RegisterBits chg_ctrl0_reg 1 7 in
  _ <- RegisterBits_write auto_ibatdis_bit (if enable then 1 else 0) ;;
  ret true.

Definition getForceBattDischarge : Dev bool :=
  let chg_ctrl0_reg := Adafruit_BusIO_Register BQ25798_REG_CHARGER_CONTROL_0 1 LSBFIRST in
  let force_ibatdis_bit := Adafruit_BusIO_RegisterBits chg_ctrl0_reg 1 6 in
  v <- RegisterBits_read force_ibatdis_bit ;;
  ret (v =? 1).

Definition setForceBattDischarge (enable : bool) : Dev bool :=
  let chg_ctrl0_reg := Adafruit_BusIO_Register BQ25798_REG_CHARGER_CONTROL_0 1 LSBFIRST in
  let force_ibatdis_bit := Adafruit_BusIO_RegisterBits chg_ctrl0_reg 1 6 in
  _ <- RegisterBits_write force_ibatdis_bit (if enable then 1 else 0) ;;
  ret true.

Definition getChargeEnable : Dev bool :=
  let chg_ctrl0_reg := Adafruit_BusIO_Register BQ25798_REG_CHARGER_CONTROL_0 1 LSBFIRST in
  let en_chg_bit := Adafruit_BusIO_RegisterBits chg_ctrl0_reg 1 5 in
  v <- RegisterBits_read en_chg_bit ;;
  ret (v =? 1).

Definition setChargeEnable (enable : bool) : Dev bool :=
  let chg_ctrl0_reg := Adafruit_BusIO_Register BQ25798_REG_CHARGER_CONTROL_0 1 LSBFIRST in
  let en_chg_bit := Adafruit_BusIO_RegisterBits chg_ctrl0_reg 1 5 in
  _ <- RegisterBits_write en_chg_bit (if enable then 1 else 0) ;;
  ret true.

Definition getICOEnable : Dev bool :=
  let chg_ctrl0_reg := Adafruit_BusIO_Register BQ25798_REG_CHARGER_CONTROL_0 1 LSBFIRST in
  let en_ico_bit := Adafruit_BusIO_RegisterBits chg_ctrl0_reg 1 4 in
  v <- RegisterBits_read en_ico_bit ;;
  ret (v =? 1).

Definition setICOEnable (enable : bool) : Dev bool :=
  let chg_ctrl0_reg := Adafruit_BusIO_Register BQ25798_REG_CHARGER_CONTROL_0 1 LSBFIRST in
  let en_ico_bit := Adafruit_BusIO_RegisterBits chg_ctrl0_reg 1 4 in
  _ <- RegisterBits_write en_ico_bit (if enable then 1 else 0) ;;
  ret true.

Definition getForceICO : Dev bool :=
  let chg_ctrl0_reg := Adafruit_BusIO_Register BQ25798_REG_CHARGER_CONTROL_0 1 LSBFIRST in
  let force_ico_bit := Adafruit_BusIO_RegisterBits chg_ctrl0_reg 1 3 in
  v <- RegisterBits_read force_ico_bit ;;
  ret (v =? 1).

Definition setForceICO (enable : bool) : Dev bool :=
  let chg_ctrl0_reg := Adafruit_BusIO_Register BQ25798_REG_CHARGER_CONTROL_0 1 LSBFIRST in
  let force_ico_bit := Adafruit_BusIO_RegisterBits chg_ctrl0_reg 1 3 in
  _ <- RegisterBits_write force_ico_bit (if enable then 1 else 0) ;;
  ret true.

Definition getHIZMode : Dev bool :=
  let chg_ctrl0_reg := Adafruit_BusIO_Register BQ25798_REG_CHARGER_CONTROL_0 1 LSBFIRST in
  let en_hiz_bit := Adafruit_BusIO_RegisterBits chg_ctrl0_reg 1 2 in
  v <- RegisterBits_read en_hiz_bit ;;
  ret (v =? 1).

Definition setHIZMode (enable : bool) : Dev bool :=
  let chg_ctrl0_reg := Adafruit_BusIO_Register BQ25798_REG_CHARGER_CONTROL_0 1 LSBFIRST in
  let en_hiz_bit := Adafruit_BusIO_RegisterBits chg_ctrl0_reg 1 2 in
  _ <- RegisterBits_write en_hiz_bit (if enable then 1 else 0) ;;
  ret true.

Definition getTerminationEnable : Dev bool :=
  let chg_ctrl0_reg := Adafruit_BusIO_Register BQ25798_REG_CHARGER_CONTROL_0 1 LSBFIRST in
  let en_term_bit := Adafruit_BusIO_RegisterBits chg_ctrl0_reg 1 1 in
  v <- RegisterBits_read en_term_bit ;;
  ret (v =? 1).

Definition setTerminationEnable (enable : bool) : Dev bool :=
  let chg_ctrl0_reg := Adafruit_BusIO_Register BQ25798_REG_CHARGER_CONTROL_0 1 LSBFIRST in
  let en_term_bit := Adafruit_BusIO_RegisterBits chg_ctrl0_reg 1 1 in
  _ <- RegisterBits_write en_term_bit (if enable then 1 else 0) ;;
  ret true.

Definition getBackupModeEnable : Dev bool :=
  let chg_ctrl0_reg := Adafruit_BusIO_Register BQ25798_REG_CHARGER_CONTROL_0 1 LSBFIRST in
  let en_backup_bit := Adafruit_BusIO_RegisterBits chg_ctrl0_reg 1 0 in
  v <- RegisterBits_read en_backup_bit ;;
  ret (v =? 1).

Definition setBackupModeEnable (enable : bool) : Dev bool :=
  let chg_ctrl0_reg := Adafruit_BusIO_Register BQ25798_REG_CHARGER_CONTROL_0 1 LSBFIRST in
  let en_backup_bit := Adafruit_BusIO_RegisterBits chg_ctrl0_reg 1 0 in
  _ <- RegisterBits_write en_backup_bit (if enable then 1 else 0) ;;
  ret true.

Definition getBackupModeThresh : Dev Z :=
  let chg_ctrl1_reg := Adafruit_BusIO_Register BQ25798_REG_CHARGER_CONTROL_1 1 LSBFIRST in
  let vbus_backup_bits := Adafruit_BusIO_RegisterBits chg_ctrl1_reg 2 6 in
  v <- RegisterBits_read vbus_backup_bits ;;
  let reg_value := uint8_t v in
  ret reg_value.

Definition setBackupModeThresh (threshold : Z) : Dev bool :=
  if threshold >? BQ25798_VBUS_BACKUP_100_PERCENT hdr then ret false else
  let chg_ctrl1_reg := Adafruit_BusIO_Register BQ25798_REG_CHARGER_CONTROL_1 1 LSBFIRST in
  let vbus_backup_bits := Adafruit_BusIO_RegisterBits chg_ctrl1_reg 2 6 in
  _ <- RegisterBits_write vbus_backup_bits (uint8_t threshold) ;;
  ret true.

Definition getVACOVP : Dev Z :=
  let chg_ctrl1_reg := Adafruit_BusIO_Register BQ25798_REG_CHARGER_CONTROL_1 1 LSBFIRST in
  let vac_ovp_bits := Adafruit_BusIO_RegisterBits chg_ctrl1_reg 2 4 in
  v <- RegisterBits_read vac_ovp_bits ;;
  let reg_value := uint8_t v in
  ret reg_value.

Definition setVACOVP (threshold : Z) : Dev bool :=
  if threshold >? BQ25798_VAC_OVP_7V hdr then ret false else
  let chg_ctrl1_reg := Adafruit_BusIO_Register BQ25798_REG_CHARGER_CONTROL_1 1 LSBFIRST in
  let vac_ovp_bits := Adafruit_BusIO_RegisterBits chg_ctrl1_reg 2 4 in
  _ <- RegisterBits_write vac_ovp_bits (uint8_t threshold) ;;
  ret true.

Definition resetWDT : Dev bool :=
  let chg_ctrl1_reg := Adafruit_BusIO_Register BQ25798_REG_CHARGER_CONTROL_1 1 LSBFIRST in
  let wd_rst_bit := Adafruit_BusIO_RegisterBits chg_ctrl1_reg 1 3 in
  _ <- RegisterBits_write wd_rst_bit 1 ;;
  ret true.

Definition getWDT : Dev Z :=
  let chg_ctrl1_reg := Adafruit_BusIO_Register BQ25798_REG_CHARGER_CONTROL_1 1 LSBFIRST in
  let watchdog_bits := Adafruit_BusIO_RegisterBits chg_ctrl1_reg 3 0 in
  v <- RegisterBits_read watchdog_bits ;;
  let reg_value := uint8_t v in
  ret reg_value.

Definition setWDT (timer : Z) : Dev bool :=
  if timer >? BQ25798_WDT_160S hdr then ret false else
  let chg_ctrl1_reg := Adafruit_BusIO_Register BQ25798_REG_CHARGER_CONTROL_1 1 LSBFIRST in
  let watchdog_bits := Adafruit_BusIO_RegisterBits chg_ctrl1_reg 3 0 in
  _ <- RegisterBits_write watchdog_bits (uint8_t timer) ;;
  ret true.

Definition getForceDPinsDetection : Dev bool :=
  let chg_ctrl2_reg := Adafruit_BusIO_Register BQ25798_REG_CHARGER_CONTROL_2 1 LSBFIRST in
  let force_indet_bit := Adafruit_BusIO_RegisterBits chg_ctrl2_reg 1 7 in
  v <- RegisterBits_read force_indet_bit ;;
  ret (v =? 1).

Definition setForceDPinsDetection (enable : bool) : Dev bool :=
  let chg_ctrl2_reg := Adafruit_BusIO_Register BQ25798_REG_CHARGER_CONTROL_2 1 LSBFIRST in
  let force_indet_bit := Adafruit_BusIO_RegisterBits chg_ctrl2_reg 1 7 in
  _ <- RegisterBits_write force_indet_bit (if enable then 1 else 0) ;;
  ret true.

Definition getAutoDPinsDetection : Dev bool :=
  let chg_ctrl2_reg := Adafruit_BusIO_Register BQ25798_REG_CHARGER_CONTROL_2 1 LSBFIRST in
  let auto_indet_bit := Adafruit_BusIO_RegisterBits chg_ctrl2_reg 1 6 in
  v <- RegisterBits_read auto_indet_bit ;;
  ret (v =? 1).

Definition setAutoDPinsDetection (enable : bool) : Dev bool :=
  let chg_ctrl2_reg := Adafruit_BusIO_Register BQ25798_REG_CHARGER_CONTROL_2 1 LSBFIRST in
  let auto_indet_bit := Adafruit_BusIO_RegisterBits chg_ctrl2_reg 1 6 in
  _ <- RegisterBits_write auto_indet_bit (if enable then 1 else 0) ;;
  ret true.

Definition getHVDCP12VEnable : Dev bool :=
  let chg_ctrl2_reg := Adafruit_BusIO_Register BQ25798_REG_CHARGER_CONTROL_2 1 LSBFIRST in
  let en_12v_bit := Adafruit_BusIO_RegisterBits chg_ctrl2_reg 1 5 in
  v <- RegisterBits_read en_12v_bit ;;
  ret (v =? 1).

Definition setHVDCP12VEnable (enable : bool) : Dev bool :=
  let chg_ctrl2_reg := Adafruit_BusIO_Register BQ25798_REG_CHARGER_CONTROL_2 1 LSBFIRST in
  let en_12v_bit := Adafruit_BusIO_RegisterBits chg_ctrl2_reg 1 5 in
  _ <- RegisterBits_write en_12v_bit (if enable then 1 else 0) ;;
  ret true.

Definition getHVDCP9VEnable : Dev bool :=
  let chg_ctrl2_reg := Adafruit_BusIO_Register BQ25798_REG_CHARGER_CONTROL_2 1 LSBFIRST in
  let en_9v_bit := Adafruit_BusIO_RegisterBits chg_ctrl2_reg 1 4 in
  v <- RegisterBits_read en_9v_bit ;;
  ret (v =? 1).

Definition setHVDCP9VEnable (enable : bool) : Dev bool :=
  let chg_ctrl2_reg := Adafruit_BusIO_Register BQ25798_REG_CHARGER_CONTROL_2 1 LSBFIRST in
  let en_9v_bit := Adafruit_BusIO_RegisterBits chg_ctrl2_reg 1 4 in
  _ <- RegisterBits_write en_9v_bit (if enable then 1 else 0) ;;
  ret true.

Definition getHVDCPEnable : Dev bool :=
  let chg_ctrl2_reg := Adafruit_BusIO_Register BQ25798_REG_CHARGER_CONTROL_2 1 LSBFIRST in
  let hvdcp_en_bit := Adafruit_BusIO_RegisterBits chg_ctrl2_reg 1 3 in
  v <- RegisterBits_read hvdcp_en_bit ;;
  ret (v =? 1).

Definition setHVDCPEnable (enable : bool) : Dev bool :=
  let chg_ctrl2_reg := Adafruit_BusIO_Register BQ25798_REG_CHARGER_CONTROL_2 1 LSBFIRST in
  let hvdcp_en_bit := Adafruit_BusIO_RegisterBits chg_ctrl2_reg 1 3 in
  _ <- RegisterBits_write hvdcp_en_bit (if enable then 1 else 0) ;;
  ret true.

Definition getShipFETmode : Dev Z :=
  let chg_ctrl2_reg := Adafruit_BusIO_Register BQ25798_REG_CHARGER_CONTROL_2 1 LSBFIRST in
  let sdrv_ctrl_bits := Adafruit_BusIO_RegisterBits chg_ctrl2_reg 2 1 in
  v <- RegisterBits_read sdrv_ctrl_bits ;;
  let reg_value := uint8_t v in
  ret reg_value.

Definition setShipFETmode (mode : Z) : Dev bool :=
  if mode >? BQ25798_SDRV_SYSTEM_RESET hdr then ret false else
  let chg_ctrl2_reg := Adafruit_BusIO_Register BQ25798_REG_CHARGER_CONTROL_2 1 LSBFIRST in
  let sdrv_ctrl_bits := Adafruit_BusIO_RegisterBits chg_ctrl2_reg 2 1 in
  _ <- RegisterBits_write sdrv_ctrl_bits (uint8_t mode) ;;
  ret true.

Definition getShipFET10sDelay : Dev bool :=
  let chg_ctrl2_reg := Adafruit_BusIO_Register BQ25798_REG_CHARGER_CONTROL_2 1 LSBFIRST in
  let sdrv_dly_bit := Adafruit_BusIO_RegisterBits chg_ctrl2_reg 1 0 in
  v <- RegisterBits_read sdrv_dly_bit ;;
  ret (v =? 1).

Definition setShipFET10sDelay (enable : bool) : Dev bool :=
  let chg_ctrl2_reg := Adafruit_BusIO_Register BQ25798_REG_CHARGER_CONTROL_2 1 LSBFIRST in
  let sdrv_dly_bit := Adafruit_BusIO_RegisterBits chg_ctrl2_reg 1 0 in
  _ <- RegisterBits_write sdrv_dly_bit (if enable then 1 else 0) ;;
  ret true.

Definition getACenable : Dev bool :=
  let chg_ctrl3_reg := Adafruit_BusIO_Register BQ25798_REG_CHARGER_CONTROL_3 1 LSBFIRST in
  let dis_acdrv_bit := Adafruit_BusIO_RegisterBits chg_ctrl3_reg 1 7 in
  v <- RegisterBits_read dis_acdrv_bit ;;
  ret (v =? 0).

Definition setACenable (enable : bool) : Dev bool :=
  let chg_ctrl3_reg := Adafruit_BusIO_Register BQ25798_REG_CHARGER_CONTROL_3 1 LSBFIRST in
  let dis_acdrv_bit := Adafruit_BusIO_RegisterBits chg_ctrl3_reg 1 7 in
  _ <- RegisterBits_write dis_acdrv_bit (if enable then 0 else 1) ;;
  ret true.

Definition getOTGenable : Dev bool :=
  let chg_ctrl3_reg := Adafruit_BusIO_Register BQ25798_REG_CHARGER_CONTROL_3 1 LSBFIRST in
  let en_otg_bit := Adafruit_BusIO_RegisterBits chg_ctrl3_reg 1 6 in
  v <- RegisterBits_read en_otg_bit ;;
  ret (v =? 1).

Definition setOTGenable (enable : bool) : Dev bool :=
  let chg_ctrl3_reg := Adafruit_BusIO_Register BQ25798_REG_CHARGER_CONTROL_3 1 LSBFIRST in
  let en_otg_bit := Adafruit_BusIO_RegisterBits chg_ctrl3_reg 1 6 in
  _ <- RegisterBits_write en_otg_bit (if enable then 1 else 0) ;;
  ret true.

Definition getOTGPFM : Dev bool :=
  let chg_ctrl3_reg := Adafruit_BusIO_Register BQ25798_REG_CHARGER_CONTROL_3 1 LSBFIRST in
  let pfm_otg_dis_bit := Adafruit_BusIO_RegisterBits chg_ctrl3_reg 1 5 in
  v <- RegisterBits_read pfm_otg_dis_bit ;;
  ret (v =? 0).

Definition setOTGPFM (enable : bool) : Dev bool :=
  let chg_ctrl3_reg := Adafruit_BusIO_Register BQ25798_REG_CHARGER_CONTROL_3 1 LSBFIRST in
  let pfm_otg_dis_bit := Adafruit_BusIO_RegisterBits chg_ctrl3_reg 1 5 in
  _ <- RegisterBits_write pfm_otg_dis_bit (if enable then 0 else 1) ;;
  ret true.

Definition getForwardPFM : Dev bool :=
  let chg_ctrl3_reg := Adafruit_BusIO_Register BQ25798_REG_CHARGER_CONTROL_3 1 LSBFIRST in
  let pfm_fwd_dis_bit := Adafruit_BusIO_RegisterBits chg_ctrl3_reg 1 4 in
  v <- RegisterBits_read pfm_fwd_dis_bit ;;
  ret (v =? 0).

Definition setForwardPFM (enable : bool) : Dev bool :=
  let chg_ctrl3_reg := Adafruit_BusIO_Register BQ25798_REG_CHARGER_CONTROL_3 1 LSBFIRST in
  let pfm_fwd_dis_bit := Adafruit_BusIO_RegisterBits chg_ctrl3_reg 1 4 in
  _ <- RegisterBits_write pfm_fwd_dis_bit (if enable then 0 else 1) ;;
  ret true.

Definition getShipWakeupDelay : Dev Z :=
  let chg_ctrl3_reg := Adafruit_BusIO_Register BQ25798_REG_CHARGER_CONTROL_3 1 LSBFIRST in
  let wkup_dly_bit := Adafruit_BusIO_RegisterBits chg_ctrl3_reg 1 3 in
  v <- RegisterBits_read wkup_dly_bit ;;
  let reg_value := uint8_t v in
  ret reg_value.

Definition setShipWakeupDelay (delay : Z) : Dev bool :=
  if delay >? BQ25798_WKUP_DLY_15MS hdr then ret false else
  let chg_ctrl3_reg := Adafruit_BusIO_Register BQ25798_REG_CHARGER_CONTROL_3 1 LSBFIRST in
  let wkup_dly_bit := Adafruit_BusIO_RegisterBits chg_ctrl3_reg 1 3 in
  _ <- RegisterBits_write wkup_dly_bit (uint8_t delay) ;;
  ret true.

Definition getBATFETLDOprecharge : Dev bool :=
  let chg_ctrl3_reg := Adafruit_BusIO_Register BQ25798_REG_CHARGER_CONTROL_3 1 LSBFIRST in
  let dis_ldo_bit := Adafruit_BusIO_RegisterBits chg_ctrl3_reg 1 2 in
  v <- RegisterBits_read dis_ldo_bit ;;
  ret (v =? 0).

Definition setBATFETLDOprecharge (enable : bool) : Dev bool :=
  let chg_ctrl3_reg := Adafruit_BusIO_Register BQ25798_REG_CHARGER_CONTROL_3 1 LSBFIRST in
  let dis_ldo_bit := Adafruit_BusIO_RegisterBits chg_ctrl3_reg 1 2 in
  _ <- RegisterBits_write dis_ldo_bit (if enable then 0 else 1) ;;
  ret true.

Definition getOTGOOA : Dev bool :=
  let chg_ctrl3_reg := Adafruit_BusIO_Register BQ25798_REG_CHARGER_CONTROL_3 1 LSBFIRST in
  let dis_otg_ooa_bit := Adafruit_BusIO_RegisterBits chg_ctrl3_reg 1 1 in
  v <- RegisterBits_read dis_otg_ooa_bit ;;
  ret (v =? 0).

Definition setOTGOOA (enable : bool) : Dev bool :=
  let chg_ctrl3_reg := Adafruit_BusIO_Register BQ25798_REG_CHARGER_CONTROL_3 1 LSBFIRST in
  let dis_otg_ooa_bit := Adafruit_BusIO_RegisterBits chg_ctrl3_reg 1 1 in
  _ <- RegisterBits_write dis_otg_ooa_bit (if enable then 0 else 1) ;;
  ret true.

Definition getForwardOOA : Dev bool :=
  let chg_ctrl3_reg := Adafruit_BusIO_Register BQ25798_REG_CHARGER_CONTROL_3 1 LSBFIRST in
  let dis_fwd_ooa_bit := Adafruit_BusIO_RegisterBits chg_ctrl3_reg 1 0 in
  v <- RegisterBits_read dis_fwd_ooa_bit ;;
  ret (v =? 0).

Definition setForwardOOA (enable : bool) : Dev bool :=
  let chg_ctrl3_reg := Adafruit_BusIO_Register BQ25798_REG_CHARGER_CONTROL_3 1 LSBFIRST in
  let dis_fwd_ooa_bit := Adafruit_BusIO_RegisterBits chg_ctrl3_reg 1 0 in
  _ <- RegisterBits_write dis_fwd_ooa_bit (if enable then 0 else 1) ;;
  ret true.

Definition getACDRV2enable : Dev bool :=
  let chg_ctrl4_reg := Adafruit_BusIO_Register BQ25798_REG_CHARGER_CONTROL_4 1 LSBFIRST in
  let en_acdrv2_bit := Adafruit_BusIO_RegisterBits chg_ctrl4_reg 1 7 in
  v <- RegisterBits_read en_acdrv2_bit ;;
  ret (v =? 1).

Definition setACDRV2enable (enable : bool) : Dev bool :=
  let chg_ctrl4_reg := Adafruit_BusIO_Register BQ25798_REG_CHARGER_CONTROL_4 1 LSBFIRST in
  let en_acdrv2_bit := Adafruit_BusIO_RegisterBits chg_ctrl4_reg 1 7 in
  _ <- RegisterBits_write en_acdrv2_bit (if enable then 1 else 0) ;;
  ret true.

Definition getACDRV1enable : Dev bool :=
  let chg_ctrl4_reg := Adafruit_BusIO_Register BQ25798_REG_CHARGER_CONTROL_4 1 LSBFIRST in
  let en_acdrv1_bit := Adafruit_BusIO_RegisterBits chg_ctrl4_reg 1 6 in
  v <- RegisterBits_read en_acdrv1_bit ;;
  ret (v =? 1).

Definition setACDRV1enable (enable : bool) : Dev bool :=
  let chg_ctrl4_reg := Adafruit_BusIO_Register BQ25798_REG_CHARGER_CONTROL_4 1 LSBFIRST in
  let en_acdrv1_bit := Adafruit_BusIO_RegisterBits chg_ctrl4_reg 1 6 in
  _ <- RegisterBits_write en_acdrv1_bit (if enable then 1 else 0) ;;
  ret true.

Definition getPWMFrequency : Dev Z :=
  let chg_ctrl4_reg := Adafruit_BusIO_Register BQ25798_REG_CHARGER_CONTROL_4 1 LSBFIRST in
  let pwm_freq_bit := Adafruit_BusIO_RegisterBits chg_ctrl4_reg 1 5 in
  v <- RegisterBits_read pwm_freq_bit ;;
  let reg_value := uint8_t v in
  ret reg_value.

Definition setPWMFrequency (frequency : Z) : Dev bool :=
  if frequency >? BQ25798_PWM_FREQ_750KHZ hdr then ret false else
  let chg_ctrl4_reg := Adafruit_BusIO_Register BQ25798_REG_CHARGER_CONTROL_4 1 LSBFIRST in
  let pwm_freq_bit := Adafruit_BusIO_RegisterBits chg_ctrl4_reg 1 5 in
  _ <- RegisterBits_write pwm_freq_bit (uint8_t frequency) ;;
  ret true.

Definition getStatPinEnable : Dev bool :=
  let chg_ctrl4_reg := Adafruit_BusIO_Register BQ25798_REG_CHARGER_CONTROL_4 1 LSBFIRST in
  let dis_stat_bit := Adafruit_BusIO_RegisterBits chg_ctrl4_reg 1 4 in
  v <- RegisterBits_read dis_stat_bit ;;
  ret (v =? 0).

Definition setStatPinEnable (enable : bool) : Dev bool :=
  let chg_ctrl4_reg := Adafruit_BusIO_Register BQ25798_REG_CHARGER_CONTROL_4 1 LSBFIRST in
  let dis_stat_bit := Adafruit_BusIO_RegisterBits chg_ctrl4_reg 1 4 in
  _ <- RegisterBits_write dis_stat_bit (if enable then 0 else 1) ;;
  ret true.

Definition getVSYSshortProtect : Dev bool :=
  let chg_ctrl4_reg := Adafruit_BusIO_Register BQ25798_REG_CHARGER_CONTROL_4 1 LSBFIRST in
  let dis_vsys_short_bit := Adafruit_BusIO_RegisterBits chg_ctrl4_reg 1 3 in
  v <- RegisterBits_read dis_vsys_short_bit ;;
  ret (v =? 0).

Definition setVSYSshortProtect (enable : bool) : Dev bool :=
  let chg_ctrl4_reg := Adafruit_BusIO_Register BQ25798_REG_CHARGER_CONTROL_4 1 LSBFIRST in
  let dis_vsys_short_bit := Adafruit_BusIO_RegisterBits chg_ctrl4_reg 1 3 in
  _ <- RegisterBits_write dis_vsys_short_bit (if enable then 0 else 1) ;;
  ret true.

Definition getVOTG_UVPProtect : Dev bool :=
  let chg_ctrl4_reg := Adafruit_BusIO_Register BQ25798_REG_CHARGER_CONTROL_4 1 LSBFIRST in
  let dis_votg_uvp_bit := Adafruit_BusIO_RegisterBits chg_ctrl4_reg 1 2 in
  v <- RegisterBits_read dis_votg_uvp_bit ;;
  ret (v =? 0).

Definition setVOTG_UVPProtect (enable : bool) : Dev bool :=
  let chg_ctrl4_reg := Adafruit_BusIO_Register BQ25798_REG_CHARGER_CONTROL_4 1 LSBFIRST in
  let dis_votg_uvp_bit := Adafruit_BusIO_RegisterBits chg_ctrl4_reg 1 2 in
  _ <- RegisterBits_write dis_votg_uvp_bit (if enable then 0 else 1) ;;
  ret true.

Definition setVINDPMdetection (enable : bool) : Dev bool :=
  let chg_ctrl4_reg := Adafruit_BusIO_Register BQ25798_REG_CHARGER_CONTROL_4 1 LSBFIRST in
  let force_vindpm_det_bit := Adafruit_BusIO_RegisterBits chg_ctrl4_reg 1 1 in
  _ <- RegisterBits_write force_vindpm_det_bit (if enable then 1 else 0) ;;
  ret true.

Definition getVINDPMdetection : Dev bool :=
  let chg_ctrl4_reg := Adafruit_BusIO_Register BQ25798_REG_CHARGER_CONTROL_4 1 LSBFIRST in
  let force_vindpm_det_bit := Adafruit_BusIO_RegisterBits chg_ctrl4_reg 1 1 in
  v <- RegisterBits_read force_vindpm_det_bit ;;
  ret (v =? 1).

Definition getIBUS_OCPenable : Dev bool :=
  let chg_ctrl4_reg := Adafruit_BusIO_Register BQ25798_REG_CHARGER_CONTROL_4 1 LSBFIRST in
  let en_ibus_ocp_bit := Adafruit_BusIO_RegisterBits chg_ctrl4_reg 1 0 in
  v <- RegisterBits_read en_ibus_ocp_bit ;;
  ret (v =? 1).

Definition setIBUS_OCPenable (enable : bool) : Dev bool :=
  let chg_ctrl4_reg := Adafruit_BusIO_Register BQ25798_REG_CHARGER_CONTROL_4 1 LSBFIRST in
  let en_ibus_ocp_bit := Adafruit_BusIO_RegisterBits chg_ctrl4_reg 1 0 in
  _ <- RegisterBits_write en_ibus_ocp_bit (if enable then 1 else 0) ;;
  ret true.

Definition getShipFETpresent : Dev bool :=
  let chg_ctrl5_reg := Adafruit_BusIO_Register BQ25798_REG_CHARGER_CONTROL_5 1 LSBFIRST in
  let sfet_present_bit := Adafruit_BusIO_RegisterBits chg_ctrl5_reg 1 7 in
  v <- RegisterBits_read sfet_present_bit ;;
  ret (uint_to_bool v).

Definition setShipFETpresent (enable : bool) : Dev bool :=
  let chg_ctrl5_reg := Adafruit_BusIO_Register BQ25798_REG_CHARGER_CONTROL_5 1 LSBFIRST in
  let sfet_present_bit := Adafruit_BusIO_RegisterBits chg_ctrl5_reg 1 7 in
  _ <- RegisterBits_write sfet_present_bit (bool_to_uint enable) ;;
  ret true.

Definition getBatDischargeSenseEnable : Dev bool :=
  let chg_ctrl5_reg := Adafruit_BusIO_Register BQ25798_REG_CHARGER_CONTROL_5 1 LSBFIRST in
  let en_ibat_bit := Adafruit_BusIO_RegisterBits chg_ctrl5_reg 1 5 in
  v <- RegisterBits_read en_ibat_bit ;;
  ret (uint_to_bool v).

Definition setBatDischargeSenseEnable (enable : bool) : Dev bool :=
  let chg_ctrl5_reg := Adafruit_BusIO_Register BQ25798_REG_CHARGER_CONTROL_5 1 LSBFIRST in
  let en_ibat_bit := Adafruit_BusIO_RegisterBits chg_ctrl5_reg 1 5 in
  _ <- RegisterBits_write en_ibat_bit (bool_to_uint enable) ;;
  ret true.

Definition getBatDischargeA : Dev Z :=
  let chg_ctrl5_reg := Adafruit_BusIO_Register BQ25798_REG_CHARGER_CONTROL_5 1 LSBFIRST in
  let ibat_reg_bits := Adafruit_BusIO_RegisterBits chg_ctrl5_reg 2 3 in
  v <- RegisterBits_read ibat_reg_bits ;;
  ret v.

Definition setBatDischargeA (current : Z) : Dev bool :=
  let chg_ctrl5_reg := Adafruit_BusIO_Register BQ25798_REG_CHARGER_CONTROL_5 1 LSBFIRST in
  let ibat_reg_bits := Adafruit_BusIO_RegisterBits chg_ctrl5_reg 2 3 in
  _ <- RegisterBits_write ibat_reg_bits (uint8_t current) ;;
  ret true.

Definition getIINDPMenable : Dev bool :=
  let chg_ctrl5_reg := Adafruit_BusIO_Register BQ25798_REG_CHARGER_CONTROL_5 1 LSBFIRST in
  let en_iindpm_bit := Adafruit_BusIO_RegisterBits chg_ctrl5_reg 1 2 in
  v <- RegisterBits_read en_iindpm_bit ;;
  ret (uint_to_bool v).

Definition setIINDPMenable (enable : bool) : Dev bool :=
  let chg_ctrl5_reg := Adafruit_BusIO_Register BQ25798_REG_CHARGER_CONTROL_5 1 LSBFIRST in
  let en_iindpm_bit := Adafruit_BusIO_RegisterBits chg_ctrl5_reg 1 2 in
  _ <- RegisterBits_write en_iindpm_bit (bool_to_uint enable) ;;
  ret true.

Definition getExtILIMpin : Dev bool :=
  let chg_ctrl5_reg := Adafruit_BusIO_Register BQ25798_REG_CHARGER_CONTROL_5 1 LSBFIRST in
  let en_extilim_bit := Adafruit_BusIO_RegisterBits chg_ctrl5_reg 1 1 in
  v <- RegisterBits_read en_extilim_bit ;;
  ret (uint_to_bool v).

Definition setExtILIMpin (enable : bool) : Dev bool :=
  let chg_ctrl5_reg := Adafruit_BusIO_Register BQ25798_REG_CHARGER_CONTROL_5 1 LSBFIRST in
  let en_extilim_bit := Adafruit_BusIO_RegisterBits chg_ctrl5_reg 1 1 in
  _ <- RegisterBits_write en_extilim_bit (bool_to_uint enable) ;;
  ret true.

Definition getBatDischargeOCPenable : Dev bool :=
  let chg_ctrl5_reg := Adafruit_BusIO_Register BQ25798_REG_CHARGER_CONTROL_5 1 LSBFIRST in
  let en_batoc_bit := Adafruit_BusIO_RegisterBits chg_ctrl5_reg 1 0 in
  v <- RegisterBits_read en_batoc_bit ;;
  ret (uint_to_bool v).

Definition setBatDischargeOCPenable (enable : bool) : Dev bool :=
  let chg_ctrl5_reg := Adafruit_BusIO_Register BQ25798_REG_CHARGER_CONTROL_5 1 LSBFIRST in
  let en_batoc_bit := Adafruit_BusIO_RegisterBits chg_ctrl5_reg 1 0 in
  _ <- RegisterBits_write en_batoc_bit (bool_to_uint enable) ;;
  ret true.

Definition getVINDPM_VOCpercent : Dev Z :=
  let mppt_ctrl_reg := Adafruit_BusIO_Register BQ25798_REG_MPPT_CONTROL 1 LSBFIRST in
  let voc_pct_bits := Adafruit_BusIO_RegisterBits mppt_ctrl_reg 3 5 in
  v <- RegisterBits_read voc_pct_bits ;;
  ret v.

Definition setVINDPM_VOCpercent (percentage : Z) : Dev bool :=
  let mppt_ctrl_reg := Adafruit_BusIO_Register BQ25798_REG_MPPT_CONTROL 1 LSBFIRST in
  let voc_pct_bits := Adafruit_BusIO_RegisterBits mppt_ctrl_reg 3 5 in
  _ <- RegisterBits_write voc_pct_bits (uint8_t percentage) ;;
  ret true.

Definition getVOCdelay : Dev Z :=
  let mppt_ctrl_reg := Adafruit_BusIO_Register BQ25798_REG_MPPT_CONTROL 1 LSBFIRST in
  let voc_dly_bits := Adafruit_BusIO_RegisterBits mppt_ctrl_reg 2 3 in
  v <- RegisterBits_read voc_dly_bits ;;
  ret v.

Definition setVOCdelay (delay : Z) : Dev bool :=
  let mppt_ctrl_reg := Adafruit_BusIO_Register BQ25798_REG_MPPT_CONTROL 1 LSBFIRST in
  let voc_dly_bits := Adafruit_BusIO_RegisterBits mppt_ctrl_reg 2 3 in
  _ <- RegisterBits_write voc_dly_bits (uint8_t delay) ;;
  ret true.

Definition getVOCrate : Dev Z :=
  let mppt_ctrl_reg := Adafruit_BusIO_Register BQ25798_REG_MPPT_CONTROL 1 LSBFIRST in
  let voc_rate_bits := Adafruit_BusIO_RegisterBits mppt_ctrl_reg 2 1 in
  v <- RegisterBits_read voc_rate_bits ;;
  ret v.

Definition setVOCrate (rate : Z) : Dev bool :=
  let mppt_ctrl_reg := Adafruit_BusIO_Register BQ25798_REG_MPPT_CONTROL 1 LSBFIRST in
  let voc_rate_bits := Adafruit_BusIO_RegisterBits mppt_ctrl_reg 2 1 in
  _ <- RegisterBits_write voc_rate_bits (uint8_t rate) ;;
  ret true.

Definition getMPPTenable : Dev bool :=
  let mppt_ctrl_reg := Adafruit_BusIO_Register BQ25798_REG_MPPT_CONTROL 1 LSBFIRST in
  let en_mppt_bit := Adafruit_BusIO_RegisterBits mppt_ctrl_reg 1 0 in
  v <- RegisterBits_read en_mppt_bit ;;
  ret (uint_to_bool v).

Definition setMPPTenable (enable : bool) : Dev bool :=
  let mppt_ctrl_reg := Adafruit_BusIO_Register BQ25798_REG_MPPT_CONTROL 1 LSBFIRST in
  let en_mppt_bit := Adafruit_BusIO_RegisterBits mppt_ctrl_reg 1 0 in
  _ <- RegisterBits_write en_mppt_bit (bool_to_uint enable) ;;
  ret true.

Definition getThermRegulationThresh : Dev Z :=
  let temp_ctrl_reg := Adafruit_BusIO_Register BQ25798_REG_TEMPERATURE_CONTROL 1 LSBFIRST in
  let treg_bits := Adafruit_BusIO_RegisterBits temp_ctrl_reg 2 6 in
  v <- RegisterBits_read treg_bits ;;
  ret v.

Definition setThermRegulationThresh (threshold : Z) : Dev bool :=
  let temp_ctrl_reg := Adafruit_BusIO_Register BQ25798_REG_TEMPERATURE_CONTROL 1 LSBFIRST in
  let treg_bits := Adafruit_BusIO_RegisterBits temp_ctrl_reg 2 6 in
  _ <- RegisterBits_write treg_bits (uint8_t threshold) ;;
  ret true.

Definition getThermShutdownThresh : Dev Z :=
  let temp_ctrl_reg := Adafruit_BusIO_Register BQ25798_REG_TEMPERATURE_CONTROL 1 LSBFIRST in
  let tshut_bits := Adafruit_BusIO_RegisterBits temp_ctrl_reg 2 4 in
  v <- RegisterBits_read tshut_bits ;;
  ret v.

Definition setThermShutdownThresh (threshold : Z) : Dev bool :=
  let temp_ctrl_reg := Adafruit_BusIO_Register BQ25798_REG_TEMPERATURE_CONTROL 1 LSBFIRST in
  let tshut_bits := Adafruit_BusIO_RegisterBits temp_ctrl_reg 2 4 in
  _ <- RegisterBits_write tshut_bits (uint8_t threshold) ;;
  ret true.

Definition getVBUSpulldown : Dev bool :=
  let temp_ctrl_reg := Adafruit_BusIO_Register BQ25798_REG_TEMPERATURE_CONTROL 1 LSBFIRST in
  let vbus_pd_bit := Adafruit_BusIO_RegisterBits temp_ctrl_reg 1 3 in
  v <- RegisterBits_read vbus_pd_bit ;;
  ret (uint_to_bool v).

Definition setVBUSpulldown (enable : bool) : Dev bool :=
  let temp_ctrl_reg := Adafruit_BusIO_Register BQ25798_REG_TEMPERATURE_CONTROL 1 LSBFIRST in
  let vbus_pd_bit := Adafruit_BusIO_RegisterBits temp_ctrl_reg 1 3 in
  _ <- RegisterBits_write vbus_pd_bit (bool_to_uint enable) ;;
  ret true.

Definition getVAC1pulldown : Dev bool :=
  let temp_ctrl_reg := Adafruit_BusIO_Register BQ25798_REG_TEMPERATURE_CONTROL 1 LSBFIRST in
  let vac1_pd_bit := Adafruit_BusIO_RegisterBits temp_ctrl_reg 1 2 in
  v <- RegisterBits_read vac1_pd_bit ;;
  ret (uint_to_bool v).

Definition setVAC1pulldown (enable : bool) : Dev bool :=
  let temp_ctrl_reg := Adafruit_BusIO_Register BQ25798_REG_TEMPERATURE_CONTROL 1 LSBFIRST in
  let vac1_pd_bit := Adafruit_BusIO_RegisterBits temp_ctrl_reg 1 2 in
  _ <- RegisterBits_write vac1_pd_bit (bool_to_uint enable) ;;
  ret true.

Definition getVAC2pulldown : Dev bool :=
  let temp_ctrl_reg := Adafruit_BusIO_Register BQ25798_REG_TEMPERATURE_CONTROL 1 LSBFIRST in
  let vac2_pd_bit := Adafruit_BusIO_RegisterBits temp_ctrl_reg 1 1 in
  v <- RegisterBits_read vac2_pd_bit ;;
  ret (uint_to_bool v).

Definition setVAC2pulldown (enable : bool) : Dev bool :=
  let temp_ctrl_reg := Adafruit_BusIO_Register BQ25798_REG_TEMPERATURE_CONTROL 1 LSBFIRST in
  let vac2_pd_bit := Adafruit_BusIO_RegisterBits temp_ctrl_reg 1 1 in
  _ <- RegisterBits_write vac2_pd_bit (bool_to_uint enable) ;;
  ret true.

Definition getBackupACFET1on : Dev bool :=
  let temp_ctrl_reg := Adafruit_BusIO_Register BQ25798_REG_TEMPERATURE_CONTROL 1 LSBFIRST in
  let bkup_acfet1_bit := Adafruit_BusIO_RegisterBits temp_ctrl_reg 1 0 in
  v <- RegisterBits_read bkup_acfet1_bit ;;
  ret (uint_to_bool v).

Definition setBackupACFET1on (enable : bool) : Dev bool :=
  let temp_ctrl_reg := Adafruit_BusIO_Register BQ25798_REG_TEMPERATURE_CONTROL 1 LSBFIRST in
  let bkup_acfet1_bit := Adafruit_BusIO_RegisterBits temp_ctrl_reg 1 0 in
  _ <- RegisterBits_write bkup_acfet1_bit (bool_to_uint enable) ;;
  ret true.
(** ** Every mutator of the driver

    One constructor per setter (and per one-shot action) of the driver
    with its argument; [run] dispatches to the function itself and [target]
    is the bit-field the function addresses. *)
Inductive Call : Type :=
| call_setMinSystemV (x : float)
| call_setChargeLimitV (x : float)
| call_setChargeLimitA (x : float)
| call_setInputLimitV (x : float)
| call_setInputLimitA (x : float)
| call_setVBatLowV (ordinal : Z)
| call_setPrechargeLimitA (x : float)
| call_setStopOnWDT (b : bool)
| call_setTerminationA (x : float)
| call_setCellCount (ordinal : Z)
| call_setRechargeDeglitchTime (ordinal : Z)
| call_setRechargeThreshOffsetV (x : float)
| call_setOTGV (x : float)
| call_setPrechargeTimer (ordinal : Z)
| call_setOTGLimitA (x : float)
| call_setTopOffTimer (ordinal : Z)
| call_setTrickleChargeTimerEnable (b : bool)
| call_setPrechargeTimerEnable (b : bool)
| call_setFastChargeTimerEnable (b : bool)
| call_setFastChargeTimer (ordinal : Z)
| call_setTimerHalfRateEnable (b : bool)
| call_setAutoOVPBattDischarge (b : bool)
| call_setForceBattDischarge (b : bool)
| call_setChargeEnable (b : bool)
| call_setICOEnable (b : bool)
| call_setForceICO (b : bool)
| call_setHIZMode (b : bool)
| call_setTerminationEnable (b : bool)
| call_setBackupModeEnable (b : bool)
| call_setBackupModeThresh (ordinal : Z)
| call_setVACOVP (ordinal : Z)
| call_resetWDT
| call_setWDT (ordinal : Z)
| call_setForceDPinsDetection (b : bool)
| call_setAutoDPinsDetection (b : bool)
| call_setHVDCP12VEnable (b : bool)
| call_setHVDCP9VEnable (b : bool)
| call_setHVDCPEnable (b : bool)
| call_setShipFETmode (ordinal : Z)
| call_setShipFET10sDelay (b : bool)
| call_setACenable (b : bool)
| call_setOTGenable (b : bool)
| call_setOTGPFM (b : bool)
| call_setForwardPFM (b : bool)
| call_setShipWakeupDelay (ordinal : Z)
| call_setBATFETLDOprecharge (b : bool)
| call_setOTGOOA (b : bool)
| call_setForwardOOA (b : bool)
| call_setACDRV2enable (b : bool)
| call_setACDRV1enable (b : bool)
| call_setPWMFrequency (ordinal : Z)
| call_setStatPinEnable (b : bool)
| call_setVSYSshortProtect (b : bool)
| call_setVOTG_UVPProtect (b : bool)
| call_setVINDPMdetection (b : bool)
| call_setIBUS_OCPenable (b : bool)
| call_setShipFETpresent (b : bool)
| call_setBatDischargeSenseEnable (b : bool)
| call_setBatDischargeA (ordinal : Z)
| call_setIINDPMenable (b : bool)
| call_setExtILIMpin (b : bool)
| call_setBatDischargeOCPenable (b : bool)
| call_setVINDPM_VOCpercent (ordinal : Z)
| call_setVOCdelay (ordinal : Z)
| call_setVOCrate (ordinal : Z)
| call_setMPPTenable (b : bool)
| call_setThermRegulationThresh (ordinal : Z)
| call_setThermShutdownThresh (ordinal : Z)
| call_setVBUSpulldown (b : bool)
| call_setVAC1pulldown (b : bool)
| call_setVAC2pulldown (b : bool)
| call_setBackupACFET1on (b : bool)
| call_reset.

Definition run (c : Call) : Dev bool :=
  match c with
  | call_setMinSystemV x => setMinSystemV x
  | call_setChargeLimitV x => setChargeLimitV x
  | call_setChargeLimitA x => setChargeLimitA x
  | call_setInputLimitV x => setInputLimitV x
  | call_setInputLimitA x => setInputLimitA x
  | call_setVBatLowV o => setVBatLowV o
  | call_setPrechargeLimitA x => setPrechargeLimitA x
  | call_setStopOnWDT b => setStopOnWDT b
  | call_setTerminationA x => setTerminationA x
  | call_setCellCount o => setCellCount o
  | call_setRechargeDeglitchTime o => setRechargeDeglitchTime o
  | call_setRechargeThreshOffsetV x => setRechargeThreshOffsetV x
  | call_setOTGV x => setOTGV x
  | call_setPrechargeTimer o => setPrechargeTimer o
  | call_setOTGLimitA x => setOTGLimitA x
  | call_setTopOffTimer o => setTopOffTimer o
  | call_setTrickleChargeTimerEnable b => setTrickleChargeTimerEnable b
  | call_setPrechargeTimerEnable b => setPrechargeTimerEnable b
  | call_setFastChargeTimerEnable b => setFastChargeTimerEnable b
  | call_setFastChargeTimer o => setFastChargeTimer o
  | call_setTimerHalfRateEnable b => setTimerHalfRateEnable b
  | call_setAutoOVPBattDischarge b => setAutoOVPBattDischarge b
  | call_setForceBattDischarge b => setForceBattDischarge b
  | call_setChargeEnable b => setChargeEnable b
  | call_setICOEnable b => setICOEnable b
  | call_setForceICO b => setForceICO b
  | call_setHIZMode b => setHIZMode b
  | call_setTerminationEnable b => setTerminationEnable b
  | call_setBackupModeEnable b => setBackupModeEnable b
  | call_setBackupModeThresh o => setBackupModeThresh o
  | call_setVACOVP o => setVACOVP o
  | call_resetWDT => resetWDT
  | call_setWDT o => setWDT o
  | call_setForceDPinsDetection b => setForceDPinsDetection b
  | call_setAutoDPinsDetection b => setAutoDPinsDetection b
  | call_setHVDCP12VEnable b => setHVDCP12VEnable b
  | call_setHVDCP9VEnable b => setHVDCP9VEnable b
  | call_setHVDCPEnable b => setHVDCPEnable b
  | call_setShipFETmode o => setShipFETmode o
  | call_setShipFET10sDelay b => setShipFET10sDelay b
  | call_setACenable b => setACenable b
  | call_setOTGenable b => setOTGenable b
  | call_setOTGPFM b => setOTGPFM b
  | call_setForwardPFM b => setForwardPFM b
  | call_setShipWakeupDelay o => setShipWakeupDelay o
  | call_setBATFETLDOprecharge b => setBATFETLDOprecharge b
  | call_setOTGOOA b => setOTGOOA b
  | call_setForwardOOA b => setForwardOOA b
  | call_setACDRV2enable b => setACDRV2enable b
  | call_setACDRV1enable b => setACDRV1enable b
  | call_setPWMFrequency o => setPWMFrequency o
  | call_setStatPinEnable b => setStatPinEnable b
  | call_setVSYSshortProtect b => setVSYSshortProtect b
  | call_setVOTG_UVPProtect b => setVOTG_UVPProtect b
  | call_setVINDPMdetection b => setVINDPMdetection b
  | call_setIBUS_OCPenable b => setIBUS_OCPenable b
  | call_setShipFETpresent b => setShipFETpresent b
  | call_setBatDischargeSenseEnable b => setBatDischargeSenseEnable b
  | call_setBatDischargeA o => setBatDischargeA o
  | call_setIINDPMenable b => setIINDPMenable b
  | call_setExtILIMpin b => setExtILIMpin b
  | call_setBatDischargeOCPenable b => setBatDischargeOCPenable b
  | call_setVINDPM_VOCpercent o => setVINDPM_VOCpercent o
  | call_setVOCdelay o => setVOCdelay o
  | call_setVOCrate o => setVOCrate o
  | call_setMPPTenable b => setMPPTenable b
  | call_setThermRegulationThresh o => setThermRegulationThresh o
  | call_setThermShutdownThresh o => setThermShutdownThresh o
  | call_setVBUSpulldown b => setVBUSpulldown b
  | call_setVAC1pulldown b => setVAC1pulldown b
  | call_setVAC2pulldown b => setVAC2pulldown b
  | call_setBackupACFET1on b => setBackupACFET1on b
  | call_reset => reset
  end.
Definition target (c : Call) : BusIO_RegisterBits :=
  match c with
  | call_setMinSystemV _ => Adafruit_BusIO_RegisterBits (Adafruit_BusIO_Register BQ25798_REG_MINIMAL_SYSTEM_VOLTAGE 1 LSBFIRST) 6 0
  | call_setChargeLimitV _ => Adafruit_BusIO_RegisterBits (Adafruit_BusIO_Register BQ25798_REG_CHARGE_VOLTAGE_LIMIT 2 MSBFIRST) 11 0
  | call_setChargeLimitA _ => Adafruit_BusIO_RegisterBits (Adafruit_BusIO_Register BQ25798_REG_CHARGE_CURRENT_LIMIT 2 MSBFIRST) 9 0
  | call_setInputLimitV _ => Adafruit_BusIO_RegisterBits (Adafruit_BusIO_Register BQ25798_REG_INPUT_VOLTAGE_LIMIT 1 LSBFIRST) 8 0
  | call_setInputLimitA _ => Adafruit_BusIO_RegisterBits (Adafruit_BusIO_Register BQ25798_REG_INPUT_CURRENT_LIMIT 2 MSBFIRST) 9 0
  | call_setVBatLowV _ => Adafruit_BusIO_RegisterBits (Adafruit_BusIO_Register BQ25798_REG_PRECHARGE_CONTROL 1 LSBFIRST) 2 6
  | call_setPrechargeLimitA _ => Adafruit_BusIO_RegisterBits (Adafruit_BusIO_Register BQ25798_REG_PRECHARGE_CONTROL 1 LSBFIRST) 6 0
  | call_setStopOnWDT _ => Adafruit_BusIO_RegisterBits (Adafruit_BusIO_Register BQ25798_REG_TERMINATION_CONTROL 1 LSBFIRST) 1 5
  | call_setTerminationA _ => Adafruit_BusIO_RegisterBits (Adafruit_BusIO_Register BQ25798_REG_TERMINATION_CONTROL 1 LSBFIRST) 5 0
  | call_setCellCount _ => Adafruit_BusIO_RegisterBits (Adafruit_BusIO_Register BQ25798_REG_RECHARGE_CONTROL 1 LSBFIRST) 2 6
  | call_setRechargeDeglitchTime _ => Adafruit_BusIO_RegisterBits (Adafruit_BusIO_Register BQ25798_REG_RECHARGE_CONTROL 1 LSBFIRST) 2 4
  | call_setRechargeThreshOffsetV _ => Adafruit_BusIO_RegisterBits (Adafruit_BusIO_Register BQ25798_REG_RECHARGE_CONTROL 1 LSBFIRST) 4 0
  | call_setOTGV _ => Adafruit_BusIO_RegisterBits (Adafruit_BusIO_Register BQ25798_REG_VOTG_REGULATION 2 MSBFIRST) 11 0
  | call_setPrechargeTimer _ => Adafruit_BusIO_RegisterBits (Adafruit_BusIO_Register BQ25798_REG_IOTG_REGULATION 1 LSBFIRST) 1 7
  | call_setOTGLimitA _ => Adafruit_BusIO_RegisterBits (Adafruit_BusIO_Register BQ25798_REG_IOTG_REGULATION 1 LSBFIRST) 7 0
  | call_setTopOffTimer _ => Adafruit_BusIO_RegisterBits (Adafruit_BusIO_Register BQ25798_REG_TIMER_CONTROL 1 LSBFIRST) 2 6
  | call_setTrickleChargeTimerEnable _ => Adafruit_BusIO_RegisterBits (Adafruit_BusIO_Register BQ25798_REG_TIMER_CONTROL 1 LSBFIRST) 1 5
  | call_setPrechargeTimerEnable _ => Adafruit_BusIO_RegisterBits (Adafruit_BusIO_Register BQ25798_REG_TIMER_CONTROL 1 LSBFIRST) 1 4
  | call_setFastChargeTimerEnable _ => Adafruit_BusIO_RegisterBits (Adafruit_BusIO_Register BQ25798_REG_TIMER_CONTROL 1 LSBFIRST) 1 3
  | call_setFastChargeTimer _ => Adafruit_BusIO_RegisterBits (Adafruit_BusIO_Register BQ25798_REG_TIMER_CONTROL 1 LSBFIRST) 2 1
  | call_setTimerHalfRateEnable _ => Adafruit_BusIO_RegisterBits (Adafruit_BusIO_Register BQ25798_REG_TIMER_CONTROL 1 LSBFIRST) 1 0
  | call_setAutoOVPBattDischarge _ => Adafruit_BusIO_RegisterBits (Adafruit_BusIO_Register BQ25798_REG_CHARGER_CONTROL_0 1 LSBFIRST) 1 7
  | call_setForceBattDischarge _ => Adafruit_BusIO_RegisterBits (Adafruit_BusIO_Register BQ25798_REG_CHARGER_CONTROL_0 1 LSBFIRST) 1 6
  | call_setChargeEnable _ => Adafruit_BusIO_RegisterBits (Adafruit_BusIO_Register BQ25798_REG_CHARGER_CONTROL_0 1 LSBFIRST) 1 5
  | call_setICOEnable _ => Adafruit_BusIO_RegisterBits (Adafruit_BusIO_Register BQ25798_REG_CHARGER_CONTROL_0 1 LSBFIRST) 1 4
  | call_setForceICO _ => Adafruit_BusIO_RegisterBits (Adafruit_BusIO_Register BQ25798_REG_CHARGER_CONTROL_0 1 LSBFIRST) 1 3
  | call_setHIZMode _ => Adafruit_BusIO_RegisterBits (Adafruit_BusIO_Register BQ25798_REG_CHARGER_CONTROL_0 1 LSBFIRST) 1 2
  | call_setTerminationEnable _ => Adafruit_BusIO_RegisterBits (Adafruit_BusIO_Register BQ25798_REG_CHARGER_CONTROL_0 1 LSBFIRST) 1 1
  | call_setBackupModeEnable _ => Adafruit_BusIO_RegisterBits (Adafruit_BusIO_Register BQ25798_REG_CHARGER_CONTROL_0 1 LSBFIRST) 1 0
  | call_setBackupModeThresh _ => Adafruit_BusIO_RegisterBits (Adafruit_BusIO_Register BQ25798_REG_CHARGER_CONTROL_1 1 LSBFIRST) 2 6
  | call_setVACOVP _ => Adafruit_BusIO_RegisterBits (Adafruit_BusIO_Register BQ25798_REG_CHARGER_CONTROL_1 1 LSBFIRST) 2 4
  | call_resetWDT => Adafruit_BusIO_RegisterBits (Adafruit_BusIO_Register BQ25798_REG_CHARGER_CONTROL_1 1 LSBFIRST) 1 3
  | call_setWDT _ => Adafruit_BusIO_RegisterBits (Adafruit_BusIO_Register BQ25798_REG_CHARGER_CONTROL_1 1 LSBFIRST) 3 0
  | call_setForceDPinsDetection _ => Adafruit_BusIO_RegisterBits (Adafruit_BusIO_Register BQ25798_REG_CHARGER_CONTROL_2 1 LSBFIRST) 1 7
  | call_setAutoDPinsDetection _ => Adafruit_BusIO_RegisterBits (Adafruit_BusIO_Register BQ25798_REG_CHARGER_CONTROL_2 1 LSBFIRST) 1 6
  | call_setHVDCP12VEnable _ => Adafruit_BusIO_RegisterBits (Adafruit_BusIO_Register BQ25798_REG_CHARGER_CONTROL_2 1 LSBFIRST) 1 5
  | call_setHVDCP9VEnable _ => Adafruit_BusIO_RegisterBits (Adafruit_BusIO_Register BQ25798_REG_CHARGER_CONTROL_2 1 LSBFIRST) 1 4
  | call_setHVDCPEnable _ => Adafruit_BusIO_RegisterBits (Adafruit_BusIO_Register BQ25798_REG_CHARGER_CONTROL_2 1 LSBFIRST) 1 3
  | call_setShipFETmode _ => Adafruit_BusIO_RegisterBits (Adafruit_BusIO_Register BQ25798_REG_CHARGER_CONTROL_2 1 LSBFIRST) 2 1
  | call_setShipFET10sDelay _ => Adafruit_BusIO_RegisterBits (Adafruit_BusIO_Register BQ25798_REG_CHARGER_CONTROL_2 1 LSBFIRST) 1 0
  | call_setACenable _ => Adafruit_BusIO_RegisterBits (Adafruit_BusIO_Register BQ25798_REG_CHARGER_CONTROL_3 1 LSBFIRST) 1 7
  | call_setOTGenable _ => Adafruit_BusIO_RegisterBits (Adafruit_BusIO_Register BQ25798_REG_CHARGER_CONTROL_3 1 LSBFIRST) 1 6
  | call_setOTGPFM _ => Adafruit_BusIO_RegisterBits (Adafruit_BusIO_Register BQ25798_REG_CHARGER_CONTROL_3 1 LSBFIRST) 1 5
  | call_setForwardPFM _ => Adafruit_BusIO_RegisterBits (Adafruit_BusIO_Register BQ25798_REG_CHARGER_CONTROL_3 1 LSBFIRST) 1 4
  | call_setShipWakeupDelay _ => Adafruit_BusIO_RegisterBits (Adafruit_BusIO_Register BQ25798_REG_CHARGER_CONTROL_3 1 LSBFIRST) 1 3
  | call_setBATFETLDOprecharge _ => Adafruit_BusIO_RegisterBits (Adafruit_BusIO_Register BQ25798_REG_CHARGER_CONTROL_3 1 LSBFIRST) 1 2
  | call_setOTGOOA _ => Adafruit_BusIO_RegisterBits (Adafruit_BusIO_Register BQ25798_REG_CHARGER_CONTROL_3 1 LSBFIRST) 1 1
  | call_setForwardOOA _ => Adafruit_BusIO_RegisterBits (Adafruit_BusIO_Register BQ25798_REG_CHARGER_CONTROL_3 1 LSBFIRST) 1 0
  | call_setACDRV2enable _ => Adafruit_BusIO_RegisterBits (Adafruit_BusIO_Register BQ25798_REG_CHARGER_CONTROL_4 1 LSBFIRST) 1 7
  | call_setACDRV1enable _ => Adafruit_BusIO_RegisterBits (Adafruit_BusIO_Register BQ25798_REG_CHARGER_CONTROL_4 1 LSBFIRST) 1 6
  | call_setPWMFrequency _ => Adafruit_BusIO_RegisterBits (Adafruit_BusIO_Register BQ25798_REG_CHARGER_CONTROL_4 1 LSBFIRST) 1 5
  | call_setStatPinEnable _ => Adafruit_BusIO_RegisterBits (Adafruit_BusIO_Register BQ25798_REG_CHARGER_CONTROL_4 1 LSBFIRST) 1 4
  | call_setVSYSshortProtect _ => Adafruit_BusIO_RegisterBits (Adafruit_BusIO_Register BQ25798_REG_CHARGER_CONTROL_4 1 LSBFIRST) 1 3
  | call_setVOTG_UVPProtect _ => Adafruit_BusIO_RegisterBits (Adafruit_BusIO_Register BQ25798_REG_CHARGER_CONTROL_4 1 LSBFIRST) 1 2
  | call_setVINDPMdetection _ => Adafruit_BusIO_RegisterBits (Adafruit_BusIO_Register BQ25798_REG_CHARGER_CONTROL_4 1 LSBFIRST) 1 1
  | call_setIBUS_OCPenable _ => Adafruit_BusIO_RegisterBits (Adafruit_BusIO_Register BQ25798_REG_CHARGER_CONTROL_4 1 LSBFIRST) 1 0
  | call_setShipFETpresent _ => Adafruit_BusIO_RegisterBits (Adafruit_BusIO_Register BQ25798_REG_CHARGER_CONTROL_5 1 LSBFIRST) 1 7
  | call_setBatDischargeSenseEnable _ => Adafruit_BusIO_RegisterBits (Adafruit_BusIO_Register BQ25798_REG_CHARGER_CONTROL_5 1 LSBFIRST) 1 5
  | call_setBatDischargeA _ => Adafruit_BusIO_RegisterBits (Adafruit_BusIO_Register BQ25798_REG_CHARGER_CONTROL_5 1 LSBFIRST) 2 3
  | call_setIINDPMenable _ => Adafruit_BusIO_RegisterBits (Adafruit_BusIO_Register BQ25798_REG_CHARGER_CONTROL_5 1 LSBFIRST) 1 2
  | call_setExtILIMpin _ => Adafruit_BusIO_RegisterBits (Adafruit_BusIO_Register BQ25798_REG_CHARGER_CONTROL_5 1 LSBFIRST) 1 1
  | call_setBatDischargeOCPenable _ => Adafruit_BusIO_RegisterBits (Adafruit_BusIO_Register BQ25798_REG_CHARGER_CONTROL_5 1 LSBFIRST) 1 0
  | call_setVINDPM_VOCpercent _ => Adafruit_BusIO_RegisterBits (Adafruit_BusIO_Register BQ25798_REG_MPPT_CONTROL 1 LSBFIRST) 3 5
  | call_setVOCdelay _ => Adafruit_BusIO_RegisterBits (Adafruit_BusIO_Register BQ25798_REG_MPPT_CONTROL 1 LSBFIRST) 2 3
  | call_setVOCrate _ => Adafruit_BusIO_RegisterBits (Adafruit_BusIO_Register BQ25798_REG_MPPT_CONTROL 1 LSBFIRST) 2 1
  | call_setMPPTenable _ => Adafruit_BusIO_RegisterBits (Adafruit_BusIO_Register BQ25798_REG_MPPT_CONTROL 1 LSBFIRST) 1 0
  | call_setThermRegulationThresh _ => Adafruit_BusIO_RegisterBits (Adafruit_BusIO_Register BQ25798_REG_TEMPERATURE_CONTROL 1 LSBFIRST) 2 6
  | call_setThermShutdownThresh _ => Adafruit_BusIO_RegisterBits (Adafruit_BusIO_Register BQ25798_REG_TEMPERATURE_CONTROL 1 LSBFIRST) 2 4
  | call_setVBUSpulldown _ => Adafruit_BusIO_RegisterBits (Adafruit_BusIO_Register BQ25798_REG_TEMPERATURE_CONTROL 1 LSBFIRST) 1 3
  | call_setVAC1pulldown _ => Adafruit_BusIO_RegisterBits (Adafruit_BusIO_Register BQ25798_REG_TEMPERATURE_CONTROL 1 LSBFIRST) 1 2
  | call_setVAC2pulldown _ => Adafruit_BusIO_RegisterBits (Adafruit_BusIO_Register BQ25798_REG_TEMPERATURE_CONTROL 1 LSBFIRST) 1 1
  | call_setBackupACFET1on _ => Adafruit_BusIO_RegisterBits (Adafruit_BusIO_Register BQ25798_REG_TEMPERATURE_CONTROL 1 LSBFIRST) 1 0
  | call_reset => Adafruit_BusIO_RegisterBits (Adafruit_BusIO_Register BQ25798_REG_TERMINATION_CONTROL 1 LSBFIRST) 1 6
  end.

End Driver.

(** ** Vocabulary of the specification *)

Definition width_bits (t : BusIO_RegisterBits) : Z := 8 * reg_width (bits_register t).

Definition field_addr (t : BusIO_RegisterBits) : RegAddr := reg_addr (bits_register t).

(** A field that fits within its register. *)
Definition field_ok (t : BusIO_RegisterBits) : Prop :=
  0 <= bits_shift t /\ 0 <= bits_count t /\
  bits_shift t + bits_count t <= 8 * reg_width (bits_register t).

(** The word [RegisterBits_write] sends back for old contents [old] and
    new field value [x]. *)
Definition merge_field (t : BusIO_RegisterBits) (old x : Z) : Z :=
  Z.lor (Z.land old (Z.lnot (Z.shiftl (Z.ones (bits_count t)) (bits_shift t))))
        (Z.shiftl (Z.land x (Z.ones (bits_count t))) (bits_shift t)).

(** Contents of field [t] in register file [f]. *)
Definition field_of (t : BusIO_RegisterBits) (f : RegAddr -> Z) : Z :=
  Z.land (Z.shiftr (f (field_addr t) mod 2 ^ width_bits t) (bits_shift t))
         (Z.ones (bits_count t)).

(** What a call may change: registers other than the addressed one are
    kept, and so is every bit of the addressed register outside the field. *)
Definition frame (t : BusIO_RegisterBits) (d d' : Device) : Prop :=
  (forall a, a <> field_addr t -> regs d' a = regs d a) /\
  (forall i, 0 <= i < width_bits t ->
             ~ (bits_shift t <= i < bits_shift t + bits_count t) ->
             Z.testbit (regs d' (field_addr t)) i = Z.testbit (regs d (field_addr t)) i).

(** The inverted-logic flags: the hardware bit disables the function. *)
Inductive InvertedFlag : Set :=
| ACenable
| OTGPFM
| ForwardPFM
| BATFETLDOprecharge
| OTGOOA
| ForwardOOA
| StatPinEnable
| VSYSshortProtect
| VOTG_UVPProtect.

Definition inv_call (f : InvertedFlag) (enable : bool) : Call :=
  match f with
  | ACenable => call_setACenable enable
  | OTGPFM => call_setOTGPFM enable
  | ForwardPFM => call_setForwardPFM enable
  | BATFETLDOprecharge => call_setBATFETLDOprecharge enable
  | OTGOOA => call_setOTGOOA enable
  | ForwardOOA => call_setForwardOOA enable
  | StatPinEnable => call_setStatPinEnable enable
  | VSYSshortProtect => call_setVSYSshortProtect enable
  | VOTG_UVPProtect => call_setVOTG_UVPProtect enable
  end.

Definition inv_get (f : InvertedFlag) : Dev bool :=
  match f with
  | ACenable => getACenable
  | OTGPFM => getOTGPFM
  | ForwardPFM => getForwardPFM
  | BATFETLDOprecharge => getBATFETLDOprecharge
  | OTGOOA => getOTGOOA
  | ForwardOOA => getForwardOOA
  | StatPinEnable => getStatPinEnable
  | VSYSshortProtect => getVSYSshortProtect
  | VOTG_UVPProtect => getVOTG_UVPProtect
  end.

(** The enumerated settings. *)
Inductive EnumSetting : Set :=
| VBatLowV
| CellCount
| RechargeDeglitchTime
| PrechargeTimer
| TopOffTimer
| FastChargeTimer
| BackupModeThresh
| VACOVP
| WDT
| ShipFETmode
| ShipWakeupDelay
| PWMFrequency
| BatDischargeA
| VINDPM_VOCpercent
| VOCdelay
| VOCrate
| ThermRegulationThresh
| ThermShutdownThresh.

Definition enum_call (e : EnumSetting) (ordinal : Z) : Call :=
  match e with
  | VBatLowV => call_setVBatLowV ordinal
  | CellCount => call_setCellCount ordinal
  | RechargeDeglitchTime => call_setRechargeDeglitchTime ordinal
  | PrechargeTimer => call_setPrechargeTimer ordinal
  | TopOffTimer => call_setTopOffTimer ordinal
  | FastChargeTimer => call_setFastChargeTimer ordinal
  | BackupModeThresh => call_setBackupModeThresh ordinal
  | VACOVP => call_setVACOVP ordinal
  | WDT => call_setWDT ordinal
  | ShipFETmode => call_setShipFETmode ordinal
  | ShipWakeupDelay => call_setShipWakeupDelay ordinal
  | PWMFrequency => call_setPWMFrequency ordinal
  | BatDischargeA => call_setBatDischargeA ordinal
  | VINDPM_VOCpercent => call_setVINDPM_VOCpercent ordinal
  | VOCdelay => call_setVOCdelay ordinal
  | VOCrate => call_setVOCrate ordinal
  | ThermRegulationThresh => call_setThermRegulationThresh ordinal
  | ThermShutdownThresh => call_setThermShutdownThresh ordinal
  end.

Definition enum_get (e : EnumSetting) : Dev Z :=
  match e with
  | VBatLowV => getVBatLowV
  | CellCount => getCellCount
  | RechargeDeglitchTime => getRechargeDeglitchTime
  | PrechargeTimer => getPrechargeTimer
  | TopOffTimer => getTopOffTimer
  | FastChargeTimer => getFastChargeTimer
  | BackupModeThresh => getBackupModeThresh
  | VACOVP => getVACOVP
  | WDT => getWDT
  | ShipFETmode => getShipFETmode
  | ShipWakeupDelay => getShipWakeupDelay
  | PWMFrequency => getPWMFrequency
  | BatDischargeA => getBatDischargeA
  | VINDPM_VOCpercent => getVINDPM_VOCpercent
  | VOCdelay => getVOCdelay
  | VOCrate => getVOCrate
  | ThermRegulationThresh => getThermRegulationThresh
  | ThermShutdownThresh => getThermShutdownThresh
  end.

(** The enumerator a setter compares its argument with, if it does. *)
Definition enum_guard (hdr : Header) (e : EnumSetting) : option Z :=
  match e with
  | VBatLowV => Some (BQ25798_VBAT_LOWV_71_4_PERCENT hdr)
  | CellCount => Some (BQ25798_CELL_COUNT_4S hdr)
  | RechargeDeglitchTime => Some (BQ25798_TRECHG_2048MS hdr)
  | PrechargeTimer => Some (BQ25798_PRECHG_TMR_0_5HR hdr)
  | TopOffTimer => Some (BQ25798_TOPOFF_TMR_45MIN hdr)
  | FastChargeTimer => Some (BQ25798_CHG_TMR_24HR hdr)
  | BackupModeThresh => Some (BQ25798_VBUS_BACKUP_100_PERCENT hdr)
  | VACOVP => Some (BQ25798_VAC_OVP_7V hdr)
  | WDT => Some (BQ25798_WDT_160S hdr)
  | ShipFETmode => Some (BQ25798_SDRV_SYSTEM_RESET hdr)
  | ShipWakeupDelay => Some (BQ25798_WKUP_DLY_15MS hdr)
  | PWMFrequency => Some (BQ25798_PWM_FREQ_750KHZ hdr)
  | BatDischargeA => None
  | VINDPM_VOCpercent => None
  | VOCdelay => None
  | VOCrate => None
  | ThermRegulationThresh => None
  | ThermShutdownThresh => None
  end.

(** The linear-scaled settings, with the constants of their accessors. *)
Inductive LinearSetting : Set :=
| MinSystemV
| ChargeLimitV
| ChargeLimitA
| InputLimitV
| InputLimitA
| PrechargeLimitA
| TerminationA
| RechargeThreshOffsetV
| OTGV
| OTGLimitA.

Definition lin_call (s : LinearSetting) (x : float) : Call :=
  match s with
  | MinSystemV => call_setMinSystemV x
  | ChargeLimitV => call_setChargeLimitV x
  | ChargeLimitA => call_setChargeLimitA x
  | InputLimitV => call_setInputLimitV x
  | InputLimitA => call_setInputLimitA x
  | PrechargeLimitA => call_setPrechargeLimitA x
  | TerminationA => call_setTerminationA x
  | RechargeThreshOffsetV => call_setRechargeThreshOffsetV x
  | OTGV => call_setOTGV x
  | OTGLimitA => call_setOTGLimitA x
  end.

Definition lin_get (s : LinearSetting) : Dev float :=
  match s with
  | MinSystemV => getMinSystemV
  | ChargeLimitV => getChargeLimitV
  | ChargeLimitA => getChargeLimitA
  | InputLimitV => getInputLimitV
  | InputLimitA => getInputLimitA
  | PrechargeLimitA => getPrechargeLimitA
  | TerminationA => getTerminationA
  | RechargeThreshOffsetV => getRechargeThreshOffsetV
  | OTGV => getOTGV
  | OTGLimitA => getOTGLimitA
  end.

Definition minValue (s : LinearSetting) : float :=
  match s with
  | MinSystemV => F32.lit 25 10
  | ChargeLimitV => F32.lit 30 10
  | ChargeLimitA => F32.lit 5 100
  | InputLimitV => F32.lit 36 10
  | InputLimitA => F32.lit 1 10
  | PrechargeLimitA => F32.lit 4 100
  | TerminationA => F32.lit 4 100
  | RechargeThreshOffsetV => F32.lit 5 100
  | OTGV => F32.lit 28 10
  | OTGLimitA => F32.lit 16 100
  end.

Definition maxValue (s : LinearSetting) : float :=
  match s with
  | MinSystemV => F32.lit 160 10
  | ChargeLimitV => F32.lit 188 10
  | ChargeLimitA => F32.lit 50 10
  | InputLimitV => F32.lit 220 10
  | InputLimitA => F32.lit 33 10
  | PrechargeLimitA => F32.lit 20 10
  | TerminationA => F32.lit 10 10
  | RechargeThreshOffsetV => F32.lit 8 10
  | OTGV => F32.lit 220 10
  | OTGLimitA => F32.lit 336 100
  end.

Definition scale (s : LinearSetting) : float :=
  match s with
  | MinSystemV => F32.lit 25 100
  | ChargeLimitV => F32.lit 1 100
  | ChargeLimitA => F32.lit 1 100
  | InputLimitV => F32.lit 1 10
  | InputLimitA => F32.lit 1 100
  | PrechargeLimitA => F32.lit 4 100
  | TerminationA => F32.lit 4 100
  | RechargeThreshOffsetV => F32.lit 5 100
  | OTGV => F32.lit 1 100
  | OTGLimitA => F32.lit 4 100
  end.

Definition offset (s : LinearSetting) : option float :=
  match s with
  | MinSystemV => Some (F32.lit 25 10)
  | ChargeLimitV => None
  | ChargeLimitA => None
  | InputLimitV => None
  | InputLimitA => None
  | PrechargeLimitA => None
  | TerminationA => None
  | RechargeThreshOffsetV => Some (F32.lit 5 100)
  | OTGV => Some (F32.lit 28 10)
  | OTGLimitA => None
  end.

(** Width of the C integer type that holds the raw value. *)
Definition raw_type_bits (s : LinearSetting) : Z :=
  match s with
  | MinSystemV => 8
  | ChargeLimitV => 16
  | ChargeLimitA => 16
  | InputLimitV => 8
  | InputLimitA => 16
  | PrechargeLimitA => 8
  | TerminationA => 8
  | RechargeThreshOffsetV => 8
  | OTGV => 16
  | OTGLimitA => 8
  end.

(** The field of a linear setting. *)
Definition lin_field (s : LinearSetting) : BusIO_RegisterBits :=
  target (lin_call s (minValue s)).

(** Largest raw value of the field, [2 ^ bitWidth - 1]. *)
Definition rawMax (t : BusIO_RegisterBits) : Z := 2 ^ bits_count t - 1.

(** The raw value a linear setter computes from an accepted input: the
    quotient truncated toward zero, then clamped. *)
Definition encode (ub : float -> Z) (s : LinearSetting) (x : float) : Z :=
  let shifted := match offset s with Some o => F32.sub x o | None => x end in
  let reg_value := float_to_uint ub (raw_type_bits s) (F32.div shifted (scale s)) in
  if reg_value >? rawMax (lin_field s) then rawMax (lin_field s) else reg_value.

(** The value a linear getter computes from a raw field value. *)
Definition decode (s : LinearSetting) (raw : Z) : float :=
  let scaled := F32.mul (F32.of_int raw) (scale s) in
  match offset s with Some o => F32.add scaled o | None => scaled end.

(** Bounded universal quantification over [0, n). *)
Fixpoint all_below (n : nat) (P : Z -> bool) : bool :=
  match n with
  | O => true
  | S k => P (Z.of_nat k) && all_below k P
  end.

(** The write a call performs when it accepts its argument: a field write,
    or for the input voltage limit a write of the whole register. *)
Definition write_field (c : Call) (x : Z) : Dev bool :=
  match c with
  | call_setInputLimitV _ => Register_write (bits_register (target c)) x
  | _ => RegisterBits_write (target c) x
  end.

(** The hardware bit behind a flag. *)
Definition physical_bit (f : InvertedFlag) (d : Device) : bool :=
  Z.testbit (regs d (field_addr (target (inv_call f true))))
            (bits_shift (target (inv_call f true))).

(** The part-number sub-field, bits 5-3 of the part-information register. *)
Definition part_number (v : Z) : Z := Z.land (Z.shiftr v 3) 7.

(** ** Vocabulary of binary32 rounding *)

(** Rounding information as two extra bits under the mantissa. *)
Definition loc_code (l : location) : Z :=
  match l with
  | loc_Exact => 0
  | loc_Inexact Lt => 1
  | loc_Inexact Eq => 2
  | loc_Inexact Gt => 3
  end.

Definition rec_code (r : shr_record) : Z :=
  4 * shr_m r + (if shr_r r then 2 else 0) + (if shr_s r then 1 else 0).

(** One right shift that keeps a sticky bit. *)
Definition sh1 (t : Z) : Z := 2 * (t / 4) + (if t mod 4 =? 0 then 0 else 1).

Definition shn (n : nat) (t : Z) : Z := Nat.iter n sh1 t.

(** Round to nearest, ties to even. *)
Definition rne (t : Z) : Z :=
  t / 4 + (if (t mod 4 =? 3) || ((t mod 4 =? 2) && Z.odd (t / 4)) then 1 else 0).

(** Number of right shifts and resulting mantissa of the rounding step. *)
Definition bra_shift (m : Z) : nat := Z.to_nat (Zdigits2 m - 24).

Definition bra_mant (m : Z) (l : location) : Z :=
  rne (shn (bra_shift m) (4 * m + loc_code l)).

(** Value of a positive finite float in units of 2^-149. *)
Definition val (x : spec_float) : Z :=
  match x with
  | S754_finite false m e => Zpos m * 2 ^ (e + 149)
  | _ => 0
  end.

(** A positive finite float given by mantissa and exponent. *)
Definition fin (m e : Z) : float := S754_finite false (Z.to_pos m) e.

(** Quotient with its rounding information, as the division computes it. *)
Definition div_code (n d : Z) : Z := 4 * (n / d) + loc_code (new_location d (n mod d)).

(** Difference of two positive floats as an integer mantissa at the
    smaller exponent. *)
Definition diff_mant (m e mo eo : Z) : Z :=
  m * 2 ^ (e - Z.min e eo) - mo * 2 ^ (eo - Z.min e eo).

Definition opt_eqb (a b : option Z) : bool :=
  match a, b with
  | Some x, Some y => x =? y
  | None, None => true
  | _, _ => false
  end.

(** [|g - x| <= B] for positive finite floats, computed at their smaller
    exponent. *)
Definition within (B : Q) (x g : float) : bool :=
  match x, g with
  | S754_finite false mx ex, S754_finite false mg eg =>
      let c := Z.min ex eg in
      (-149 <=? c) && (c <=? 0) &&
      (Z.abs (Zpos mg * 2 ^ (eg - c) - Zpos mx * 2 ^ (ex - c)) * Zpos (Qden B)
       <=? Qnum B * 2 ^ (- c))
  | _, _ => false
  end.

Section Segments.

(** Constants of one linear setting: offset, scale, largest raw value and
    tolerance of the round trip. *)
Variable off : option float.
Variable sc : float.
Variable rmax : Z.
Variable tol : Q.

Definition shifted (x : float) : float :=
  match off with Some o => F32.sub x o | None => x end.

(** The quotient a linear setter converts to an integer. *)
Definition quotient (x : float) : float := F32.div (shifted x) sc.

(** The value a linear getter computes from a raw field value. *)
Definition decoded (raw : Z) : float :=
  let scaled := F32.mul (F32.of_int raw) sc in
  match off with Some o => F32.add scaled o | None => scaled end.

(** The round trip at [x], given the truncated quotient: a raw value that
    fits the field and decodes to within the tolerance of [x]. *)
Definition good_with (x : float) (t : option Z) : bool :=
  match t with
  | Some k => (0 <=? k) && (k <=? rmax) && within tol x (decoded k)
  | None => false
  end.

Definition good_at (x : float) : bool := good_with x (F32.trunc (quotient x)).

(** The mantissas [lo..b] at exponent [e] form a segment on which the raw
    value is constant: the checks made at its two ends. *)
Definition seg_ok (e lo b : Z) : bool :=
  let sl := shifted (fin lo e) in
  let sb := shifted (fin b e) in
  let tl := F32.trunc (F32.div sl sc) in
  let tb := F32.trunc (F32.div sb sc) in
  (lo <=? b) && good_with (fin lo e) tl && good_with (fin b e) tb &&
  ((lo =? b) ||
   match sc with
   | S754_finite false ms es =>
       (2 ^ 23 <=? Zpos ms) && (Zpos ms <? 2 ^ 24) && opt_eqb tl tb &&
       match off with
       | None => (-149 <=? e - es - 24) && (e - es - 24 + 1 <? 104)
       | Some (S754_finite false mo eo) =>
           (-125 <=? Z.min e eo) && (e <? 104) &&
           (val (fin (Zpos mo) eo) <? val (fin lo e)) &&
           match sl, sb with
           | S754_finite false _ e1, S754_finite false _ e2 =>
               (e1 =? e2) && (-149 <=? e1 - es - 24) && (e1 - es - 24 + 1 <? 104)
           | _, _ => false
           end
       | Some _ => false
       end
   | _ => false
   end).

(** *** Search for the segments (heuristic, not trusted) *)

(** What must agree at the two ends of a segment. *)
Definition signature (x : float) : option Z * Z :=
  let sx := shifted x in
  (F32.trunc (F32.div sx sc),
   match off, sx with
   | Some _, S754_finite _ _ e1 => e1
   | Some _, S754_zero _ => -1000
   | Some _, _ => -2000
   | None, _ => 0
   end).

Definition signature_eqb (a b : option Z * Z) : bool :=
  opt_eqb (fst a) (fst b) && (snd a =? snd b).

(** Last mantissa expected to share raw value [k]: just below the float
    whose quotient by the scale reaches [k + 1]. *)
Definition guess (e k : Z) : Z :=
  match sc with
  | S754_finite false ms es =>
      let '(mo, eo) := match off with
                       | Some (S754_finite false mo eo) => (Zpos mo, eo)
                       | _ => (0, e)
                       end in
      let c := Z.min e (Z.min es eo) in
      let target := (k + 1) * Zpos ms * 2 ^ (es - c) + mo * 2 ^ (eo - c) in
      Z.shiftr (target + 2 ^ (e - c) - 1) (e - c) - 1
  | _ => 0
  end.

Fixpoint bisect (fuel : nat) (e : Z) (sig : option Z * Z) (l r : Z) : Z :=
  match fuel with
  | O => l
  | S f =>
      if r - l <=? 1 then l
      else let mid := (l + r) / 2 in
           if signature_eqb sig (signature (fin mid e)) then bisect f e sig mid r
           else bisect f e sig l mid
  end.

Definition seg_end (e lo hi : Z) : Z :=
  let sig := signature (fin lo e) in
  if signature_eqb sig (signature (fin hi e)) then hi
  else
    match fst sig with
    | Some k =>
        let g := Z.max lo (Z.min hi (guess e k)) in
        let try_at c rest :=
          if (c <=? hi) && (lo <=? c) && signature_eqb sig (signature (fin c e))
          then c else rest in
        try_at (g + 1) (try_at g (try_at (g - 1) (try_at (g - 2) (try_at (g - 3)
          (bisect 30 e sig lo (Z.min hi (g + 2)))))))
    | None => lo
    end.

(** *** The checker *)

Fixpoint walk (fuel : nat) (e lo hi : Z) : bool :=
  match fuel with
  | O => hi <? lo
  | S f =>
      if hi <? lo then true
      else
        let b := seg_end e lo hi in
        if seg_ok e lo b then
          if b <=? hi then walk f e (b + 1) hi else false
        else false
  end.

End Segments.

(** One encoding step of each setting, as the decimal number of the
    datasheet, and the allowance for binary32 rounding. *)
Definition step (s : LinearSetting) : Q :=
  match s with
  | MinSystemV => 25 # 100
  | ChargeLimitV => 1 # 100
  | ChargeLimitA => 1 # 100
  | InputLimitV => 1 # 10
  | InputLimitA => 1 # 100
  | PrechargeLimitA => 4 # 100
  | TerminationA => 4 # 100
  | RechargeThreshOffsetV => 5 # 100
  | OTGV => 1 # 100
  | OTGLimitA => 4 # 100
  end.

Definition slack (s : LinearSetting) : Q :=
  match s with
  | ChargeLimitV | OTGV => 1 # 4194304
  | _ => 0
  end.

Definition tolerance (s : LinearSetting) : Q := (step s + slack s)%Q.

Definition check_setting (s : LinearSetting) : bool :=
  match minValue s, maxValue s with
  | S754_finite false m1 e1, S754_finite false m2 e2 =>
      (2 ^ 23 <=? Zpos m1) && (Zpos m2 <? 2 ^ 24) && (-149 <? e1) &&
      all_below (Z.to_nat (e2 - e1 + 1))
        (fun i => let e := e1 + i in
                  walk (offset s) (scale s) (rawMax (lin_field s)) (tolerance s) 4000 e
                       (if e =? e1 then Zpos m1 else 2 ^ 23)
                       (if e =? e2 then Zpos m2 else 2 ^ 24 - 1))
  | _, _ => false
  end.

(** ** Vocabulary of the settings as a whole *)

(** The flags whose hardware bit has the sense of the argument. *)
Inductive PlainFlag : Set :=
| StopOnWDT
| TrickleChargeTimerEnable
| PrechargeTimerEnable
| FastChargeTimerEnable
| TimerHalfRateEnable
| AutoOVPBattDischarge
| ForceBattDischarge
| ChargeEnable
| ICOEnable
| ForceICO
| HIZMode
| TerminationEnable
| BackupModeEnable
| ForceDPinsDetection
| AutoDPinsDetection
| HVDCP12VEnable
| HVDCP9VEnable
| HVDCPEnable
| ShipFET10sDelay
| OTGenable
| ACDRV2enable
| ACDRV1enable
| VINDPMdetection
| IBUS_OCPenable
| ShipFETpresent
| BatDischargeSenseEnable
| IINDPMenable
| ExtILIMpin
| BatDischargeOCPenable
| MPPTenable
| VBUSpulldown
| VAC1pulldown
| VAC2pulldown
| BackupACFET1on.

Definition flag_call (f : PlainFlag) (enable : bool) : Call :=
  match f with
  | StopOnWDT => call_setStopOnWDT enable
  | TrickleChargeTimerEnable => call_setTrickleChargeTimerEnable enable
  | PrechargeTimerEnable => call_setPrechargeTimerEnable enable
  | FastChargeTimerEnable => call_setFastChargeTimerEnable enable
  | TimerHalfRateEnable => call_setTimerHalfRateEnable enable
  | AutoOVPBattDischarge => call_setAutoOVPBattDischarge enable
  | ForceBattDischarge => call_setForceBattDischarge enable
  | ChargeEnable => call_setChargeEnable enable
  | ICOEnable => call_setICOEnable enable
  | ForceICO => call_setForceICO enable
  | HIZMode => call_setHIZMode enable
  | TerminationEnable => call_setTerminationEnable enable
  | BackupModeEnable => call_setBackupModeEnable enable
  | ForceDPinsDetection => call_setForceDPinsDetection enable
  | AutoDPinsDetection => call_setAutoDPinsDetection enable
  | HVDCP12VEnable => call_setHVDCP12VEnable enable
  | HVDCP9VEnable => call_setHVDCP9VEnable enable
  | HVDCPEnable => call_setHVDCPEnable enable
  | ShipFET10sDelay => call_setShipFET10sDelay enable
  | OTGenable => call_setOTGenable enable
  | ACDRV2enable => call_setACDRV2enable enable
  | ACDRV1enable => call_setACDRV1enable enable
  | VINDPMdetection => call_setVINDPMdetection enable
  | IBUS_OCPenable => call_setIBUS_OCPenable enable
  | ShipFETpresent => call_setShipFETpresent enable
  | BatDischargeSenseEnable => call_setBatDischargeSenseEnable enable
  | IINDPMenable => call_setIINDPMenable enable
  | ExtILIMpin => call_setExtILIMpin enable
  | BatDischargeOCPenable => call_setBatDischargeOCPenable enable
  | MPPTenable => call_setMPPTenable enable
  | VBUSpulldown => call_setVBUSpulldown enable
  | VAC1pulldown => call_setVAC1pulldown enable
  | VAC2pulldown => call_setVAC2pulldown enable
  | BackupACFET1on => call_setBackupACFET1on enable
  end.

Definition flag_get (f : PlainFlag) : Dev bool :=
  match f with
  | StopOnWDT => getStopOnWDT
  | TrickleChargeTimerEnable => getTrickleChargeTimerEnable
  | PrechargeTimerEnable => getPrechargeTimerEnable
  | FastChargeTimerEnable => getFastChargeTimerEnable
  | TimerHalfRateEnable => getTimerHalfRateEnable
  | AutoOVPBattDischarge => getAutoOVPBattDischarge
  | ForceBattDischarge => getForceBattDischarge
  | ChargeEnable => getChargeEnable
  | ICOEnable => getICOEnable
  | ForceICO => getForceICO
  | HIZMode => getHIZMode
  | TerminationEnable => getTerminationEnable
  | BackupModeEnable => getBackupModeEnable
  | ForceDPinsDetection => getForceDPinsDetection
  | AutoDPinsDetection => getAutoDPinsDetection
  | HVDCP12VEnable => getHVDCP12VEnable
  | HVDCP9VEnable => getHVDCP9VEnable
  | HVDCPEnable => getHVDCPEnable
  | ShipFET10sDelay => getShipFET10sDelay
  | OTGenable => getOTGenable
  | ACDRV2enable => getACDRV2enable
  | ACDRV1enable => getACDRV1enable
  | VINDPMdetection => getVINDPMdetection
  | IBUS_OCPenable => getIBUS_OCPenable
  | ShipFETpresent => getShipFETpresent
  | BatDischargeSenseEnable => getBatDischargeSenseEnable
  | IINDPMenable => getIINDPMenable
  | ExtILIMpin => getExtILIMpin
  | BatDischargeOCPenable => getBatDischargeOCPenable
  | MPPTenable => getMPPTenable
  | VBUSpulldown => getVBUSpulldown
  | VAC1pulldown => getVAC1pulldown
  | VAC2pulldown => getVAC2pulldown
  | BackupACFET1on => getBackupACFET1on
  end.

(** A setting of the driver: a getter together with its setter. *)
Inductive Setting : Set :=
| Linear (s : LinearSetting)
| Enumerated (e : EnumSetting)
| Inverted (f : InvertedFlag)
| Plain (f : PlainFlag).

(** What a getter returns. *)
Inductive Reading : Type :=
| Quantity (x : float)
| Ordinal (o : Z)
| Flag (b : bool).

Definition get (s : Setting) : Dev Reading :=
  match s with
  | Linear l => x <- lin_get l ;; ret (Quantity x)
  | Enumerated e => o <- enum_get e ;; ret (Ordinal o)
  | Inverted f => b <- inv_get f ;; ret (Flag b)
  | Plain f => b <- flag_get f ;; ret (Flag b)
  end.

(** The field the accessors of a setting address. *)
Definition setting_field (s : Setting) : BusIO_RegisterBits :=
  match s with
  | Linear l => lin_field l
  | Enumerated e => target (enum_call e 0)
  | Inverted f => target (inv_call f true)
  | Plain f => target (flag_call f true)
  end.

(** The reading a getter derives from the contents of its field. *)
Definition reading_of (s : Setting) (raw : Z) : Reading :=
  match s with
  | Linear l => Quantity (decode l raw)
  | Enumerated _ => Ordinal raw
  | Inverted _ => Flag (raw =? 0)
  | Plain _ => Flag (raw =? 1)
  end.

(** The 71 settings of the driver. *)
Definition all_settings : list Setting :=
  map Linear
    [MinSystemV; ChargeLimitV; ChargeLimitA; InputLimitV; InputLimitA; PrechargeLimitA;
     TerminationA; RechargeThreshOffsetV; OTGV; OTGLimitA]
  ++ map Enumerated
    [VBatLowV; CellCount; RechargeDeglitchTime; PrechargeTimer; TopOffTimer;
     FastChargeTimer; BackupModeThresh; VACOVP; WDT; ShipFETmode; ShipWakeupDelay;
     PWMFrequency; BatDischargeA; VINDPM_VOCpercent; VOCdelay; VOCrate;
     ThermRegulationThresh; ThermShutdownThresh]
  ++ map Inverted
    [ACenable; OTGPFM; ForwardPFM; BATFETLDOprecharge; OTGOOA; ForwardOOA;
     StatPinEnable; VSYSshortProtect; VOTG_UVPProtect]
  ++ map Plain
    [StopOnWDT; TrickleChargeTimerEnable; PrechargeTimerEnable; FastChargeTimerEnable;
     TimerHalfRateEnable; AutoOVPBattDischarge; ForceBattDischarge; ChargeEnable;
     ICOEnable; ForceICO; HIZMode; TerminationEnable; BackupModeEnable;
     ForceDPinsDetection; AutoDPinsDetection; HVDCP12VEnable; HVDCP9VEnable;
     HVDCPEnable; ShipFET10sDelay; OTGenable; ACDRV2enable; ACDRV1enable;
     VINDPMdetection; IBUS_OCPenable; ShipFETpresent; BatDischargeSenseEnable;
     IINDPMenable; ExtILIMpin; BatDischargeOCPenable; MPPTenable; VBUSpulldown;
     VAC1pulldown; VAC2pulldown; BackupACFET1on].

(** Every field a call of the driver can address: those of the settings and
    the two one-shot bits. *)
Definition all_fields : list BusIO_RegisterBits :=
  map setting_field all_settings ++ [target call_resetWDT; target call_reset].

(** Equality of fields, decided. *)
Definition field_eqb (t u : BusIO_RegisterBits) : bool :=
  (if RegAddr_eq_dec (field_addr t) (field_addr u) then true else false) &&
  (reg_width (bits_register t) =? reg_width (bits_register u)) &&
  (match reg_byteorder (bits_register t), reg_byteorder (bits_register u) with
   | LSBFIRST, LSBFIRST | MSBFIRST, MSBFIRST => true
   | _, _ => false
   end) &&
  (bits_count t =? bits_count u) && (bits_shift t =? bits_shift u).

(** Two fields that share no bit: in different registers, or in the same
    register (read at the same width) over separate bit ranges. *)
Definition apart (t u : BusIO_RegisterBits) : bool :=
  if RegAddr_eq_dec (field_addr t) (field_addr u)
  then (width_bits t =? width_bits u) &&
       ((bits_shift t + bits_count t <=? bits_shift u) ||
        (bits_shift u + bits_count u <=? bits_shift t))
  else true.

(** The register map has no overlap: any two of the fields are the same
    field or share no bit. *)
Definition fields_separate : bool :=
  forallb (fun t => forallb (fun u => field_eqb t u || apart t u) all_fields) all_fields.

(** The register file after field [t] of [f] has been written with [x]. *)
Definition store_field (t : BusIO_RegisterBits) (x : Z) (f : RegAddr -> Z) : RegAddr -> Z :=
  set_reg (field_addr t)
          (merge_field t (f (field_addr t) mod 2 ^ width_bits t) x mod 2 ^ width_bits t) f.

(** What an accepted call [c] with written value [x] does to the registers. *)
Definition stores (hdr : Header) (ub : float -> Z) (c : Call) (x : Z) : Prop :=
  forall d a, regs (snd (run hdr ub c d)) a =
              if acks d then store_field (target c) x (regs d) a else regs d a.

(** ** Vocabulary of the order of raw values *)

Section Sweep.

(** Constants of one linear setting, as in the segments above, and the
    mantissas and exponents of its smallest and largest accepted input. *)
Variable off : option float.
Variable sc : float.
Variable rmax : Z.
Variable tol : Q.
Variables m1 e1 m2 e2 : Z.

(** As [walk], and the raw value must not decrease from a segment to the
    next: [prev] is the raw value of the segment before, the result that of
    the last segment. *)
Fixpoint walk_mono (fuel : nat) (e lo hi prev : Z) : option Z :=
  match fuel with
  | O => if hi <? lo then Some prev else None
  | S f =>
      if hi <? lo then Some prev
      else
        let b := seg_end off sc e lo hi in
        if seg_ok off sc rmax tol e lo b then
          if b <=? hi then
            match F32.trunc (quotient off sc (fin lo e)) with
            | Some k => if prev <=? k then walk_mono f e (b + 1) hi k else None
            | None => None
            end
          else None
        else None
  end.

(** Mantissas of the accepted inputs at exponent [e]. *)
Definition first_mant (e : Z) : Z := if e =? e1 then m1 else 2 ^ 23.
Definition last_mant (e : Z) : Z := if e =? e2 then m2 else 2 ^ 24 - 1.

(** The exponents [e], [e + 1], ... in turn. *)
Fixpoint sweep (fuel n : nat) (e prev : Z) : option Z :=
  match n with
  | O => Some prev
  | S k =>
      match walk_mono fuel e (first_mant e) (last_mant e) prev with
      | Some last => sweep fuel k (e + 1) last
      | None => None
      end
  end.

(** Raw values over the mantissas [lo..hi] at exponent [e]: all defined,
    between [prev] and [last], and in the order of the mantissas. *)
Definition ordered_on (e lo hi prev last : Z) : Prop :=
  prev <= last /\
  (forall m, lo <= m <= hi ->
             exists k, F32.trunc (quotient off sc (fin m e)) = Some k /\ prev <= k <= last) /\
  (forall m m' k k', lo <= m -> m <= m' -> m' <= hi ->
                     F32.trunc (quotient off sc (fin m e)) = Some k ->
                     F32.trunc (quotient off sc (fin m' e)) = Some k' -> k <= k').

(** Raw values over the exponents [e..e + n - 1]: all defined, between
    [prev] and [last], and in the order of the floats. *)
Definition ordered_over (n : nat) (e prev last : Z) : Prop :=
  prev <= last /\
  (forall e' m, e <= e' < e + Z.of_nat n ->
                first_mant e' <= m <= last_mant e' ->
                exists k, F32.trunc (quotient off sc (fin m e')) = Some k /\
                          prev <= k <= last) /\
  (forall e' m e'' m' k k',
      e <= e' -> e'' < e + Z.of_nat n ->
      first_mant e' <= m <= last_mant e' ->
      first_mant e'' <= m' <= last_mant e'' ->
      e' < e'' \/ (e' = e'' /\ m <= m') ->
      F32.trunc (quotient off sc (fin m e')) = Some k ->
      F32.trunc (quotient off sc (fin m' e'')) = Some k' -> k <= k').

End Sweep.

(** The sweep over all accepted inputs of a setting, from its minimum to its
    maximum. *)
Definition check_monotone (s : LinearSetting) : bool :=
  match minValue s, maxValue s with
  | S754_finite false m1 e1, S754_finite false m2 e2 =>
      (2 ^ 23 <=? Zpos m1) && (Zpos m2 <? 2 ^ 24) && (-149 <? e1) &&
      match sweep (offset s) (scale s) (rawMax (lin_field s)) (tolerance s)
                  (Zpos m1) e1 (Zpos m2) e2 4000 (Z.to_nat (e2 - e1 + 1)) e1 0 with
      | Some _ => true
      | None => false
      end
  | _, _ => false
  end.

(** Raw values of the smallest and of the largest accepted input. *)
Definition lowest_raw (s : LinearSetting) : Z :=
  match s with
  | MinSystemV => 0
  | ChargeLimitV => 300
  | ChargeLimitA => 5
  | InputLimitV => 36
  | InputLimitA => 10
  | PrechargeLimitA => 1
  | TerminationA => 1
  | RechargeThreshOffsetV => 0
  | OTGV => 0
  | OTGLimitA => 4
  end.

Definition highest_raw (s : LinearSetting) : Z :=
  match s with
  | MinSystemV => 54
  | ChargeLimitV => 1880
  | ChargeLimitA => 500
  | InputLimitV => 220
  | InputLimitA => 330
  | PrechargeLimitA => 50
  | TerminationA => 25
  | RechargeThreshOffsetV => 15
  | OTGV => 1920
  | OTGLimitA => 84
  end.

(** ** Vocabulary of readings and of writing them back *)

(** Decimal offset of each setting. *)
Definition origin (s : LinearSetting) : Q :=
  match s with
  | MinSystemV => 25 # 10
  | RechargeThreshOffsetV => 5 # 100
  | OTGV => 28 # 10
  | _ => 0
  end.

(** Smallest raw value whose reading the setter of the same setting
    accepts; the largest such is [highest_raw]. *)
Definition lowest_reread (s : LinearSetting) : Z :=
  match s with
  | MinSystemV => 0
  | ChargeLimitV => 300
  | ChargeLimitA => 6
  | InputLimitV => 36
  | InputLimitA => 11
  | PrechargeLimitA => 1
  | TerminationA => 1
  | RechargeThreshOffsetV => 0
  | OTGV => 0
  | OTGLimitA => 4
  end.

(** The settings whose readings are converted back to the raw value they
    came from. *)
Definition rereads_exactly (s : LinearSetting) : bool :=
  match s with
  | MinSystemV | InputLimitV | RechargeThreshOffsetV => true
  | _ => false
  end.

(** Those of them for which this does not depend on the product of the
    getter being rounded before its offset is added: the minimal system
    voltage, whose steps are exact in binary32, and the input voltage limit,
    which has no offset. *)
Definition rereads_exactly_in_any_evaluation (s : LinearSetting) : bool :=
  match s with
  | MinSystemV | InputLimitV => true
  | _ => false
  end.

(** Whether the range check of a linear setter lets [x] through. *)
Definition in_range (s : LinearSetting) (x : float) : bool :=
  negb (F32.ltb x (minValue s) || F32.ltb (maxValue s) x).

(** A raw value whose reading is a case of lost precision: written back, it
    comes out one lower. *)
Definition drifting_raw (s : LinearSetting) : Z :=
  match s with
  | ChargeLimitV => 401
  | OTGV => 1
  | _ => 15
  end.

(** A responsive device whose registers all hold [v]. *)
Definition device_holding (v : Z) : Device := mkDevice (fun _ => v) true 0 [].

(** The hardware bit behind a plain flag. *)
Definition plain_bit (f : PlainFlag) (d : Device) : bool :=
  Z.testbit (regs d (field_addr (target (flag_call f true))))
            (bits_shift (target (flag_call f true))).

(** The binary32 literal of the decimal value offset + [k] steps: what a
    caller passes to ask for the [k]-th value of the grid. *)
Definition grid_value (s : LinearSetting) (k : Z) : float :=
  match s with
  | MinSystemV => F32.lit (250 + 25 * k) 100
  | ChargeLimitV => F32.lit k 100
  | ChargeLimitA => F32.lit k 100
  | InputLimitV => F32.lit k 10
  | InputLimitA => F32.lit k 100
  | PrechargeLimitA => F32.lit (4 * k) 100
  | TerminationA => F32.lit (4 * k) 100
  | RechargeThreshOffsetV => F32.lit (5 + 5 * k) 100
  | OTGV => F32.lit (280 + k) 100
  | OTGLimitA => F32.lit (4 * k) 100
  end.

(** The settings that store every requested grid value as asked. *)
Definition stores_grid_exactly (s : LinearSetting) : bool :=
  match s with
  | InputLimitV | RechargeThreshOffsetV | OTGV => false
  | _ => true
  end.

(** A grid value that is stored one step low. *)
Definition missed_grid (s : LinearSetting) : Z :=
  match s with
  | InputLimitV => 42
  | RechargeThreshOffsetV => 6
  | _ => 1
  end.

(** ** Sample inputs *)

(** Header constants for enumerations numbered from 0 that fill their field. *)
Definition sample_header : Header := mkHeader 3 3 3 1 3 3 3 3 7 3 1 1.

(** A responsive device whose registers all hold the pattern 0xA5. *)
Definition sample_device : Device := mkDevice (fun _ => 0xA5) true 0 [].

(** A responsive device whose registers are all ones. *)
Definition sample_device_ones : Device := mkDevice (fun _ => 0xFF) true 0 [].

(** A device that does not answer. *)
Definition sample_device_absent : Device := mkDevice (fun _ => 0) false 0xFFFFFFFF [].

(** A responsive device that identifies itself as the expected part. *)
Definition sample_device_identified : Device :=
  mkDevice (fun a => match a with BQ25798_REG_PART_INFORMATION => 0x19 | _ => 0 end)
           true 0 [].

(** One way of resolving the undefined conversions. *)
Definition sample_ub : float -> Z := fun _ => 0.

(** * Verification *)

(** ** The state monad *)

Lemma then_true {A : Type} (c : Dev A) (d : Device) :
  (_ <- c ;; ret true) d = (true, snd (c d)).
Proof. unfold bind, ret. destruct (c d); reflexivity. Qed.

(** ** The generic field accessor *)

Lemma set_reg_same a v f : set_reg a v f a = v.
Proof. unfold set_reg. destruct (RegAddr_eq_dec a a); congruence. Qed.

Lemma set_reg_other a b v f : a <> b -> set_reg a v f b = f b.
Proof. unfold set_reg. destruct (RegAddr_eq_dec a b); congruence. Qed.

Lemma testbit_ones_shifted n s i :
  0 <= n -> 0 <= s -> 0 <= i ->
  Z.testbit (Z.shiftl (Z.ones n) s) i = (s <=? i) && (i <? s + n).
Proof.
  intros Hn Hs Hi.
  rewrite Z.shiftl_spec by assumption.
  destruct (Z.leb_spec s i) as [Hle | Hlt]; simpl.
  - rewrite Z.testbit_ones_nonneg by lia.
    destruct (Z.ltb_spec (i - s) n), (Z.ltb_spec i (s + n)); lia || reflexivity.
  - apply Z.testbit_neg_r. lia.
Qed.

Lemma merge_field_outside t old x i :
  field_ok t -> 0 <= i -> ~ (bits_shift t <= i < bits_shift t + bits_count t) ->
  Z.testbit (merge_field t old x) i = Z.testbit old i.
Proof.
  intros (Hs & Hn & _) Hi Hout. unfold merge_field.
  rewrite Z.lor_spec, Z.land_spec, Z.lnot_spec by assumption.
  rewrite testbit_ones_shifted by assumption.
  rewrite Z.shiftl_spec by assumption.
  destruct (Z.leb_spec (bits_shift t) i) as [Hle | Hlt]; simpl.
  - destruct (Z.ltb_spec i (bits_shift t + bits_count t)) as [Hin | Hhi]; [lia |].
    rewrite Z.land_spec, Z.testbit_ones_nonneg by lia.
    destruct (Z.ltb_spec (i - bits_shift t) (bits_count t)); [lia |].
    simpl. now rewrite !andb_false_r, !andb_true_r, orb_false_r.
  - rewrite (Z.testbit_neg_r _ (i - bits_shift t)) by lia.
    now rewrite andb_true_r, orb_false_r.
Qed.

Lemma merge_field_inside t old x j :
  field_ok t -> 0 <= j < bits_count t ->
  Z.testbit (merge_field t old x) (bits_shift t + j) = Z.testbit x j.
Proof.
  intros (Hs & Hn & _) Hj. unfold merge_field.
  rewrite Z.lor_spec, Z.land_spec, Z.lnot_spec by lia.
  rewrite testbit_ones_shifted by lia.
  rewrite Z.shiftl_spec by lia.
  replace (bits_shift t + j - bits_shift t) with j by lia.
  rewrite Z.land_spec, Z.testbit_ones_nonneg by lia.
  destruct (Z.leb_spec (bits_shift t) (bits_shift t + j)); [| lia].
  destruct (Z.ltb_spec (bits_shift t + j) (bits_shift t + bits_count t)); [| lia].
  destruct (Z.ltb_spec j (bits_count t)); [| lia].
  simpl. now rewrite andb_false_r, andb_true_r.
Qed.

(** Register file after a field write. *)
Lemma RegisterBits_write_regs t x d :
  regs (snd (RegisterBits_write t x d)) =
  if acks d
  then set_reg (field_addr t)
               (merge_field t (regs d (field_addr t) mod 2 ^ width_bits t) x
                  mod 2 ^ width_bits t)
               (regs d)
  else regs d.
Proof.
  unfold RegisterBits_write, Register_read, Register_write, bind, merge_field,
    field_addr, width_bits, log; simpl.
  destruct (acks d); reflexivity.
Qed.

Lemma RegisterBits_write_acks t x d :
  acks (snd (RegisterBits_write t x d)) = acks d.
Proof.
  unfold RegisterBits_write, Register_read, Register_write, bind, log; simpl.
  destruct (acks d) eqn:E; simpl; congruence.
Qed.

Lemma RegisterBits_write_result t x d :
  fst (RegisterBits_write t x d) = acks d.
Proof.
  unfold RegisterBits_write, Register_read, Register_write, bind, log; simpl.
  destruct (acks d); reflexivity.
Qed.

(** The transactions of a field write: one read, then one write. *)
Lemma RegisterBits_write_trace t x d :
  trace (snd (RegisterBits_write t x d)) =
  BusWrite (field_addr t) (reg_width (bits_register t))
           (merge_field t ((if acks d then regs d (field_addr t) else nack_value d)
                             mod 2 ^ width_bits t) x mod 2 ^ width_bits t)
  :: BusRead (field_addr t) (reg_width (bits_register t)) :: trace d.
Proof.
  unfold RegisterBits_write, Register_read, Register_write, bind, merge_field,
    field_addr, width_bits, log; simpl.
  destruct (acks d); reflexivity.
Qed.

Lemma RegisterBits_read_value t d :
  acks d = true -> fst (RegisterBits_read t d) = field_of t (regs d).
Proof.
  intros H. unfold RegisterBits_read, Register_read, bind, ret, field_of,
    field_addr, width_bits; simpl. now rewrite H.
Qed.

Lemma field_of_merge t f v x :
  field_ok t ->
  field_of t (set_reg (field_addr t) (merge_field t v x mod 2 ^ width_bits t) f)
  = x mod 2 ^ bits_count t.
Proof.
  intros Hok. pose proof Hok as (Hs & Hn & Hfit).
  unfold field_of. rewrite set_reg_same.
  rewrite Z.mod_mod by (apply Z.pow_nonzero; unfold width_bits; lia).
  rewrite <- (Z.land_ones x) by assumption.
  apply Z.bits_inj'. intros j Hj.
  rewrite !Z.land_spec, Z.shiftr_spec by assumption.
  destruct (Z.ltb_spec j (bits_count t)) as [Hin | Hout].
  - rewrite Z.testbit_ones_nonneg, Z.mod_pow2_bits_low by (unfold width_bits; lia).
    replace (j + bits_shift t) with (bits_shift t + j) by lia.
    rewrite merge_field_inside by (auto; lia).
    destruct (Z.ltb_spec j (bits_count t)); [| lia].
    now rewrite andb_true_r.
  - rewrite Z.testbit_ones_nonneg by lia.
    destruct (Z.ltb_spec j (bits_count t)); [lia |].
    now rewrite !andb_false_r.
Qed.

(** Reading a field back after writing it, on a responsive device. *)
Lemma read_after_write t x d :
  field_ok t -> acks d = true ->
  fst (RegisterBits_read t (snd (RegisterBits_write t x d))) = x mod 2 ^ bits_count t.
Proof.
  intros Hok Ha.
  rewrite RegisterBits_read_value by (now rewrite RegisterBits_write_acks).
  rewrite RegisterBits_write_regs, Ha.
  now apply field_of_merge.
Qed.

Lemma frame_same_regs t d d' : regs d' = regs d -> frame t d d'.
Proof. intros E. split; intros; now rewrite E. Qed.

Lemma RegisterBits_write_frame t x d :
  field_ok t -> frame t d (snd (RegisterBits_write t x d)).
Proof.
  intros Hok. destruct (acks d) eqn:Ha.
  - split.
    + intros a Hne. rewrite RegisterBits_write_regs, Ha.
      apply set_reg_other. congruence.
    + intros i Hi Hout. rewrite RegisterBits_write_regs, Ha, set_reg_same.
      rewrite Z.mod_pow2_bits_low by lia.
      rewrite merge_field_outside by (auto; lia).
      apply Z.mod_pow2_bits_low. lia.
  - apply frame_same_regs. now rewrite RegisterBits_write_regs, Ha.
Qed.

Lemma Register_write_regs r v d :
  regs (snd (Register_write r v d)) =
  if acks d then set_reg (reg_addr r) (v mod 2 ^ (8 * reg_width r)) (regs d) else regs d.
Proof. unfold Register_write, log. destruct (acks d); reflexivity. Qed.

Lemma Register_write_frame t v d :
  bits_shift t = 0 -> bits_count t = width_bits t ->
  frame t d (snd (Register_write (bits_register t) v d)).
Proof.
  intros Hs Hn. split.
  - intros a Hne. rewrite Register_write_regs.
    destruct (acks d); [apply set_reg_other; unfold field_addr in Hne; congruence | reflexivity].
  - intros i Hi Hout. lia.
Qed.
Create HintDb setters.

#[local] Hint Unfold
  setMinSystemV setChargeLimitV setChargeLimitA setInputLimitV setInputLimitA
  setVBatLowV setPrechargeLimitA setStopOnWDT setTerminationA setCellCount
  setRechargeDeglitchTime setRechargeThreshOffsetV setOTGV setPrechargeTimer setOTGLimitA
  setTopOffTimer setTrickleChargeTimerEnable setPrechargeTimerEnable setFastChargeTimerEnable setFastChargeTimer
  setTimerHalfRateEnable setAutoOVPBattDischarge setForceBattDischarge setChargeEnable setICOEnable
  setForceICO setHIZMode setTerminationEnable setBackupModeEnable setBackupModeThresh
  setVACOVP resetWDT setWDT setForceDPinsDetection setAutoDPinsDetection
  setHVDCP12VEnable setHVDCP9VEnable setHVDCPEnable setShipFETmode setShipFET10sDelay
  setACenable setOTGenable setOTGPFM setForwardPFM setShipWakeupDelay
  setBATFETLDOprecharge setOTGOOA setForwardOOA setACDRV2enable setACDRV1enable
  setPWMFrequency setStatPinEnable setVSYSshortProtect setVOTG_UVPProtect setVINDPMdetection
  setIBUS_OCPenable setShipFETpresent setBatDischargeSenseEnable setBatDischargeA setIINDPMenable
  setExtILIMpin setBatDischargeOCPenable setVINDPM_VOCpercent setVOCdelay setVOCrate
  setMPPTenable setThermRegulationThresh setThermShutdownThresh setVBUSpulldown setVAC1pulldown
  setVAC2pulldown setBackupACFET1on reset
  : setters.

(** ** Shape of the mutators *)

Lemma target_ok (c : Call) : field_ok (target c).
Proof. destruct c; unfold field_ok; simpl; lia. Qed.

(** A call either rejects its argument and touches nothing, or performs
    exactly one write of its field and reports success.  The input voltage
    limit occupies its whole register and is written as a register. *)
Lemma run_shape hdr ub c d :
  run hdr ub c d = (false, d) \/
  (exists x, run hdr ub c d = (true, snd (RegisterBits_write (target c) x d))) \/
  (exists v x, c = call_setInputLimitV v /\
               run hdr ub c d = (true, snd (Register_write (bits_register (target c)) x d))).
Proof.
  destruct c; unfold run; autounfold with setters; cbv zeta;
    try match goal with
        | |- context [if ?g then ret false else _] => destruct g
        end;
    first
      [ left; reflexivity
      | right; left; eexists; apply then_true
      | right; right; do 2 eexists; split; [reflexivity | apply then_true] ].
Qed.

(** C4: every setter, from every starting register contents, leaves alone
    all registers but the one it addresses and, in that one, every bit
    outside the offset and width of its field. *)
Theorem C4_field_write_keeps_other_bits (hdr : Header) (ub : float -> Z)
    (c : Call) (d : Device) :
  frame (target c) d (snd (run hdr ub c d)).
Proof.
  destruct (run_shape hdr ub c d) as [E | [[x E] | (v & x & -> & E)]];
    rewrite E; simpl.
  - now apply frame_same_regs.
  - apply RegisterBits_write_frame, target_ok.
  - now apply Register_write_frame.
Qed.

(** ** Inverted-logic flags *)

Lemma inv_call_run hdr ub f enable d :
  run hdr ub (inv_call f enable) d =
  (true, snd (RegisterBits_write (target (inv_call f true))
                                 (if enable then 0 else 1) d)).
Proof. destruct f; apply then_true. Qed.

Lemma inv_get_run f d :
  acks d = true ->
  fst (inv_get f d) = (field_of (target (inv_call f true)) (regs d) =? 0).
Proof.
  intros Ha.
  destruct f; unfold inv_get;
    match goal with |- fst (?g d) = _ => unfold g end;
    cbv zeta; unfold bind, ret;
    match goal with
    | |- context [RegisterBits_read ?t d] =>
        pose proof (RegisterBits_read_value t d Ha) as E;
        destruct (RegisterBits_read t d) as [v d']; simpl in E |- *;
        now rewrite E
    end.
Qed.

(** A one-bit field holds the bit at its offset. *)
Lemma field_of_one_bit t f :
  field_ok t -> bits_count t = 1 ->
  field_of t f = if Z.testbit (f (field_addr t)) (bits_shift t) then 1 else 0.
Proof.
  intros (Hs & Hn & Hfit) H1. unfold field_of. rewrite H1.
  rewrite Z.land_ones by lia. change (2 ^ 1) with 2.
  rewrite Zmod_odd, <- Z.bit0_odd, Z.shiftr_spec by lia.
  rewrite Z.add_0_l.
  now rewrite Z.mod_pow2_bits_low by (unfold width_bits; lia).
Qed.

Lemma physical_bit_after_write f x d :
  acks d = true ->
  physical_bit f (snd (RegisterBits_write (target (inv_call f true)) x d)) = Z.odd x.
Proof.
  intros Ha. unfold physical_bit.
  rewrite RegisterBits_write_regs, Ha, set_reg_same.
  pose proof (target_ok (inv_call f true)) as Hok.
  assert (H1 : bits_count (target (inv_call f true)) = 1) by (destruct f; reflexivity).
  pose proof Hok as (Hs & Hn & Hfit).
  rewrite Z.mod_pow2_bits_low by (unfold width_bits; lia).
  pose proof (merge_field_inside (target (inv_call f true))
                (regs d (field_addr (target (inv_call f true)))
                   mod 2 ^ width_bits (target (inv_call f true))) x 0 Hok) as E.
  rewrite Z.add_0_r in E. rewrite E by lia.
  apply Z.bit0_odd.
Qed.

(** C6: for every inverted-logic flag on a responsive device, enabling
    clears the hardware bit, disabling sets it, the getter answers [true]
    exactly when the hardware bit is 0, and so the getter gives back what
    the setter was given. *)
Theorem C6_inverted_flags_expose_logical_sense (hdr : Header) (ub : float -> Z)
    (f : InvertedFlag) (d : Device) :
  acks d = true ->
  physical_bit f (snd (run hdr ub (inv_call f true) d)) = false /\
  physical_bit f (snd (run hdr ub (inv_call f false) d)) = true /\
  fst (inv_get f d) = negb (physical_bit f d) /\
  forall enable : bool,
    fst (run hdr ub (inv_call f enable) d) = true /\
    fst (inv_get f (snd (run hdr ub (inv_call f enable) d))) = enable.
Proof.
  intros Ha.
  assert (Hget : forall d0, acks d0 = true ->
                            fst (inv_get f d0) = negb (physical_bit f d0)).
  { intros d0 Ha0. rewrite inv_get_run by assumption.
    rewrite field_of_one_bit by (apply target_ok || (destruct f; reflexivity)).
    unfold physical_bit.
    now destruct (Z.testbit _ _). }
  repeat split.
  - rewrite inv_call_run; simpl. now rewrite physical_bit_after_write.
  - rewrite inv_call_run; simpl. now rewrite physical_bit_after_write.
  - now apply Hget.
  - now rewrite inv_call_run.
  - rewrite inv_call_run; simpl.
    rewrite Hget by (now rewrite RegisterBits_write_acks).
    rewrite physical_bit_after_write by assumption.
    now destruct enable.
Qed.

(** ** Reset and initialisation *)

Lemma part_number_check (v : Z) :
  (Z.land (uint8_t v) 0x38 =? 0x18) = (part_number v =? 3).
Proof.
  assert (E : Z.land (uint8_t v) 0x38 = Z.shiftl (part_number v) 3).
  { unfold uint8_t, part_number. apply Z.bits_inj'. intros i Hi.
    change 0x38 with (Z.shiftl (Z.ones 3) 3).
    rewrite Z.land_spec, testbit_ones_shifted by lia.
    rewrite Z.shiftl_spec by lia.
    destruct (Z.leb_spec 3 i) as [Hle | Hlt].
    - rewrite Z.land_spec, Z.shiftr_spec by lia.
      change 7 with (Z.ones 3). rewrite Z.testbit_ones_nonneg by lia.
      replace (i - 3 + 3) with i by lia.
      destruct (Z.ltb_spec i (3 + 3)), (Z.ltb_spec (i - 3) 3); try lia.
      now rewrite Z.mod_pow2_bits_low by lia.
    - rewrite andb_false_l, andb_false_r. symmetry. apply Z.testbit_neg_r. lia. }
  rewrite E, Z.shiftl_mul_pow2 by lia. change (2 ^ 3) with 8.
  destruct (Z.eqb_spec (part_number v * 8) 0x18), (Z.eqb_spec (part_number v) 3);
    lia || reflexivity.
Qed.

Lemma part_number_uint8 (v : Z) : part_number (v mod 2 ^ 8) = part_number v.
Proof.
  unfold part_number. apply Z.bits_inj'. intros i Hi.
  rewrite !Z.land_spec, !Z.shiftr_spec by lia.
  change 7 with (Z.ones 3). rewrite Z.testbit_ones_nonneg by lia.
  destruct (Z.ltb_spec i 3).
  - now rewrite Z.mod_pow2_bits_low by lia.
  - now rewrite !andb_false_r.
Qed.

(** C9: [reset] attempts one read-modify-write of the termination-control
    register whose written word has bit 6, the register-reset bit, set; it
    reports success for every device, whether the device acknowledged (the
    bit is then set, the other bits kept) or not (nothing is stored). *)
Theorem C9_reset_always_reports_success (d : Device) :
  fst (reset d) = true /\
  (exists v,
      trace (snd (reset d)) =
        BusWrite BQ25798_REG_TERMINATION_CONTROL 1 v
        :: BusRead BQ25798_REG_TERMINATION_CONTROL 1 :: trace d /\
      Z.testbit v 6 = true) /\
  (acks d = true ->
      Z.testbit (regs (snd (reset d)) BQ25798_REG_TERMINATION_CONTROL) 6 = true) /\
  (acks d = false -> regs (snd (reset d)) = regs d) /\
  frame (target call_reset) d (snd (reset d)).
Proof.
  unfold reset; cbv zeta. rewrite then_true; simpl.
  set (t := Adafruit_BusIO_RegisterBits _ 1 6).
  assert (Hok : field_ok t) by (unfold field_ok; simpl; lia).
  assert (Hbit : forall old, Z.testbit (merge_field t old 1 mod 2 ^ width_bits t) 6 = true).
  { intros old. rewrite Z.mod_pow2_bits_low by (unfold width_bits; simpl; lia).
    exact (merge_field_inside t old 1 0 Hok ltac:(simpl; lia)). }
  repeat split.
  - eexists. split; [apply RegisterBits_write_trace | apply Hbit].
  - intros Ha. rewrite RegisterBits_write_regs, Ha.
    change (field_addr t) with BQ25798_REG_TERMINATION_CONTROL.
    rewrite set_reg_same. apply Hbit.
  - intros Ha. now rewrite RegisterBits_write_regs, Ha.
  - apply (RegisterBits_write_frame t 1 d Hok).
  - apply (RegisterBits_write_frame t 1 d Hok).
Qed.

(** C5: [begin] fails when the bus session cannot be opened, and fails when
    the part-number sub-field is not 011b; in that second case the only
    transactions are the probe and the identity read, so nothing is reset
    and nothing is written.  Otherwise it performs [reset] and succeeds:
    after the probe and the identity read it issues the read-modify-write
    of the termination-control register, the word written has bit 6, the
    register-reset bit, set, and the device has stored that bit. *)
Theorem C5_begin_checks_identity_then_resets (d : Device) :
  (acks d = false -> begin d = (false, log BusProbe d)) /\
  (acks d = true -> part_number (regs d BQ25798_REG_PART_INFORMATION) <> 3 ->
     begin d = (false, log (BusRead BQ25798_REG_PART_INFORMATION 1) (log BusProbe d))) /\
  (acks d = true -> part_number (regs d BQ25798_REG_PART_INFORMATION) = 3 ->
     begin d = (true, snd (reset (log (BusRead BQ25798_REG_PART_INFORMATION 1)
                                      (log BusProbe d)))) /\
     (exists v,
         trace (snd (begin d)) =
           BusWrite BQ25798_REG_TERMINATION_CONTROL 1 v
           :: BusRead BQ25798_REG_TERMINATION_CONTROL 1
           :: BusRead BQ25798_REG_PART_INFORMATION 1 :: BusProbe :: trace d /\
         Z.testbit v 6 = true) /\
     Z.testbit (regs (snd (begin d)) BQ25798_REG_TERMINATION_CONTROL) 6 = true).
Proof.
  assert (Hopen : begin d =
                  if acks d
                  then let d1 := log (BusRead BQ25798_REG_PART_INFORMATION 1) (log BusProbe d) in
                       if part_number (regs d BQ25798_REG_PART_INFORMATION) =? 3
                       then (true, snd (reset d1)) else (false, d1)
                  else (false, log BusProbe d)).
  { unfold begin; cbv zeta.
    unfold bind at 1. unfold I2CDevice_begin at 1.
    destruct (acks d) eqn:Ha; cbn [negb]; [| reflexivity].
    unfold bind at 1. unfold Register_read at 1. cbn [reg_width reg_addr].
    change (acks (log BusProbe d)) with (acks d).
    change (regs (log BusProbe d)) with (regs d).
    rewrite Ha, part_number_check, part_number_uint8.
    destruct (part_number (regs d BQ25798_REG_PART_INFORMATION) =? 3); cbn [negb];
      [apply then_true | reflexivity]. }
  rewrite Hopen. split; [| split]; intros Ha; try intros Hp; rewrite Ha.
  - reflexivity.
  - destruct (Z.eqb_spec (part_number (regs d BQ25798_REG_PART_INFORMATION)) 3);
      [contradiction | reflexivity].
  - rewrite Hp. cbv zeta. cbn [Z.eqb Pos.eqb snd].
    set (d1 := log (BusRead BQ25798_REG_PART_INFORMATION 1) (log BusProbe d)).
    split; [reflexivity |].
    unfold reset; cbv zeta. rewrite then_true. cbn [snd].
    set (t := Adafruit_BusIO_RegisterBits _ 1 6).
    assert (Hok : field_ok t) by (unfold field_ok; simpl; lia).
    assert (Hbit : forall old,
               Z.testbit (merge_field t old 1 mod 2 ^ width_bits t) 6 = true).
    { intros old. rewrite Z.mod_pow2_bits_low by (unfold width_bits; simpl; lia).
      exact (merge_field_inside t old 1 0 Hok ltac:(simpl; lia)). }
    split.
    + eexists. split; [apply RegisterBits_write_trace | apply Hbit].
    + rewrite RegisterBits_write_regs.
      change (acks d1) with (acks d). rewrite Ha.
      change (field_addr t) with BQ25798_REG_TERMINATION_CONTROL.
      rewrite set_reg_same. apply Hbit.
Qed.

(** ** Enumerated settings *)

Lemma enum_run hdr ub e o d :
  run hdr ub (enum_call e o) d =
  match enum_guard hdr e with
  | Some m =>
      if o >? m then (false, d)
      else (true, snd (RegisterBits_write (target (enum_call e o)) (uint8_t o) d))
  | None => (true, snd (RegisterBits_write (target (enum_call e o)) (uint8_t o) d))
  end.
Proof.
  destruct e; unfold enum_call, enum_guard, run; autounfold with setters; cbv zeta;
    try match goal with
        | |- context [if ?g then ret false else _] => destruct g
        end;
    reflexivity || apply then_true.
Qed.

Lemma enum_get_run e o d :
  acks d = true ->
  fst (enum_get e d) = field_of (target (enum_call e o)) (regs d).
Proof.
  intros Ha.
  assert (Hsmall : forall t, field_ok t -> bits_count t <= 8 ->
                             uint8_t (field_of t (regs d)) = field_of t (regs d)).
  { intros t (Hs & Hn & _) H8. unfold uint8_t, field_of.
    rewrite Z.land_ones by assumption. apply Z.mod_small.
    pose proof (Z.mod_pos_bound (Z.shiftr (regs d (field_addr t) mod 2 ^ width_bits t)
                                   (bits_shift t)) (2 ^ bits_count t)
                  ltac:(apply Z.pow_pos_nonneg; lia)).
    assert (2 ^ bits_count t <= 2 ^ 8) by (apply Z.pow_le_mono_r; lia).
    lia. }
  destruct e; unfold enum_get;
    match goal with |- fst (?g d) = _ => unfold g end;
    cbv zeta; unfold bind, ret;
    match goal with
    | |- context [RegisterBits_read ?t d] =>
        pose proof (RegisterBits_read_value t d Ha) as E;
        destruct (RegisterBits_read t d) as [v d']; simpl in E |- *;
        rewrite E
    end;
    reflexivity || (apply Hsmall; [unfold field_ok; simpl; lia | simpl; lia]).
Qed.

(** X7: the setters that carry a guard reject every ordinal above the
    enumerator they compare with, touching nothing, and write every other
    ordinal unscaled; what is read back is the ordinal itself as long as the
    largest enumerator fits the field. *)
Lemma guarded_enum_setters_validate hdr ub e m o d :
  enum_guard hdr e = Some m ->
  (m < o -> run hdr ub (enum_call e o) d = (false, d)) /\
  (0 <= o <= m -> m < 2 ^ bits_count (target (enum_call e o)) -> acks d = true ->
     fst (run hdr ub (enum_call e o) d) = true /\
     fst (enum_get e (snd (run hdr ub (enum_call e o) d))) = o).
Proof.
  intros Hg. rewrite enum_run, Hg. split.
  - intros Hlt. destruct (Z.gtb_spec o m); [reflexivity | lia].
  - intros Ho Hm Ha. destruct (Z.gtb_spec o m); [lia |]. split; [reflexivity |].
    cbn [snd].
    rewrite (enum_get_run e o) by (now rewrite RegisterBits_write_acks).
    rewrite RegisterBits_write_regs, Ha, field_of_merge by apply target_ok.
    assert (H8 : bits_count (target (enum_call e o)) <= 8) by (destruct e; simpl; lia).
    assert (2 ^ bits_count (target (enum_call e o)) <= 2 ^ 8)
      by (apply Z.pow_le_mono_r; lia).
    unfold uint8_t. rewrite (Z.mod_small o (2 ^ 8)) by lia.
    apply Z.mod_small. lia.
Qed.

(** C3, at the setters without a guard: whatever the ordinal, the call
    reports success and performs the field write; on a responsive device
    the field then holds the ordinal reduced to the width of the field. *)
Theorem C3_unguarded_enum_setters_accept_every_ordinal (hdr : Header)
    (ub : float -> Z) (e : EnumSetting) (o : Z) (d : Device) :
  enum_guard hdr e = None ->
  run hdr ub (enum_call e o) d =
    (true, snd (RegisterBits_write (target (enum_call e o)) (uint8_t o) d)) /\
  (acks d = true ->
   fst (enum_get e (snd (run hdr ub (enum_call e o) d))) =
     uint8_t o mod 2 ^ bits_count (target (enum_call e o))).
Proof.
  intros Hg. rewrite enum_run, Hg. split; [reflexivity |].
  intros Ha. cbn [snd].
  rewrite (enum_get_run e o) by (now rewrite RegisterBits_write_acks).
  now rewrite RegisterBits_write_regs, Ha, field_of_merge by apply target_ok.
Qed.

(** ** Linear-scaled settings *)

(** Every linear setter is the range check followed by the write of
    [encode]; every linear getter is [decode] of the field. *)
Lemma lin_run hdr ub s x d :
  run hdr ub (lin_call s x) d =
  if F32.ltb x (minValue s) || F32.ltb (maxValue s) x then (false, d)
  else (true, snd (write_field (lin_call s x) (encode ub s x) d)).
Proof.
  destruct s; unfold lin_call, run; autounfold with setters; cbv zeta;
    unfold minValue, maxValue;
    match goal with
    | |- context [if ?g then ret false else _] => destruct g
    end;
    reflexivity || apply then_true.
Qed.

(** The literals of the scale factors as binary32 numbers: only 0.25 is
    exact, the others are the nearest neighbours of the decimal fractions. *)
Example literal_0_25 : F32.lit 25 100 = S754_finite false 8388608 (-25).
Proof. reflexivity. Qed.

Example literal_0_1 : F32.lit 1 10 = S754_finite false 13421773 (-27).
Proof. reflexivity. Qed.

Example literal_0_05 : F32.lit 5 100 = S754_finite false 13421773 (-28).
Proof. reflexivity. Qed.

Example literal_0_04 : F32.lit 4 100 = S754_finite false 10737418 (-28).
Proof. reflexivity. Qed.

Example literal_0_01 : F32.lit 1 100 = S754_finite false 10737418 (-30).
Proof. reflexivity. Qed.

Lemma field_of_bound t f : field_ok t -> 0 <= field_of t f <= rawMax t.
Proof.
  intros (Hs & Hn & _). unfold field_of, rawMax.
  rewrite Z.land_ones by assumption.
  pose proof (Z.mod_pos_bound (Z.shiftr (f (field_addr t) mod 2 ^ width_bits t)
                                 (bits_shift t)) (2 ^ bits_count t)
                ltac:(apply Z.pow_pos_nonneg; lia)).
  lia.
Qed.

Lemma Register_read_value r d :
  acks d = true -> fst (Register_read r d) = regs d (reg_addr r) mod 2 ^ (8 * reg_width r).
Proof. intros Ha. unfold Register_read. simpl. now rewrite Ha. Qed.

Lemma field_of_whole t f :
  bits_shift t = 0 -> bits_count t = width_bits t -> 0 <= width_bits t ->
  field_of t f = f (field_addr t) mod 2 ^ width_bits t.
Proof.
  intros Hs Hn Hw. unfold field_of. rewrite Hs, Hn, Z.shiftr_0_r.
  rewrite Z.land_ones by assumption.
  apply Z.mod_mod. apply Z.pow_nonzero; lia.
Qed.

Lemma lin_target s x : target (lin_call s x) = lin_field s.
Proof. now destruct s. Qed.

Lemma lin_get_run s d :
  acks d = true ->
  fst (lin_get s d) = decode s (field_of (lin_field s) (regs d)).
Proof.
  intros Ha.
  assert (Hcast : forall t w, field_ok t -> bits_count t <= w ->
                              field_of t (regs d) mod 2 ^ w = field_of t (regs d)).
  { intros t w Hok Hw. pose proof (field_of_bound t (regs d) Hok) as Hb.
    unfold rawMax in Hb. destruct Hok as (_ & Hn & _).
    assert (2 ^ bits_count t <= 2 ^ w) by (apply Z.pow_le_mono_r; lia).
    apply Z.mod_small. lia. }
  destruct s; unfold lin_get;
    match goal with |- fst (?g d) = _ => unfold g end;
    cbv zeta; unfold bind, ret, decode, offset, scale, lin_field, lin_call, target;
    match goal with
    | |- context [RegisterBits_read ?t d] =>
        pose proof (RegisterBits_read_value t d Ha) as E;
        destruct (RegisterBits_read t d) as [v d']; cbn [fst] in E |- *;
        rewrite E; unfold uint8_t, uint16_t;
        rewrite Hcast by (unfold field_ok; simpl; lia); reflexivity
    | |- context [Register_read ?r d] =>
        pose proof (Register_read_value r d Ha) as E;
        destruct (Register_read r d) as [v d']; cbn [fst] in E |- *;
        rewrite E, field_of_whole by (unfold width_bits; simpl; lia || reflexivity);
        unfold uint8_t; cbn [reg_width reg_addr bits_register field_addr width_bits];
        rewrite Z.mod_mod by lia; reflexivity
    end.
Qed.

Lemma float_to_uint_range ub bits x :
  0 <= bits -> 0 <= float_to_uint ub bits x < 2 ^ bits.
Proof.
  intros Hb. unfold float_to_uint.
  assert (Hm : 0 <= ub x mod 2 ^ bits < 2 ^ bits)
    by (apply Z.mod_pos_bound, Z.pow_pos_nonneg; lia).
  destruct (F32.trunc x) as [z |]; [| exact Hm].
  destruct (Z.leb_spec 0 z), (Z.ltb_spec z (2 ^ bits)); simpl; lia.
Qed.

(** The clamp: whatever the conversion yields, the raw value fits the field. *)
Lemma encode_range ub s x : 0 <= encode ub s x <= rawMax (lin_field s).
Proof.
  unfold encode.
  pose proof (float_to_uint_range ub (raw_type_bits s)
                (F32.div match offset s with Some o => F32.sub x o | None => x end (scale s))
                ltac:(destruct s; simpl; lia)) as Hr.
  assert (0 <= rawMax (lin_field s)) by (destruct s; unfold rawMax; simpl; lia).
  destruct (Z.gtb_spec (float_to_uint ub (raw_type_bits s)
                          (F32.div match offset s with Some o => F32.sub x o | None => x end (scale s)))
              (rawMax (lin_field s))); lia.
Qed.

Lemma write_field_trace c x d :
  exists v, trace (snd (write_field c x d)) =
            BusWrite (field_addr (target c)) (reg_width (bits_register (target c))) v
            :: match c with
               | call_setInputLimitV _ => trace d
               | _ => BusRead (field_addr (target c))
                        (reg_width (bits_register (target c))) :: trace d
               end.
Proof.
  destruct c; unfold write_field;
    try (eexists; apply RegisterBits_write_trace).
  unfold Register_write, log. destruct (acks d); eexists; reflexivity.
Qed.

Lemma write_field_regs c x d :
  field_ok (target c) -> acks d = true ->
  field_of (target c) (regs (snd (write_field c x d))) = x mod 2 ^ bits_count (target c).
Proof.
  intros Hok Ha.
  destruct c; unfold write_field;
    try (rewrite RegisterBits_write_regs, Ha; now apply field_of_merge).
  rewrite Register_write_regs, Ha.
  rewrite field_of_whole by (unfold width_bits; simpl; lia || reflexivity).
  unfold field_addr. now rewrite set_reg_same, Z.mod_mod by (simpl; lia).
Qed.

Lemma write_field_acks c x d : acks (snd (write_field c x d)) = acks d.
Proof.
  destruct c; unfold write_field; try apply RegisterBits_write_acks.
  unfold Register_write, log. destruct (acks d) eqn:E; simpl; congruence.
Qed.

(** C1: a linear setter given an input strictly below its minimum or
    strictly above its maximum returns [false] and leaves the device as it
    was, without a single bus transaction; given exactly its minimum or its
    maximum it returns [true] and its last transaction is the write of its
    register. *)
Theorem C1_linear_setters_validate_range (hdr : Header) (ub : float -> Z)
    (s : LinearSetting) (d : Device) :
  (forall x, F32.ltb x (minValue s) = true \/ F32.ltb (maxValue s) x = true ->
             run hdr ub (lin_call s x) d = (false, d)) /\
  (forall x, x = minValue s \/ x = maxValue s ->
             fst (run hdr ub (lin_call s x) d) = true /\
             exists v rest,
               trace (snd (run hdr ub (lin_call s x) d)) =
               BusWrite (field_addr (target (lin_call s x)))
                        (reg_width (bits_register (target (lin_call s x)))) v :: rest).
Proof.
  split; intros x Hx; rewrite lin_run.
  - destruct Hx as [-> | ->]; [reflexivity | now rewrite orb_true_r].
  - assert (Hin : F32.ltb x (minValue s) || F32.ltb (maxValue s) x = false)
      by (destruct Hx as [-> | ->]; destruct s; vm_compute; reflexivity).
    rewrite Hin. split; [reflexivity |]. cbn [snd].
    destruct (write_field_trace (lin_call s x) (encode ub s x) d) as [v Hv].
    rewrite Hv. eauto.
Qed.

(** The range check is written with [<] and [>], both false on a NaN: a NaN
    is neither below the minimum nor above the maximum and passes. *)
Remark nan_passes_range_check (hdr : Header) (ub : float -> Z)
    (s : LinearSetting) (d : Device) :
  fst (run hdr ub (lin_call s S754_nan) d) = true.
Proof. rewrite lin_run. destruct s; reflexivity. Qed.

Lemma all_below_spec n P :
  all_below n P = true -> forall z, 0 <= z < Z.of_nat n -> P z = true.
Proof.
  induction n as [| k IH]; intros H z Hz; [lia |].
  cbn [all_below] in H. apply andb_true_iff in H as [Hk Hrest].
  destruct (Z.eq_dec z (Z.of_nat k)) as [-> | Hne]; [assumption |].
  apply IH; [assumption | lia].
Qed.

Lemma RegisterBits_write_masked t x d :
  0 <= bits_count t ->
  RegisterBits_write t (x mod 2 ^ bits_count t) d = RegisterBits_write t x d.
Proof.
  intros Hn. unfold RegisterBits_write, bind.
  destruct (Register_read (bits_register t) d) as [val d'].
  rewrite <- !Z.land_ones by assumption.
  now rewrite <- Z.land_assoc, Z.land_diag.
Qed.

Lemma call_linear_dec (c : Call) :
  {sv : LinearSetting * float | c = lin_call (fst sv) (snd sv)} +
  {forall s v, c <> lin_call s v}.
Proof.
  destruct c;
    try (right; intros s v; destruct s; discriminate).
  - left. now exists (MinSystemV, x).
  - left. now exists (ChargeLimitV, x).
  - left. now exists (ChargeLimitA, x).
  - left. now exists (InputLimitV, x).
  - left. now exists (InputLimitA, x).
  - left. now exists (PrechargeLimitA, x).
  - left. now exists (TerminationA, x).
  - left. now exists (RechargeThreshOffsetV, x).
  - left. now exists (OTGV, x).
  - left. now exists (OTGLimitA, x).
Qed.

Lemma lin_call_inj s1 v1 s2 v2 :
  lin_call s1 v1 = lin_call s2 v2 -> s1 = s2 /\ v1 = v2.
Proof. destruct s1, s2; simpl; intros E; try discriminate; now inversion E. Qed.

(** C8: whenever a setter accepts its input, what it does is one write of
    its field with a raw value between 0 and [2 ^ bitWidth - 1]; on a
    responsive device that value is what the field holds afterwards.  For a
    linear-scaled setter the value is the clamped conversion [encode], for
    which the clamp alone secures the bound. *)
Theorem C8_raw_value_fits_field (hdr : Header) (ub : float -> Z)
    (c : Call) (d : Device) :
  fst (run hdr ub c d) = true ->
  exists x,
    0 <= x <= rawMax (target c) /\
    snd (run hdr ub c d) = snd (write_field c x d) /\
    (acks d = true -> field_of (target c) (regs (snd (run hdr ub c d))) = x) /\
    (forall s v, c = lin_call s v -> x = encode ub s v).
Proof.
  intros Hacc.
  enough (exists x, 0 <= x <= rawMax (target c) /\
                    snd (run hdr ub c d) = snd (write_field c x d) /\
                    (forall s v, c = lin_call s v -> x = encode ub s v))
    as (x & Hx & E & Hl).
  { exists x. repeat split; try lia; try assumption.
    intros Ha. rewrite E, write_field_regs by (apply target_ok || assumption).
    apply Z.mod_small. unfold rawMax in Hx. lia. }
  destruct (call_linear_dec c) as [[[s v] ->] | Hnl].
  - cbn [fst snd] in *. rewrite lin_run in Hacc |- *.
    destruct (F32.ltb v (minValue s) || F32.ltb (maxValue s) v); [discriminate |].
    exists (encode ub s v). split; [| split].
    + rewrite lin_target. apply encode_range.
    + reflexivity.
    + intros s' v' E. apply lin_call_inj in E as [<- <-]. reflexivity.
  - assert (Hw : forall x, write_field c x = RegisterBits_write (target c) x).
    { intros x. destruct c; try reflexivity.
      exfalso. now apply (Hnl InputLimitV x0). }
    destruct (run_shape hdr ub c d) as [E | [[x0 E] | (v & x0 & -> & E)]].
    + rewrite E in Hacc. discriminate.
    + pose proof (target_ok c) as (_ & Hn & _).
      exists (x0 mod 2 ^ bits_count (target c)). split; [| split].
      * pose proof (Z.mod_pos_bound x0 (2 ^ bits_count (target c))
                      ltac:(apply Z.pow_pos_nonneg; lia)).
        unfold rawMax. lia.
      * now rewrite E, Hw, RegisterBits_write_masked.
      * intros s v Ec. exfalso. now apply (Hnl s v).
    + exfalso. now apply (Hnl InputLimitV v).
Qed.

(** C7: on a responsive device [setChargeLimitV(4.2)] succeeds and leaves
    420 in the field, after which [getChargeLimitV] returns 4.2 as binary32;
    [setChargeLimitV(2.0)] fails and changes nothing, on any device. *)
Theorem C7_charge_limit_scenario (ub : float -> Z) (d : Device) :
  acks d = true ->
  let d1 := snd (setChargeLimitV ub (F32.lit 42 10) d) in
  fst (setChargeLimitV ub (F32.lit 42 10) d) = true /\
  encode ub ChargeLimitV (F32.lit 42 10) = 420 /\
  field_of (lin_field ChargeLimitV) (regs d1) = 420 /\
  fst (getChargeLimitV d1) = F32.lit 42 10 /\
  forall d' : Device, setChargeLimitV ub (F32.lit 20 10) d' = (false, d').
Proof.
  intros Ha d1.
  assert (Henc : encode ub ChargeLimitV (F32.lit 42 10) = 420) by (vm_compute; reflexivity).
  assert (Hrun : setChargeLimitV ub (F32.lit 42 10) d =
                 (true, snd (RegisterBits_write (lin_field ChargeLimitV) 420 d))).
  { rewrite <- Henc.
    exact (lin_run (mkHeader 0 0 0 0 0 0 0 0 0 0 0 0) ub ChargeLimitV (F32.lit 42 10) d). }
  assert (Hfield : field_of (lin_field ChargeLimitV) (regs d1) = 420).
  { unfold d1. rewrite Hrun. cbn [snd].
    rewrite RegisterBits_write_regs, Ha, field_of_merge by (unfold field_ok; simpl; lia).
    reflexivity. }
  split; [now rewrite Hrun | split; [exact Henc | split; [exact Hfield | split]]].
  - change (fst (lin_get ChargeLimitV d1) = F32.lit 42 10).
    rewrite lin_get_run by (unfold d1; rewrite Hrun; cbn [snd];
                            now rewrite RegisterBits_write_acks).
    rewrite Hfield. vm_compute. reflexivity.
  - intros d'.
    exact (lin_run (mkHeader 0 0 0 0 0 0 0 0 0 0 0 0) ub ChargeLimitV (F32.lit 20 10) d').
Qed.

(** C10: [getMinSystemV] decodes the six-bit field without clamping: for
    raw value [r] it returns exactly 2.5 + 0.25 r, and for [r] above 54 that
    result exceeds 16.0 and is refused by [setMinSystemV]. *)
Theorem C10_getter_may_return_what_setter_rejects (ub : float -> Z)
    (d : Device) (r : Z) :
  acks d = true ->
  field_of (lin_field MinSystemV) (regs d) = r ->
  (0 <= r <= 63) /\
  (F32.to_Q (fst (getMinSystemV d)) == (5 # 2) + inject_Z r * (1 # 4))%Q /\
  (54 < r ->
   F32.ltb (maxValue MinSystemV) (fst (getMinSystemV d)) = true /\
   forall d' : Device, setMinSystemV ub (fst (getMinSystemV d)) d' = (false, d')).
Proof.
  intros Ha Hr.
  assert (Hrange : 0 <= r <= 63).
  { rewrite <- Hr. apply (field_of_bound (lin_field MinSystemV)).
    unfold field_ok; simpl; lia. }
  change (getMinSystemV d) with (lin_get MinSystemV d).
  rewrite lin_get_run, Hr by assumption.
  split; [exact Hrange | split].
  - apply Qeq_bool_iff.
    apply (all_below_spec 64
             (fun z => Qeq_bool (F32.to_Q (decode MinSystemV z))
                                ((5 # 2) + inject_Z z * (1 # 4)))).
    + vm_compute. reflexivity.
    + simpl. lia.
  - intros Hbig.
    assert (Hgt : F32.ltb (maxValue MinSystemV) (decode MinSystemV r) = true).
    { pose proof (all_below_spec 64
               (fun z => (z <=? 54) || F32.ltb (maxValue MinSystemV) (decode MinSystemV z))
               ltac:(vm_compute; reflexivity) r ltac:(simpl; lia)) as H.
      cbv beta in H. destruct (Z.leb_spec r 54); [lia | exact H]. }
    split; [exact Hgt |]. intros d'.
    change (setMinSystemV ub (decode MinSystemV r) d')
      with (run (mkHeader 0 0 0 0 0 0 0 0 0 0 0 0) ub
                (lin_call MinSystemV (decode MinSystemV r)) d').
    rewrite lin_run, Hgt. now rewrite orb_true_r.
Qed.

(** ** binary32 rounding *)

Lemma rec_code_of_loc m l : rec_code (shr_record_of_loc m l) = 4 * m + loc_code l.
Proof. destruct l as [| []]; unfold rec_code; simpl; lia. Qed.

Lemma sh1_split a c : 0 <= c < 4 -> sh1 (4 * a + c) = 2 * a + (if c =? 0 then 0 else 1).
Proof.
  intros Hc. unfold sh1.
  replace ((4 * a + c) / 4) with a by (Z.to_euclidean_division_equations; lia).
  replace ((4 * a + c) mod 4) with c by (Z.to_euclidean_division_equations; lia).
  reflexivity.
Qed.

Lemma rec_code_shr_1 r :
  0 <= shr_m r -> rec_code (shr_1 r) = sh1 (rec_code r) /\ 0 <= shr_m (shr_1 r).
Proof.
  destruct r as [m r s]. cbn [shr_m]. intros Hm.
  unfold rec_code at 2. cbn [shr_m shr_r shr_s].
  rewrite <- Z.add_assoc, sh1_split by (destruct r, s; lia).
  destruct m as [| [p | p |] |]; try lia;
    destruct r, s; unfold rec_code; cbn; lia.
Qed.

Lemma sh1_mono t t' : t <= t' -> sh1 t <= sh1 t'.
Proof.
  intros H. unfold sh1.
  destruct (Z.eqb_spec (t mod 4) 0), (Z.eqb_spec (t' mod 4) 0);
    Z.to_euclidean_division_equations; lia.
Qed.

Lemma shn_S n t : shn (S n) t = sh1 (shn n t).
Proof. reflexivity. Qed.

Lemma shn_mono n t t' : t <= t' -> shn n t <= shn n t'.
Proof.
  intros H. induction n as [| n IH]; [exact H |]. rewrite !shn_S. now apply sh1_mono.
Qed.

Lemma sh1_quot t : sh1 t / 4 = t / 4 / 2.
Proof.
  unfold sh1. destruct (Z.eqb_spec (t mod 4) 0);
    Z.to_euclidean_division_equations; lia.
Qed.

Lemma shn_quot n t : shn n t / 4 = t / 4 / 2 ^ Z.of_nat n.
Proof.
  induction n as [| n IH].
  - cbn. now rewrite Z.div_1_r.
  - rewrite shn_S, sh1_quot, IH.
    rewrite Nat2Z.inj_succ, Z.pow_succ_r by lia.
    rewrite Z.div_div by (try apply Z.pow_pos_nonneg; lia).
    f_equal. lia.
Qed.

Lemma rne_mono t t' : t <= t' -> rne t <= rne t'.
Proof.
  intros H. unfold rne.
  destruct (Z.eq_dec (t / 4) (t' / 4)) as [E | E].
  - rewrite E.
    destruct (Z.odd (t' / 4));
      destruct (Z.eqb_spec (t mod 4) 3), (Z.eqb_spec (t mod 4) 2),
               (Z.eqb_spec (t' mod 4) 3), (Z.eqb_spec (t' mod 4) 2); cbn;
      Z.to_euclidean_division_equations; lia.
  - assert (t / 4 + 1 <= t' / 4) by (Z.to_euclidean_division_equations; lia).
    destruct ((t mod 4 =? 3) || ((t mod 4 =? 2) && Z.odd (t / 4)));
      destruct ((t' mod 4 =? 3) || ((t' mod 4 =? 2) && Z.odd (t' / 4))); lia.
Qed.

Lemma rne_bounds t : t / 4 <= rne t <= t / 4 + 1.
Proof.
  unfold rne.
  destruct ((t mod 4 =? 3) || ((t mod 4 =? 2) && Z.odd (t / 4))); lia.
Qed.

Lemma rne_exact a : rne (4 * a) = a.
Proof.
  unfold rne.
  replace (4 * a / 4) with a by (Z.to_euclidean_division_equations; lia).
  replace ((4 * a) mod 4) with 0 by (Z.to_euclidean_division_equations; lia).
  cbn. lia.
Qed.

Lemma rne_of_record r :
  round_nearest_even (shr_m r) (loc_of_shr_record r) = rne (rec_code r).
Proof.
  destruct r as [m r s]. unfold rec_code, rne. cbn [shr_m shr_r shr_s].
  destruct r, s; cbn [loc_of_shr_record round_nearest_even];
    match goal with
    | |- context [(?x / 4)] =>
        replace (x / 4) with m by (Z.to_euclidean_division_equations; lia);
        match goal with
        | |- context [(x mod 4)] =>
            let c := constr:(x mod 4) in
            first [ replace c with 3 by (Z.to_euclidean_division_equations; lia)
                  | replace c with 2 by (Z.to_euclidean_division_equations; lia)
                  | replace c with 1 by (Z.to_euclidean_division_equations; lia)
                  | replace c with 0 by (Z.to_euclidean_division_equations; lia) ]
        end
    end; cbn; try lia.
  rewrite <- Z.negb_odd. destruct (Z.odd m); cbn; lia.
Qed.

Lemma iter_pos_nat {A : Type} (f : A -> A) p x :
  SpecFloat.iter_pos f p x = Nat.iter (Pos.to_nat p) f x.
Proof.
  revert x. induction p as [p IH | p IH |]; intros x; cbn [SpecFloat.iter_pos].
  - rewrite !IH, Pos2Nat.inj_xI.
    replace (S (2 * Pos.to_nat p)) with (Pos.to_nat p + (Pos.to_nat p + 1))%nat by lia.
    now rewrite !Nat.iter_add.
  - rewrite !IH, Pos2Nat.inj_xO.
    replace (2 * Pos.to_nat p)%nat with (Pos.to_nat p + Pos.to_nat p)%nat by lia.
    now rewrite Nat.iter_add.
  - reflexivity.
Qed.

Lemma rec_code_iter n r :
  0 <= shr_m r ->
  rec_code (Nat.iter n shr_1 r) = shn n (rec_code r) /\ 0 <= shr_m (Nat.iter n shr_1 r).
Proof.
  intros Hm. induction n as [| n [IHc IHm]]; [now split |].
  rewrite shn_S. change (Nat.iter (S n) shr_1 r) with (shr_1 (Nat.iter n shr_1 r)).
  destruct (rec_code_shr_1 (Nat.iter n shr_1 r) IHm) as [Ec Em].
  split; [now rewrite Ec, IHc | exact Em].
Qed.


Lemma to_nat_nonpos z : z <= 0 -> Z.to_nat z = 0%nat.
Proof. destruct z; cbn; lia. Qed.

Lemma digits2_pos_spec p :
  2 ^ (Zpos (digits2_pos p) - 1) <= Zpos p < 2 ^ Zpos (digits2_pos p).
Proof.
  induction p as [p IH | p IH |]; cbn [digits2_pos];
    rewrite ?Pos2Z.inj_succ.
  - replace (Z.succ (Zpos (digits2_pos p)) - 1) with (Z.succ (Zpos (digits2_pos p) - 1)) by lia.
    rewrite !Z.pow_succ_r by lia. lia.
  - replace (Z.succ (Zpos (digits2_pos p)) - 1) with (Z.succ (Zpos (digits2_pos p) - 1)) by lia.
    rewrite !Z.pow_succ_r by lia. lia.
  - cbn. lia.
Qed.

Lemma Zdigits2_spec m :
  0 < m -> 1 <= Zdigits2 m /\ 2 ^ (Zdigits2 m - 1) <= m < 2 ^ Zdigits2 m.
Proof.
  destruct m as [| p |]; try lia. intros _. cbn [Zdigits2].
  split; [lia | apply digits2_pos_spec].
Qed.

Lemma Zdigits2_unique m d : 0 < m -> 2 ^ (d - 1) <= m < 2 ^ d -> Zdigits2 m = d.
Proof.
  intros Hm Hd. destruct (Zdigits2_spec m Hm) as (H1 & Hlo & Hhi).
  assert (1 <= d).
  { destruct (Z_lt_le_dec d 1) as [Hs |]; [| assumption].
    assert (2 ^ d <= 2 ^ 0) by (destruct (Z_lt_le_dec d 0);
      [rewrite Z.pow_neg_r by lia; cbn; lia | apply Z.pow_le_mono_r; lia]).
    cbn in *. lia. }
  destruct (Z.lt_trichotomy (Zdigits2 m) d) as [Hlt | [E | Hgt]]; [| exact E |].
  - assert (2 ^ Zdigits2 m <= 2 ^ (d - 1)) by (apply Z.pow_le_mono_r; lia). lia.
  - assert (2 ^ d <= 2 ^ (Zdigits2 m - 1)) by (apply Z.pow_le_mono_r; lia). lia.
Qed.

Lemma Zdigits2_mono m m' : 0 < m <= m' -> Zdigits2 m <= Zdigits2 m'.
Proof.
  intros [Hm Hle].
  destruct (Zdigits2_spec m Hm) as (H1 & Hlo & Hhi).
  destruct (Zdigits2_spec m' ltac:(lia)) as (H1' & Hlo' & Hhi').
  destruct (Z_lt_le_dec (Zdigits2 m') (Zdigits2 m)) as [Hlt |]; [| assumption].
  assert (2 ^ Zdigits2 m' <= 2 ^ (Zdigits2 m - 1)) by (apply Z.pow_le_mono_r; lia).
  lia.
Qed.

(** The mantissa once shifted keeps exactly 24 digits, or all of its digits
    when it had fewer. *)
Lemma shifted_range m :
  0 < m ->
  let q := m / 2 ^ Z.of_nat (bra_shift m) in
  0 < q < 2 ^ 24 /\ (24 <= Zdigits2 m -> 2 ^ 23 <= q).
Proof.
  intros Hm q. subst q. unfold bra_shift.
  destruct (Zdigits2_spec m Hm) as (H1 & Hlo & Hhi).
  destruct (Z_lt_le_dec (Zdigits2 m) 24) as [Hs | Hb].
  - rewrite to_nat_nonpos by lia. cbn. rewrite Z.div_1_r.
    assert (2 ^ Zdigits2 m <= 2 ^ 24) by (apply Z.pow_le_mono_r; lia).
    split; [lia | intros; lia].
  - rewrite Z2Nat.id by lia.
    set (n := Zdigits2 m - 24) in *.
    assert (Hp : 0 < 2 ^ n) by (apply Z.pow_pos_nonneg; lia).
    assert (E1 : 2 ^ (Zdigits2 m - 1) = 2 ^ 23 * 2 ^ n)
      by (rewrite <- Z.pow_add_r by lia; f_equal; lia).
    assert (E2 : 2 ^ Zdigits2 m = 2 ^ 24 * 2 ^ n)
      by (rewrite <- Z.pow_add_r by lia; f_equal; lia).
    assert (2 ^ 23 <= m / 2 ^ n) by (apply Z.div_le_lower_bound; lia).
    assert (m / 2 ^ n < 2 ^ 24) by (apply Z.div_lt_upper_bound; lia).
    split; [lia | intros; lia].
Qed.

Lemma bra_mant_range m l :
  0 < m ->
  0 < bra_mant m l <= 2 ^ 24 /\ (24 <= Zdigits2 m -> 2 ^ 23 <= bra_mant m l).
Proof.
  intros Hm. unfold bra_mant.
  pose proof (rne_bounds (shn (bra_shift m) (4 * m + loc_code l))) as Hr.
  rewrite shn_quot in Hr.
  replace ((4 * m + loc_code l) / 4) with m in Hr
    by (destruct l as [| []]; cbn [loc_code]; Z.to_euclidean_division_equations; lia).
  destruct (shifted_range m Hm) as [Hq Hq'].
  split; [lia | intros; specialize (Hq' ltac:(assumption)); lia].
Qed.

Lemma shr_fexp_spec m ex l :
  0 < m -> -149 <= ex ->
  exists R,
    shr_fexp 24 128 m ex l = (R, ex + Z.of_nat (bra_shift m)) /\
    rec_code R = shn (bra_shift m) (4 * m + loc_code l).
Proof.
  intros Hm Hex. unfold shr_fexp, shr, bra_shift, fexp, emin.
  destruct (Zdigits2_spec m Hm) as (H1 & _).
  destruct (Z.max (Zdigits2 m + ex - 24) (3 - 128 - 24) - ex) as [| p | p] eqn:Ez.
  - exists (shr_record_of_loc m l).
    rewrite to_nat_nonpos by lia.
    rewrite Z.add_0_r. split; [reflexivity | apply rec_code_of_loc].
  - exists (SpecFloat.iter_pos shr_1 p (shr_record_of_loc m l)).
    assert (En : Zdigits2 m - 24 = Zpos p) by lia.
    rewrite En. cbn [Z.to_nat]. rewrite positive_nat_Z. split; [reflexivity |].
    rewrite iter_pos_nat.
    destruct (rec_code_iter (Pos.to_nat p) (shr_record_of_loc m l)) as [Ec _].
    { destruct l as [| []]; cbn; lia. }
    now rewrite Ec, rec_code_of_loc.
  - exists (shr_record_of_loc m l).
    rewrite to_nat_nonpos by lia.
    rewrite Z.add_0_r. split; [reflexivity | apply rec_code_of_loc].
Qed.

Lemma shr_fexp_exact M E :
  0 < M <= 2 ^ 24 -> -149 <= E ->
  shr_fexp 24 128 M E loc_Exact =
  if M =? 2 ^ 24 then ({| shr_m := 2 ^ 23; shr_r := false; shr_s := false |}, E + 1)
  else ({| shr_m := M; shr_r := false; shr_s := false |}, E).
Proof.
  intros HM HE. destruct (Z.eqb_spec M (2 ^ 24)) as [-> | Hne].
  - unfold shr_fexp, shr, fexp, emin.
    change (Zdigits2 (2 ^ 24)) with 25.
    replace (Z.max (25 + E - 24) (3 - 128 - 24) - E) with 1 by lia.
    reflexivity.
  - unfold shr_fexp, shr, fexp, emin.
    assert (Hd : Zdigits2 M <= 24).
    { destruct (Zdigits2_spec M ltac:(lia)) as (H1 & Hlo & _).
      destruct (Z_lt_le_dec 24 (Zdigits2 M)) as [Hb |]; [| assumption].
      assert (2 ^ 24 <= 2 ^ (Zdigits2 M - 1)) by (apply Z.pow_le_mono_r; lia). lia. }
    destruct (Z.max (Zdigits2 M + E - 24) (3 - 128 - 24) - E) eqn:Ez;
      try reflexivity; lia.
Qed.

(** What the rounding step computes, away from underflow and overflow. *)
Lemma binary_round_aux_spec sx m ex l :
  0 < m -> -149 <= ex -> ex + Z.of_nat (bra_shift m) < 104 ->
  binary_round_aux 24 128 sx m ex l =
  if bra_mant m l =? 2 ^ 24
  then S754_finite sx (Z.to_pos (2 ^ 23)) (ex + Z.of_nat (bra_shift m) + 1)
  else S754_finite sx (Z.to_pos (bra_mant m l)) (ex + Z.of_nat (bra_shift m)).
Proof.
  intros Hm Hex Hov. unfold binary_round_aux.
  destruct (shr_fexp_spec m ex l Hm Hex) as (R & -> & Ec).
  rewrite rne_of_record, Ec. fold (bra_mant m l).
  destruct (bra_mant_range m l Hm) as [HM _].
  rewrite shr_fexp_exact by lia.
  destruct (Z.eqb_spec (bra_mant m l) (2 ^ 24)) as [E | Hne]; cbn [shr_m].
  - change (2 ^ 23) with (Zpos (Z.to_pos (2 ^ 23))) at 1. cbv iota beta.
    destruct (Z.leb_spec (ex + Z.of_nat (bra_shift m) + 1) (128 - 24)); [reflexivity | lia].
  - destruct (bra_mant m l) as [| p |] eqn:EM; try lia.
    destruct (Z.leb_spec (ex + Z.of_nat (bra_shift m)) (128 - 24)); [reflexivity | lia].
Qed.

Lemma binary_round_aux_val m ex l :
  0 < m -> -149 <= ex -> ex + Z.of_nat (bra_shift m) < 104 ->
  val (binary_round_aux 24 128 false m ex l) =
  bra_mant m l * 2 ^ (ex + Z.of_nat (bra_shift m) + 149).
Proof.
  intros Hm Hex Hov. rewrite binary_round_aux_spec by assumption.
  destruct (bra_mant_range m l Hm) as [HM _].
  destruct (Z.eqb_spec (bra_mant m l) (2 ^ 24)) as [E | Hne]; cbn [val].
  - rewrite E, Z2Pos.id by (cbn; lia).
    replace (ex + Z.of_nat (bra_shift m) + 1 + 149)
      with (Z.succ (ex + Z.of_nat (bra_shift m) + 149)) by lia.
    rewrite Z.pow_succ_r by lia.
    change (2 ^ 24) with (2 ^ 23 * 2). lia.
  - now rewrite Z2Pos.id by lia.
Qed.

(** Rounding is monotone: more mantissa, or the same mantissa with more
    beyond it, never gives less. *)
Lemma bra_mono m l m' l' :
  0 < m -> 4 * m + loc_code l <= 4 * m' + loc_code l' ->
  bra_mant m l * 2 ^ Z.of_nat (bra_shift m) <= bra_mant m' l' * 2 ^ Z.of_nat (bra_shift m').
Proof.
  intros Hm Ht.
  assert (Hmm : m <= m') by (destruct l as [| []], l' as [| []]; cbn [loc_code] in Ht; lia).
  pose proof (Zdigits2_mono m m' ltac:(lia)) as Hd.
  destruct (bra_mant_range m l Hm) as [HM HM'].
  destruct (bra_mant_range m' l' ltac:(lia)) as [HN HN'].
  destruct (Nat.eq_dec (bra_shift m) (bra_shift m')) as [E | Hne].
  - rewrite <- E. apply Z.mul_le_mono_nonneg_r; [apply Z.pow_nonneg; lia |].
    unfold bra_mant. rewrite <- E. now apply rne_mono, shn_mono.
  - assert (Hlt : (bra_shift m < bra_shift m')%nat) by (unfold bra_shift in *; lia).
    assert (24 <= Zdigits2 m') by (unfold bra_shift in Hlt; lia).
    specialize (HN' ltac:(assumption)).
    assert (Hp : 0 < 2 ^ Z.of_nat (bra_shift m)) by (apply Z.pow_pos_nonneg; lia).
    assert (Hq : 2 * 2 ^ Z.of_nat (bra_shift m) <= 2 ^ Z.of_nat (bra_shift m')).
    { rewrite <- Z.pow_succ_r by lia. apply Z.pow_le_mono_r; lia. }
    change (2 ^ 24) with (2 ^ 23 * 2) in HM. nia.
Qed.


Lemma loc_code_range l : 0 <= loc_code l <= 3.
Proof. destruct l as [| []]; cbn; lia. Qed.

Lemma digits_24 m : 2 ^ 23 <= m < 2 ^ 24 -> Zdigits2 m = 24.
Proof. intros H. apply Zdigits2_unique; [lia | exact H]. Qed.

Lemma new_location_mono nb r r' :
  0 <= r <= r' -> loc_code (new_location nb r) <= loc_code (new_location nb r').
Proof.
  intros H. unfold new_location, new_location_even, new_location_odd.
  destruct (Z.even nb);
    destruct (Z.eqb_spec r 0), (Z.eqb_spec r' 0); cbn [loc_code]; try lia;
    repeat match goal with
           | |- context [(?a ?= ?b)] => destruct (Z.compare_spec a b)
           end; cbn [loc_code]; lia.
Qed.

Lemma div_code_mono n n' d : 0 < d -> 0 <= n <= n' -> div_code n d <= div_code n' d.
Proof.
  intros Hd Hn. unfold div_code.
  pose proof (loc_code_range (new_location d (n mod d))).
  pose proof (loc_code_range (new_location d (n' mod d))).
  assert (Hq : n / d <= n' / d) by (apply Z.div_le_mono; lia).
  destruct (Z.eq_dec (n / d) (n' / d)) as [E | Hne]; [| lia].
  pose proof (Z.div_mod n d ltac:(lia)). pose proof (Z.div_mod n' d ltac:(lia)).
  pose proof (Z.mod_pos_bound n d Hd).
  assert (n mod d <= n' mod d) by (rewrite E in *; lia).
  pose proof (new_location_mono d (n mod d) (n' mod d) ltac:(lia)). lia.
Qed.

Lemma div_normal m e ms es :
  2 ^ 23 <= m < 2 ^ 24 -> 2 ^ 23 <= ms < 2 ^ 24 -> -149 <= e - es - 24 ->
  F32.div (fin m e) (fin ms es) =
  binary_round_aux 24 128 false ((m * 2 ^ 24) / ms) (e - es - 24)
                   (new_location ms ((m * 2 ^ 24) mod ms)).
Proof.
  intros Hm Hms Hex. unfold F32.div, fin, SFdiv, SFdiv_core_binary. cbn [xorb].
  rewrite !Z2Pos.id by lia.
  rewrite (digits_24 m Hm), (digits_24 ms Hms).
  unfold fexp, emin, F32.prec, F32.emax.
  replace (Z.min (Z.max (24 + e - (24 + es) - 24) (3 - 128 - 24)) (e - es))
    with (e - es - 24) by lia.
  replace (e - es - (e - es - 24)) with 24 by lia.
  rewrite Z.shiftl_mul_pow2 by lia.
  unfold Z.div, Z.modulo.
  destruct (Z.div_eucl (m * 2 ^ 24) ms) as [q r]. reflexivity.
Qed.

Lemma div_quot_range m ms :
  2 ^ 23 <= m < 2 ^ 24 -> 2 ^ 23 <= ms < 2 ^ 24 ->
  2 ^ 23 <= (m * 2 ^ 24) / ms < 2 ^ 25.
Proof.
  intros Hm Hms. split.
  - apply Z.div_le_lower_bound; [lia |]. nia.
  - apply Z.div_lt_upper_bound; [lia |]. change (2 ^ 25) with (2 * 2 ^ 24). nia.
Qed.

Lemma bra_shift_le m k : 0 < m < 2 ^ (24 + Z.of_nat k) -> (bra_shift m <= k)%nat.
Proof.
  intros Hm. unfold bra_shift.
  destruct (Zdigits2_spec m ltac:(lia)) as (H1 & Hlo & _).
  destruct (Z_lt_le_dec (24 + Z.of_nat k) (Zdigits2 m)) as [Hb |]; [| lia].
  assert (2 ^ (24 + Z.of_nat k) <= 2 ^ (Zdigits2 m - 1)) by (apply Z.pow_le_mono_r; lia).
  lia.
Qed.

(** The rounding step yields a positive finite float. *)
Lemma binary_round_aux_fin m ex l :
  0 < m -> -149 <= ex -> ex + Z.of_nat (bra_shift m) < 104 ->
  exists M E, binary_round_aux 24 128 false m ex l = fin M E /\
              0 < M < 2 ^ 24 /\ ex <= E /\ (24 <= Zdigits2 m -> 2 ^ 23 <= M).
Proof.
  intros Hm Hex Hov. rewrite binary_round_aux_spec by assumption.
  destruct (bra_mant_range m l Hm) as [HM HM'].
  destruct (Z.eqb_spec (bra_mant m l) (2 ^ 24)) as [E | Hne].
  - exists (2 ^ 23), (ex + Z.of_nat (bra_shift m) + 1).
    split; [reflexivity |]. cbn. lia.
  - exists (bra_mant m l), (ex + Z.of_nat (bra_shift m)).
    split; [reflexivity |]. repeat split; try lia.
Qed.

Lemma val_fin m e : 0 < m -> val (fin m e) = m * 2 ^ (e + 149).
Proof. intros Hm. unfold val, fin. now rewrite Z2Pos.id. Qed.

Lemma trunc_fin m e :
  0 < m -> -149 <= e -> F32.trunc (fin m e) = Some (val (fin m e) / 2 ^ 149).
Proof.
  intros Hm He. rewrite val_fin by assumption. unfold F32.trunc, fin. cbn [cond_Zopp].
  rewrite Z2Pos.id by assumption. f_equal.
  destruct (Z_lt_le_dec e 0) as [Hn | Hp].
  - rewrite Z.shiftl_div_pow2 by lia.
    replace (2 ^ 149) with (2 ^ (- e) * 2 ^ (e + 149))
      by (rewrite <- Z.pow_add_r by lia; f_equal; lia).
    rewrite Z.div_mul_cancel_r; try (apply Z.pow_nonzero; lia). reflexivity.
  - rewrite Z.shiftl_mul_pow2, Z.pow_add_r, Z.mul_assoc by lia.
    now rewrite Z.div_mul by (apply Z.pow_nonzero; lia).
Qed.

(** Dividing by a normal constant: result and monotonicity. *)
Lemma div_normal_fin m e ms es :
  2 ^ 23 <= m < 2 ^ 24 -> 2 ^ 23 <= ms < 2 ^ 24 ->
  -149 <= e - es - 24 -> e - es - 24 + 1 < 104 ->
  exists M E, F32.div (fin m e) (fin ms es) = fin M E /\ 0 < M /\ -149 <= E.
Proof.
  intros Hm Hms Hlo Hhi. rewrite div_normal by assumption.
  pose proof (div_quot_range m ms Hm Hms) as Hq.
  pose proof (bra_shift_le ((m * 2 ^ 24) / ms) 1 ltac:(change (2 ^ (24 + Z.of_nat 1)) with (2 ^ 25); lia)).
  destruct (binary_round_aux_fin ((m * 2 ^ 24) / ms) (e - es - 24)
              (new_location ms ((m * 2 ^ 24) mod ms)))
    as (M & E & Eq & HM & HE & _); try lia.
  exists M, E. repeat split; try assumption; lia.
Qed.

Lemma div_normal_val m e ms es :
  2 ^ 23 <= m < 2 ^ 24 -> 2 ^ 23 <= ms < 2 ^ 24 ->
  -149 <= e - es - 24 -> e - es - 24 + 1 < 104 ->
  val (F32.div (fin m e) (fin ms es)) =
  bra_mant ((m * 2 ^ 24) / ms) (new_location ms ((m * 2 ^ 24) mod ms))
  * 2 ^ Z.of_nat (bra_shift ((m * 2 ^ 24) / ms)) * 2 ^ (e - es - 24 + 149).
Proof.
  intros Hm Hms Hlo Hhi. rewrite div_normal by assumption.
  pose proof (div_quot_range m ms Hm Hms) as Hq.
  pose proof (bra_shift_le ((m * 2 ^ 24) / ms) 1 ltac:(change (2 ^ (24 + Z.of_nat 1)) with (2 ^ 25); lia)).
  rewrite binary_round_aux_val by lia.
  rewrite <- Z.mul_assoc, <- Z.pow_add_r by lia. do 2 f_equal. lia.
Qed.

Lemma div_normal_mono m m' e ms es :
  2 ^ 23 <= m -> m <= m' -> m' < 2 ^ 24 -> 2 ^ 23 <= ms < 2 ^ 24 ->
  -149 <= e - es - 24 -> e - es - 24 + 1 < 104 ->
  val (F32.div (fin m e) (fin ms es)) <= val (F32.div (fin m' e) (fin ms es)).
Proof.
  intros Hm Hle Hm' Hms Hlo Hhi.
  rewrite !div_normal_val by lia.
  apply Z.mul_le_mono_nonneg_r; [apply Z.pow_nonneg; lia |].
  pose proof (div_quot_range m ms ltac:(lia) Hms).
  apply bra_mono; [lia |].
  apply (div_code_mono (m * 2 ^ 24) (m' * 2 ^ 24) ms); lia.
Qed.


Lemma shl_align_fst mx ex ez :
  ez <= ex -> Zpos (fst (shl_align mx ex ez)) = Zpos mx * 2 ^ (ex - ez).
Proof.
  intros H. unfold shl_align.
  destruct (ez - ex) as [| d | d] eqn:E; cbn [fst].
  - replace (ex - ez) with 0 by lia. cbn. lia.
  - lia.
  - replace (ex - ez) with (Zpos d) by lia.
    change (Pos.iter xO mx d) with (shift_pos d mx).
    rewrite shift_pos_correct. change (Z.pow_pos 2 d) with (2 ^ Zpos d). lia.
Qed.

Lemma bra_exact_small m : 0 < m < 2 ^ 24 -> bra_shift m = 0%nat /\ bra_mant m loc_Exact = m.
Proof.
  intros Hm.
  assert (E : bra_shift m = 0%nat).
  { pose proof (bra_shift_le m 0 ltac:(change (2 ^ (24 + Z.of_nat 0)) with (2 ^ 24); lia)).
    lia. }
  split; [exact E |].
  unfold bra_mant. rewrite E. cbn [shn Nat.iter loc_code].
  rewrite Z.add_0_r. apply rne_exact.
Qed.

(** Normalisation of a positive integer mantissa: a float of 24 digits whose
    value is the rounded mantissa. *)
Lemma binary_round_spec p ex :
  -125 <= ex -> ex + Z.of_nat (bra_shift (Zpos p)) < 104 ->
  exists M E,
    binary_round 24 128 false p ex = fin M E /\
    2 ^ 23 <= M < 2 ^ 24 /\ -149 <= E /\
    M * 2 ^ (E + 149) =
    bra_mant (Zpos p) loc_Exact * 2 ^ Z.of_nat (bra_shift (Zpos p)) * 2 ^ (ex + 149).
Proof.
  intros Hex Hov. unfold binary_round.
  destruct (Zdigits2_spec (Zpos p) ltac:(lia)) as (H1 & Hlo & Hhi).
  cbn [Zdigits2] in H1, Hlo, Hhi.
  set (d := Zpos (digits2_pos p)) in *.
  unfold fexp, emin.
  replace (Z.max (d + ex - 24) (3 - 128 - 24)) with (d + ex - 24) by lia.
  destruct (Z_lt_le_dec d 24) as [Hs | Hb].
  - (* fewer than 24 digits: aligned to the left, nothing is lost *)
    pose proof (shl_align_fst p ex (d + ex - 24) ltac:(lia)) as Ef.
    assert (Es : snd (shl_align p ex (d + ex - 24)) = d + ex - 24).
    { unfold shl_align. destruct (d + ex - 24 - ex) eqn:E; try lia. reflexivity. }
    destruct (shl_align p ex (d + ex - 24)) as [mz ez]. cbn [fst snd] in Ef, Es. subst ez.
    replace (ex - (d + ex - 24)) with (24 - d) in Ef by lia.
    assert (Hmz : 2 ^ 23 <= Zpos mz < 2 ^ 24).
    { rewrite Ef.
      replace (2 ^ 23) with (2 ^ (d - 1) * 2 ^ (24 - d))
        by (rewrite <- Z.pow_add_r by lia; f_equal; lia).
      replace (2 ^ 24) with (2 ^ d * 2 ^ (24 - d))
        by (rewrite <- Z.pow_add_r by lia; f_equal; lia).
      assert (0 < 2 ^ (24 - d)) by (apply Z.pow_pos_nonneg; lia). nia. }
    destruct (bra_exact_small (Zpos mz) ltac:(lia)) as [En Em].
    destruct (bra_exact_small (Zpos p) ltac:(
      assert (2 ^ d <= 2 ^ 24) by (apply Z.pow_le_mono_r; lia); lia)) as [En' Em'].
    rewrite binary_round_aux_spec by (rewrite ?En; lia).
    rewrite En, Em. destruct (Z.eqb_spec (Zpos mz) (2 ^ 24)); [lia |].
    exists (Zpos mz), (d + ex - 24 + Z.of_nat 0).
    split; [reflexivity |]. split; [exact Hmz |]. split; [lia |].
    rewrite En', Em', Ef. change (2 ^ Z.of_nat 0) with 1.
    rewrite Z.mul_1_r, <- Z.mul_assoc, <- Z.pow_add_r by lia.
    do 2 f_equal. lia.
  - (* at least 24 digits: rounded *)
    assert (Ea : shl_align p ex (d + ex - 24) = (p, ex)).
    { unfold shl_align. destruct (d + ex - 24 - ex) eqn:E; try lia; reflexivity. }
    rewrite Ea.
    destruct (bra_mant_range (Zpos p) loc_Exact ltac:(lia)) as [HM HM'].
    specialize (HM' ltac:(cbn [Zdigits2]; fold d; lia)).
    rewrite binary_round_aux_spec by lia.
    destruct (Z.eqb_spec (bra_mant (Zpos p) loc_Exact) (2 ^ 24)) as [E | Hne].
    + exists (2 ^ 23), (ex + Z.of_nat (bra_shift (Zpos p)) + 1).
      split; [reflexivity |]. split; [cbn; lia |]. split; [lia |].
      rewrite E.
      replace (ex + Z.of_nat (bra_shift (Zpos p)) + 1 + 149)
        with (Z.succ (Z.of_nat (bra_shift (Zpos p)) + (ex + 149))) by lia.
      rewrite Z.pow_succ_r, Z.pow_add_r by lia.
      change (2 ^ 24) with (2 ^ 23 * 2). lia.
    + exists (bra_mant (Zpos p) loc_Exact), (ex + Z.of_nat (bra_shift (Zpos p))).
      split; [reflexivity |]. split; [lia |]. split; [lia |].
      rewrite <- Z.mul_assoc, <- Z.pow_add_r by lia. do 2 f_equal. lia.
Qed.

Lemma diff_mant_val m e mo eo :
  0 < m -> 0 < mo -> -149 <= Z.min e eo ->
  diff_mant m e mo eo * 2 ^ (Z.min e eo + 149) = val (fin m e) - val (fin mo eo).
Proof.
  intros Hm Hmo Hz. rewrite !val_fin by assumption. unfold diff_mant.
  rewrite Z.mul_sub_distr_r, <- !Z.mul_assoc, <- !Z.pow_add_r by lia.
  do 2 f_equal; f_equal; lia.
Qed.

Lemma sub_normal m e mo eo :
  0 < m -> 0 < mo -> 0 < diff_mant m e mo eo ->
  F32.sub (fin m e) (fin mo eo) =
  binary_round 24 128 false (Z.to_pos (diff_mant m e mo eo)) (Z.min e eo).
Proof.
  intros Hm Hmo HD. unfold F32.sub, fin, SFsub. cbn [cond_Zopp].
  rewrite !shl_align_fst by lia. rewrite !Z2Pos.id by assumption.
  fold (diff_mant m e mo eo).
  destruct (diff_mant m e mo eo) as [| p |] eqn:E; try lia.
  reflexivity.
Qed.

Lemma diff_mant_shift m e mo eo :
  0 < m < 2 ^ 24 -> 0 < mo -> 0 < diff_mant m e mo eo ->
  Z.min e eo + Z.of_nat (bra_shift (diff_mant m e mo eo)) <= e.
Proof.
  intros Hm Hmo HD.
  pose proof (bra_shift_le (diff_mant m e mo eo) (Z.to_nat (e - Z.min e eo))) as H.
  rewrite Z2Nat.id in H by lia.
  assert (0 < 2 ^ (eo - Z.min e eo)) by (apply Z.pow_pos_nonneg; lia).
  assert (0 < 2 ^ (e - Z.min e eo)) by (apply Z.pow_pos_nonneg; lia).
  specialize (H ltac:(split; [assumption |]; rewrite Z.pow_add_r by lia;
                      unfold diff_mant in *; nia)).
  lia.
Qed.

(** Subtracting a smaller positive constant: a float of 24 digits, monotone
    in the mantissa of the first operand. *)
Lemma sub_normal_fin m e mo eo :
  0 < m < 2 ^ 24 -> 0 < mo -> 0 < diff_mant m e mo eo ->
  -125 <= Z.min e eo -> e < 104 ->
  exists M E,
    F32.sub (fin m e) (fin mo eo) = fin M E /\
    2 ^ 23 <= M < 2 ^ 24 /\ -149 <= E /\
    M * 2 ^ (E + 149) =
    bra_mant (diff_mant m e mo eo) loc_Exact
    * 2 ^ Z.of_nat (bra_shift (diff_mant m e mo eo)) * 2 ^ (Z.min e eo + 149).
Proof.
  intros Hm Hmo HD Hz He. rewrite sub_normal by lia.
  pose proof (diff_mant_shift m e mo eo Hm Hmo HD).
  destruct (binary_round_spec (Z.to_pos (diff_mant m e mo eo)) (Z.min e eo))
    as (M & E & Eq & HM & HE & Hv); rewrite ?Z2Pos.id by assumption; try lia.
  rewrite Z2Pos.id in Hv by assumption.
  now exists M, E.
Qed.

Lemma fin_inj M E M' E' : 0 < M -> 0 < M' -> fin M E = fin M' E' -> M = M' /\ E = E'.
Proof.
  unfold fin. intros HM HM' H. inversion H as [[Hm He]].
  split; [| reflexivity]. now apply Z2Pos.inj.
Qed.

(** Two floats of 24 digits compare as their exponents, then mantissas. *)
Lemma normal_order M E M' E' :
  2 ^ 23 <= M < 2 ^ 24 -> 2 ^ 23 <= M' < 2 ^ 24 -> -149 <= E -> -149 <= E' ->
  M * 2 ^ (E + 149) <= M' * 2 ^ (E' + 149) -> E < E' \/ (E = E' /\ M <= M').
Proof.
  intros HM HM' HE HE' Hle.
  destruct (Z.lt_trichotomy E E') as [Hlt | [Heq | Hgt]]; [now left | right | exfalso].
  - split; [assumption |]. subst E'.
    assert (0 < 2 ^ (E + 149)) by (apply Z.pow_pos_nonneg; lia). nia.
  - assert (2 * 2 ^ (E' + 149) <= 2 ^ (E + 149)).
    { rewrite <- Z.pow_succ_r by lia. apply Z.pow_le_mono_r; lia. }
    assert (0 < 2 ^ (E' + 149)) by (apply Z.pow_pos_nonneg; lia).
    change (2 ^ 24) with (2 * 2 ^ 23) in *. nia.
Qed.

Lemma sub_segment lo m hi e mo eo M1 M2 EX :
  2 ^ 23 <= lo -> lo <= m -> m <= hi -> hi < 2 ^ 24 -> 0 < mo ->
  -125 <= Z.min e eo -> e < 104 ->
  val (fin mo eo) < val (fin lo e) ->
  0 < M1 -> 0 < M2 ->
  F32.sub (fin lo e) (fin mo eo) = fin M1 EX ->
  F32.sub (fin hi e) (fin mo eo) = fin M2 EX ->
  exists M, F32.sub (fin m e) (fin mo eo) = fin M EX /\
            M1 <= M <= M2 /\ 2 ^ 23 <= M1 /\ M2 < 2 ^ 24 /\ -149 <= EX.
Proof.
  intros Hlo Hm Hhi Hhi' Hmo Hz He Hpos HM1 HM2 E1 E2.
  assert (Hp : 0 < 2 ^ (Z.min e eo + 149)) by (apply Z.pow_pos_nonneg; lia).
  assert (Hq : 0 < 2 ^ (e - Z.min e eo)) by (apply Z.pow_pos_nonneg; lia).
  assert (HD1 : 0 < diff_mant lo e mo eo).
  { pose proof (diff_mant_val lo e mo eo ltac:(lia) Hmo ltac:(lia)). nia. }
  assert (HDm : diff_mant lo e mo eo <= diff_mant m e mo eo) by (unfold diff_mant; nia).
  assert (HDh : diff_mant m e mo eo <= diff_mant hi e mo eo) by (unfold diff_mant; nia).
  destruct (sub_normal_fin lo e mo eo) as (A1 & B1 & Ea & HA1 & HB1 & Hv1); try lia.
  destruct (sub_normal_fin m e mo eo) as (A & B & Eb & HA & HB & Hv); try lia.
  destruct (sub_normal_fin hi e mo eo) as (A2 & B2 & Ec & HA2 & HB2 & Hv2); try lia.
  rewrite Ea in E1. apply fin_inj in E1 as [EA1 EB1]; try lia. subst A1 B1.
  rewrite Ec in E2. apply fin_inj in E2 as [EA2 EB2]; try lia. subst A2 B2.
  pose proof (bra_mono (diff_mant lo e mo eo) loc_Exact (diff_mant m e mo eo) loc_Exact
                HD1 ltac:(cbn [loc_code]; lia)) as Hm1.
  pose proof (bra_mono (diff_mant m e mo eo) loc_Exact (diff_mant hi e mo eo) loc_Exact
                ltac:(lia) ltac:(cbn [loc_code]; lia)) as Hm2.
  assert (Hv1m : M1 * 2 ^ (EX + 149) <= A * 2 ^ (B + 149)) by (rewrite Hv1, Hv; nia).
  assert (Hvm2 : A * 2 ^ (B + 149) <= M2 * 2 ^ (EX + 149)) by (rewrite Hv, Hv2; nia).
  destruct (normal_order M1 EX A B HA1 HA HB1 HB Hv1m) as [Hl | [El Hl]];
    destruct (normal_order A B M2 EX HA HA2 HB HB1 Hvm2) as [Hr | [Er Hr]]; try lia.
  subst B. exists A. repeat split; try assumption; lia.
Qed.


Lemma fin_pos p e : S754_finite false p e = fin (Zpos p) e.
Proof. reflexivity. Qed.

Lemma trunc_sandwich a x b :
  a <= x -> x <= b -> a / 2 ^ 149 = b / 2 ^ 149 -> x / 2 ^ 149 = a / 2 ^ 149.
Proof.
  intros H1 H2 E.
  pose proof (Z.div_le_mono a x (2 ^ 149) ltac:(cbn; lia) H1).
  pose proof (Z.div_le_mono x b (2 ^ 149) ltac:(cbn; lia) H2). lia.
Qed.

Lemma div_segment m1 m m2 e ms es :
  2 ^ 23 <= m1 -> m1 <= m -> m <= m2 -> m2 < 2 ^ 24 -> 2 ^ 23 <= ms < 2 ^ 24 ->
  -149 <= e - es - 24 -> e - es - 24 + 1 < 104 ->
  F32.trunc (F32.div (fin m1 e) (fin ms es)) = F32.trunc (F32.div (fin m2 e) (fin ms es)) ->
  F32.trunc (F32.div (fin m e) (fin ms es)) = F32.trunc (F32.div (fin m1 e) (fin ms es)).
Proof.
  intros H1 H1m Hm2 H2 Hms Hlo Hhi E.
  pose proof (div_normal_mono m1 m e ms es ltac:(lia) ltac:(lia) ltac:(lia) Hms Hlo Hhi) as Ha.
  pose proof (div_normal_mono m m2 e ms es ltac:(lia) ltac:(lia) ltac:(lia) Hms Hlo Hhi) as Hb.
  destruct (div_normal_fin m1 e ms es) as (A1 & B1 & E1 & HA1 & HB1); try lia.
  destruct (div_normal_fin m e ms es) as (A & B & E0 & HA & HB); try lia.
  destruct (div_normal_fin m2 e ms es) as (A2 & B2 & E2 & HA2 & HB2); try lia.
  rewrite E1, E0, E2 in *.
  rewrite !trunc_fin in * by assumption.
  f_equal. apply trunc_sandwich with (b := val (fin A2 B2)); try assumption.
  congruence.
Qed.

Lemma opt_eqb_eq a b : opt_eqb a b = true -> a = b.
Proof.
  destruct a, b; cbn [opt_eqb]; intros H; try discriminate; try reflexivity.
  f_equal. lia.
Qed.

(** [within] on the values in units of 2^-149. *)
Lemma within_val B mx ex mg eg :
  within B (S754_finite false mx ex) (S754_finite false mg eg) = true <->
  (-149 <= Z.min ex eg <= 0 /\
   Z.abs (val (S754_finite false mg eg) - val (S754_finite false mx ex)) * Zpos (Qden B)
   <= Qnum B * 2 ^ 149).
Proof.
  unfold within, val. set (c := Z.min ex eg).
  rewrite !andb_true_iff, !Z.leb_le.
  assert (Hiff : -149 <= c <= 0 ->
                 (Z.abs (Zpos mg * 2 ^ (eg - c) - Zpos mx * 2 ^ (ex - c)) * Zpos (Qden B)
                  <= Qnum B * 2 ^ (- c) <->
                  Z.abs (Zpos mg * 2 ^ (eg + 149) - Zpos mx * 2 ^ (ex + 149)) * Zpos (Qden B)
                  <= Qnum B * 2 ^ 149)).
  { intros Hc.
    assert (Hp : 0 < 2 ^ (c + 149)) by (apply Z.pow_pos_nonneg; lia).
    replace (2 ^ (eg + 149)) with (2 ^ (eg - c) * 2 ^ (c + 149))
      by (rewrite <- Z.pow_add_r by lia; f_equal; lia).
    replace (2 ^ (ex + 149)) with (2 ^ (ex - c) * 2 ^ (c + 149))
      by (rewrite <- Z.pow_add_r by lia; f_equal; lia).
    replace (2 ^ 149) with (2 ^ (- c) * 2 ^ (c + 149))
      by (rewrite <- Z.pow_add_r by lia; f_equal; lia).
    set (P := 2 ^ (c + 149)) in *.
    set (D := Zpos mg * 2 ^ (eg - c) - Zpos mx * 2 ^ (ex - c)).
    replace (Zpos mg * (2 ^ (eg - c) * P) - Zpos mx * (2 ^ (ex - c) * P))
      with (D * P) by (unfold D; ring).
    replace (Z.abs (D * P) * Zpos (Qden B)) with (Z.abs D * Zpos (Qden B) * P)
      by (rewrite Z.abs_mul, (Z.abs_eq P) by lia; ring).
    replace (Qnum B * (2 ^ (- c) * P)) with (Qnum B * 2 ^ (- c) * P) by ring.
    apply Z.mul_le_mono_pos_r. exact Hp. }
  split.
  - intros [[H1 H2] H3]. split; [lia |]. apply Hiff; [lia | exact H3].
  - intros [Hc H3]. split; [lia |]. apply Hiff; assumption.
Qed.

Lemma within_segment B e lo m b g :
  0 < lo -> lo <= m <= b ->
  within B (fin lo e) g = true -> within B (fin b e) g = true ->
  within B (fin m e) g = true.
Proof.
  intros Hlo Hm Ha Hb.
  destruct g as [| | | [] mg eg]; try (cbn in Ha; discriminate).
  unfold fin in *.
  apply within_val in Ha as [Hc Ha]. apply within_val in Hb as [_ Hb].
  apply within_val. split; [exact Hc |].
  change (S754_finite false (Z.to_pos lo) e) with (fin lo e) in *.
  change (S754_finite false (Z.to_pos b) e) with (fin b e) in *.
  change (S754_finite false (Z.to_pos m) e) with (fin m e) in *.
  rewrite val_fin in * by lia.
  assert (Hp : 0 <= 2 ^ (e + 149)) by (apply Z.pow_nonneg; lia).
  set (G := val (S754_finite false mg eg)) in *.
  assert (lo * 2 ^ (e + 149) <= m * 2 ^ (e + 149)) by nia.
  assert (m * 2 ^ (e + 149) <= b * 2 ^ (e + 149)) by nia.
  assert (Hcase : Z.abs (G - m * 2 ^ (e + 149)) <= Z.abs (G - lo * 2 ^ (e + 149)) \/
                  Z.abs (G - m * 2 ^ (e + 149)) <= Z.abs (G - b * 2 ^ (e + 149)))
    by lia.
  destruct Hcase as [Hc' | Hc'];
    (eapply Z.le_trans; [apply Z.mul_le_mono_nonneg_r; [lia | exact Hc'] | assumption]).
Qed.

Section SegmentProofs.

Variable off : option float.
Variable sc : float.
Variable rmax : Z.
Variable tol : Q.

Lemma quot_segment e lo b m :
  seg_ok off sc rmax tol e lo b = true -> 2 ^ 23 <= lo -> b < 2 ^ 24 -> lo <= m <= b ->
  F32.trunc (quotient off sc (fin m e)) = F32.trunc (quotient off sc (fin lo e)).
Proof.
  intros Hok Hlo Hb Hm. unfold seg_ok in Hok. cbv zeta in Hok.
  apply andb_true_iff in Hok as [Hok Hrest].
  destruct (Z.eqb_spec lo b) as [E | Hne].
  { assert (m = lo) by lia. now subst m. }
  cbn [orb] in Hrest. unfold quotient, shifted in *.
  destruct sc as [| | | [] ms es]; try discriminate.
  apply andb_true_iff in Hrest as [Hrest Hoff].
  apply andb_true_iff in Hrest as [Hrest Heq].
  apply andb_true_iff in Hrest as [Hms1 Hms2].
  apply opt_eqb_eq in Heq.
  destruct off as [[| | | [] mo eo] |]; try discriminate.
  - (* with an offset *)
    apply andb_true_iff in Hoff as [Hoff Hsub].
    apply andb_true_iff in Hoff as [Hoff Hpos].
    apply andb_true_iff in Hoff as [Hz He].
    rewrite !fin_pos in *.
    destruct (F32.sub (fin lo e) (fin (Zpos mo) eo)) as [| | | [] p1 e1] eqn:S1;
      try discriminate.
    destruct (F32.sub (fin b e) (fin (Zpos mo) eo)) as [| | | [] p2 e2] eqn:S2;
      try discriminate.
    apply andb_true_iff in Hsub as [Hsub Hhi].
    apply andb_true_iff in Hsub as [Hsame Hlow].
    assert (e2 = e1) by lia. subst e2.
    rewrite !fin_pos in *.
    destruct (sub_segment lo m b e (Zpos mo) eo (Zpos p1) (Zpos p2) e1)
      as (M & EM & HM & HM1 & HM2 & HE); try lia; try assumption.
    rewrite EM.
    apply div_segment with (m2 := Zpos p2); try lia. exact Heq.
  - (* without *)
    apply andb_true_iff in Hoff as [Hlow Hhi].
    rewrite !fin_pos in *.
    apply div_segment with (m2 := b); try lia. exact Heq.
Qed.

Lemma seg_sound e lo b m :
  seg_ok off sc rmax tol e lo b = true -> 2 ^ 23 <= lo -> b < 2 ^ 24 -> lo <= m <= b ->
  good_at off sc rmax tol (fin m e) = true.
Proof.
  intros Hok Hlo Hb Hm.
  pose proof (quot_segment e lo b m Hok Hlo Hb Hm) as Eq.
  pose proof (quot_segment e lo b b Hok Hlo Hb ltac:(lia)) as Eqb.
  unfold seg_ok in Hok. cbv zeta in Hok.
  apply andb_true_iff in Hok as [Hok _].
  apply andb_true_iff in Hok as [Hok Hgb].
  apply andb_true_iff in Hok as [_ Hgl].
  fold (quotient off sc (fin lo e)) in Hgl. fold (quotient off sc (fin b e)) in Hgb.
  unfold good_at. rewrite Eq. rewrite Eqb in Hgb.
  unfold good_with in *.
  destruct (F32.trunc (quotient off sc (fin lo e))) as [k |]; [| discriminate].
  apply andb_true_iff in Hgl as [Hk Hgl]. apply andb_true_iff in Hgb as [_ Hgb].
  rewrite Hk. cbn [andb].
  apply (within_segment tol e lo m b); try lia; assumption.
Qed.

Lemma walk_sound fuel e lo hi :
  walk off sc rmax tol fuel e lo hi = true -> 2 ^ 23 <= lo -> hi < 2 ^ 24 ->
  forall m, lo <= m <= hi -> good_at off sc rmax tol (fin m e) = true.
Proof.
  revert lo. induction fuel as [| f IH]; intros lo Hw Hlo Hhi m Hm; cbn [walk] in Hw.
  - apply Z.ltb_lt in Hw. lia.
  - destruct (Z.ltb_spec hi lo); [lia |].
    destruct (seg_ok off sc rmax tol e lo (seg_end off sc e lo hi)) eqn:Hseg;
      [| discriminate].
    destruct (Z.leb_spec (seg_end off sc e lo hi) hi) as [Hb |]; [| discriminate].
    assert (Hlb : lo <= seg_end off sc e lo hi).
    { unfold seg_ok in Hseg. cbv zeta in Hseg.
      apply andb_true_iff in Hseg as [Hseg _].
      apply andb_true_iff in Hseg as [Hseg _].
      apply andb_true_iff in Hseg as [Hseg _]. lia. }
    destruct (Z_le_gt_dec m (seg_end off sc e lo hi)) as [Hin | Hout].
    + apply (seg_sound e lo (seg_end off sc e lo hi)); try lia. exact Hseg.
    + apply (IH (seg_end off sc e lo hi + 1)); try lia. exact Hw.
Qed.

End SegmentProofs.


Lemma to_Q_scaled m e c :
  c <= 0 -> c <= e ->
  (F32.to_Q (S754_finite false m e) == (Zpos m * 2 ^ (e - c)) # (Z.to_pos (2 ^ (- c))))%Q.
Proof.
  intros Hc He. unfold F32.to_Q. cbn [cond_Zopp].
  assert (Hp : 0 < 2 ^ (- c)) by (apply Z.pow_pos_nonneg; lia).
  rewrite (Qmake_Qdiv (Zpos m * 2 ^ (e - c)) (Z.to_pos (2 ^ (- c)))).
  rewrite Z2Pos.id by assumption.
  rewrite inject_Z_mult, !Zpower_Qpower by lia.
  change (inject_Z 2) with (2 # 1)%Q.
  replace e with ((e - c) + c) at 1 by lia.
  rewrite Qpower_plus by discriminate.
  replace c with (- - c) at 2 by lia.
  rewrite (Qpower_opp (2 # 1) (- c)).
  unfold Qdiv. ring.
Qed.

Lemma within_Q B x g :
  within B x g = true -> (Qabs (F32.to_Q g - F32.to_Q x) <= B)%Q.
Proof.
  destruct x as [| | | [] mx ex]; try (cbn; discriminate).
  destruct g as [| | | [] mg eg]; try (cbn; discriminate).
  unfold within. set (c := Z.min ex eg).
  rewrite !andb_true_iff, !Z.leb_le. intros [[H1 H2] H3].
  rewrite (to_Q_scaled mg eg c), (to_Q_scaled mx ex c) by lia.
  set (p := Z.to_pos (2 ^ (- c))).
  assert (Hp : Zpos p = 2 ^ (- c))
    by (unfold p; apply Z2Pos.id, Z.pow_pos_nonneg; lia).
  assert (E : (((Zpos mg * 2 ^ (eg - c)) # p) - ((Zpos mx * 2 ^ (ex - c)) # p)
               == (Zpos mg * 2 ^ (eg - c) - Zpos mx * 2 ^ (ex - c)) # p)%Q).
  { unfold Qeq, Qminus, Qplus, Qopp. cbn [Qnum Qden]. rewrite Pos2Z.inj_mul. ring. }
  rewrite E. destruct B as [num den]. unfold Qabs, Qle. cbn [Qnum Qden] in *.
  rewrite Hp. exact H3.
Qed.


(** A valid float between two positive finite bounds is a positive float of
    24 digits whose exponent and mantissa lie between those of the bounds. *)
Lemma in_range_normal m1 e1 m2 e2 x :
  F32.valid x = true -> -149 < e1 ->
  F32.leb (S754_finite false m1 e1) x = true ->
  F32.leb x (S754_finite false m2 e2) = true ->
  exists m e, x = fin m e /\ 2 ^ 23 <= m < 2 ^ 24 /\ e1 <= e <= e2 /\
              (e = e1 -> Zpos m1 <= m) /\ (e = e2 -> m <= Zpos m2).
Proof.
  intros Hv He1 Hlo Hhi.
  destruct x as [sx | sx | | sx m e]; unfold F32.leb, SFleb, SFcompare in Hlo, Hhi.
  - destruct sx; discriminate.
  - destruct sx; discriminate.
  - discriminate.
  - destruct sx; [discriminate |].
    change (Pos.compare_cont Eq m1 m) with (Pos.compare m1 m) in Hlo.
    change (Pos.compare_cont Eq m m2) with (Pos.compare m m2) in Hhi.
    assert (Hl : e1 < e \/ (e1 = e /\ (m1 <= m)%positive)).
    { destruct (Z.compare_spec e1 e); [| now left | discriminate].
      right. split; [assumption |].
      destruct (Pos.compare_spec m1 m); try discriminate; lia. }
    assert (Hh : e < e2 \/ (e = e2 /\ (m <= m2)%positive)).
    { destruct (Z.compare_spec e e2); [| now left | discriminate].
      right. split; [assumption |].
      destruct (Pos.compare_spec m m2); try discriminate; lia. }
    unfold F32.valid, valid_binary, bounded, canonical_mantissa, fexp, emin,
      F32.prec, F32.emax in Hv.
    apply andb_true_iff in Hv as [Hc _]. apply Z.eqb_eq in Hc.
    assert (Hd : Zdigits2 (Zpos m) = 24) by (cbn [Zdigits2]; lia).
    destruct (Zdigits2_spec (Zpos m) ltac:(lia)) as (_ & Hdl & Hdh).
    rewrite Hd in Hdl, Hdh.
    exists (Zpos m), e. split; [reflexivity |]. split; [cbn in *; lia |].
    split; [lia |]. split; intros; lia.
Qed.

(** What the checker establishes. *)
Lemma check_setting_sound s x :
  check_setting s = true ->
  F32.valid x = true ->
  F32.leb (minValue s) x = true -> F32.leb x (maxValue s) = true ->
  good_at (offset s) (scale s) (rawMax (lin_field s)) (tolerance s) x = true.
Proof.
  unfold check_setting. intros Hc Hv Hlo Hhi.
  destruct (minValue s) as [| | | [] m1 e1]; try discriminate.
  destruct (maxValue s) as [| | | [] m2 e2]; try discriminate.
  apply andb_true_iff in Hc as [Hc Hall].
  apply andb_true_iff in Hc as [Hc He1].
  apply andb_true_iff in Hc as [Hm1 Hm2].
  apply Z.ltb_lt in He1.
  destruct (in_range_normal m1 e1 m2 e2 x Hv He1 Hlo Hhi)
    as (m & e & -> & Hm & He & Hml & Hmh).
  pose proof (all_below_spec _ _ Hall (e - e1) ltac:(lia)) as Hw. cbv beta zeta in Hw.
  replace (e1 + (e - e1)) with e in Hw by lia.
  apply (walk_sound _ _ _ _ _ _ _ _ Hw).
  - destruct (Z.eqb_spec e e1); lia.
  - destruct (Z.eqb_spec e e2); lia.
  - destruct (Z.eqb_spec e e1), (Z.eqb_spec e e2); lia.
Qed.

Lemma check_setting_all s : check_setting s = true.
Proof. destruct s; vm_compute; reflexivity. Qed.

Lemma leb_not_ltb a b : F32.leb a b = true -> F32.ltb b a = false.
Proof.
  unfold F32.leb, F32.ltb, SFleb, SFltb.
  destruct a as [sa | sa | | sa ma ea], b as [sb | sb | | sb mb eb]; cbn [SFcompare];
    try destruct sa; try destruct sb; try discriminate; try reflexivity;
    change (Pos.compare_cont Eq ma mb) with (Pos.compare ma mb);
    change (Pos.compare_cont Eq mb ma) with (Pos.compare mb ma);
    destruct (Z.compare_spec ea eb), (Z.compare_spec eb ea); try lia;
    try discriminate; try reflexivity;
    destruct (Pos.compare_spec ma mb), (Pos.compare_spec mb ma); try lia;
    cbn [CompOpp]; try discriminate; reflexivity.
Qed.

(** An input the checker is happy with is encoded without any help from
    the clamp or from the undefined cases of the conversion. *)
Lemma good_at_encode ub s x :
  good_at (offset s) (scale s) (rawMax (lin_field s)) (tolerance s) x = true ->
  0 <= encode ub s x <= rawMax (lin_field s) /\
  within (tolerance s) x (decode s (encode ub s x)) = true.
Proof.
  unfold good_at, good_with, encode, float_to_uint.
  change (quotient (offset s) (scale s) x)
    with (F32.div match offset s with Some o => F32.sub x o | None => x end (scale s)).
  destruct (F32.trunc _) as [k |]; [| discriminate].
  intros H. apply andb_true_iff in H as [H Hw].
  apply andb_true_iff in H as [H0 H1]. apply Z.leb_le in H0, H1.
  assert (Hb : rawMax (lin_field s) < 2 ^ raw_type_bits s) by (destruct s; cbn; lia).
  destruct (Z.leb_spec 0 k); [| lia].
  destruct (Z.ltb_spec k (2 ^ raw_type_bits s)); [| lia]. cbn [andb].
  destruct (Z.gtb_spec k (rawMax (lin_field s))); [lia |].
  split; [lia | exact Hw].
Qed.


(** ** Round trip through a linear-scaled field *)

(** C2, amended: for every linear-scaled setting and every binary32 input
    between its minimum and maximum, on a responsive device, the setter
    accepts and the getter then returns a value within one encoding step of
    the input, to which binary32 rounding adds at most 2^-22 for the two
    settings with a 10 mV step in an eleven-bit field (charge voltage limit,
    OTG voltage) and nothing for the other eight. *)
Theorem C2_round_trip_within_tolerance (hdr : Header) (ub : float -> Z)
    (s : LinearSetting) (x : float) (d : Device) :
  acks d = true -> F32.valid x = true ->
  F32.leb (minValue s) x = true -> F32.leb x (maxValue s) = true ->
  fst (run hdr ub (lin_call s x) d) = true /\
  (Qabs (F32.to_Q (fst (lin_get s (snd (run hdr ub (lin_call s x) d)))) - F32.to_Q x)
   <= tolerance s)%Q.
Proof.
  intros Ha Hv Hlo Hhi.
  pose proof (check_setting_sound s x (check_setting_all s) Hv Hlo Hhi) as Hgood.
  destruct (good_at_encode ub s x Hgood) as [Hr Hw].
  rewrite lin_run, (leb_not_ltb _ _ Hlo), (leb_not_ltb _ _ Hhi). cbn [orb fst snd].
  split; [reflexivity |].
  rewrite lin_get_run by (now rewrite write_field_acks).
  rewrite <- (lin_target s x) at 1.
  rewrite write_field_regs by (apply target_ok || assumption).
  rewrite lin_target, Z.mod_small by (unfold rawMax in Hr; lia).
  now apply within_Q.
Qed.

(** C2 as stated fails: the binary32 number next below 16.04 V lies in
    range for the charge voltage limit, is stored as 1603 and read back as
    16.03 V rounded down, more than 0.01 V below the input. *)
Lemma C2_counterexample :
  let x := S754_finite false 8409579 (-19) in
  F32.valid x = true /\
  F32.leb (minValue ChargeLimitV) x = true /\
  F32.leb x (maxValue ChargeLimitV) = true /\
  fst (setChargeLimitV sample_ub x sample_device) = true /\
  ~ (Qabs (F32.to_Q (fst (getChargeLimitV (snd (setChargeLimitV sample_ub x sample_device))))
           - F32.to_Q x) <= step ChargeLimitV)%Q.
Proof.
  cbv zeta. repeat split; try (vm_compute; reflexivity).
  intros H. apply Qle_bool_iff in H. vm_compute in H. discriminate.
Qed.

(** ** How calls compose *)

(** Whether a call accepts its argument, and the value it then writes,
    depend on the argument alone. *)
Lemma run_uniform hdr ub c :
  (forall d, run hdr ub c d = (false, d)) \/
  (exists x, forall d, run hdr ub c d = (true, snd (write_field c x d))).
Proof.
  destruct c; unfold run, write_field; autounfold with setters; cbv zeta;
    try match goal with
        | |- context [if ?g then ret false else _] => destruct g
        end;
    first
      [ left; intros d; reflexivity
      | right; eexists; intros d; apply then_true ].
Qed.

Lemma write_field_bus c x d :
  acks (snd (write_field c x d)) = acks d /\
  nack_value (snd (write_field c x d)) = nack_value d.
Proof.
  destruct c; unfold write_field, RegisterBits_write, Register_read, Register_write,
    bind, log; simpl; destruct (acks d) eqn:E; simpl; auto.
Qed.

Lemma run_bus hdr ub c d :
  acks (snd (run hdr ub c d)) = acks d /\
  nack_value (snd (run hdr ub c d)) = nack_value d.
Proof.
  destruct (run_uniform hdr ub c) as [E | [x E]]; rewrite E; cbn [snd];
    [split; reflexivity | apply write_field_bus].
Qed.

(** Bits of the word that a field write stores. *)
Lemma merge_bits t old x i :
  field_ok t -> 0 <= i ->
  Z.testbit (merge_field t old x) i =
  if (bits_shift t <=? i) && (i <? bits_shift t + bits_count t)
  then Z.testbit x (i - bits_shift t) else Z.testbit old i.
Proof.
  intros Hok Hi.
  destruct (Z.leb_spec (bits_shift t) i) as [Hle | Hlt];
    destruct (Z.ltb_spec i (bits_shift t + bits_count t)) as [Hin | Hout]; cbn [andb].
  - replace i with (bits_shift t + (i - bits_shift t)) at 1 by lia.
    apply merge_field_inside; [assumption | lia].
  - apply merge_field_outside; [assumption | assumption | lia].
  - apply merge_field_outside; [assumption | assumption | lia].
  - apply merge_field_outside; [assumption | assumption | lia].
Qed.

Lemma mod_pow2_bits w v i :
  0 <= w -> 0 <= i ->
  Z.testbit (v mod 2 ^ w) i = if i <? w then Z.testbit v i else false.
Proof.
  intros Hw Hi. destruct (Z.ltb_spec i w).
  - apply Z.mod_pow2_bits_low. lia.
  - apply Z.mod_pow2_bits_high. lia.
Qed.

Lemma stored_word_bits t v x i :
  field_ok t -> 0 <= i ->
  Z.testbit (merge_field t (v mod 2 ^ width_bits t) x mod 2 ^ width_bits t) i =
  if i <? width_bits t
  then if (bits_shift t <=? i) && (i <? bits_shift t + bits_count t)
       then Z.testbit x (i - bits_shift t) else Z.testbit v i
  else false.
Proof.
  intros Hok Hi. pose proof Hok as (Hs & Hn & Hfit).
  assert (Hw : 0 <= width_bits t) by (unfold width_bits; lia).
  rewrite mod_pow2_bits by assumption.
  destruct (Z.ltb_spec i (width_bits t)) as [Hlt | Hge]; [| reflexivity].
  rewrite merge_bits by assumption.
  destruct ((bits_shift t <=? i) && (i <? bits_shift t + bits_count t)); [reflexivity |].
  rewrite mod_pow2_bits by assumption.
  destruct (Z.ltb_spec i (width_bits t)); [reflexivity | lia].
Qed.

(** The register file after the write a call performs. *)
Lemma write_field_store c x d a :
  regs (snd (write_field c x d)) a =
  if acks d then store_field (target c) x (regs d) a else regs d a.
Proof.
  assert (Hbits : write_field c x = RegisterBits_write (target c) x ->
                  regs (snd (write_field c x d)) a =
                  if acks d then store_field (target c) x (regs d) a else regs d a).
  { intros ->. rewrite RegisterBits_write_regs. now destruct (acks d). }
  destruct c; try (apply Hbits; reflexivity).
  unfold write_field. rewrite Register_write_regs.
  destruct (acks d); [| reflexivity].
  unfold store_field.
  set (t := target (call_setInputLimitV x0)).
  change (reg_addr (bits_register t)) with (field_addr t).
  change (8 * reg_width (bits_register t)) with (width_bits t).
  replace (merge_field t (regs d (field_addr t) mod 2 ^ width_bits t) x mod 2 ^ width_bits t)
    with (x mod 2 ^ width_bits t); [reflexivity |].
  apply Z.bits_inj'. intros i Hi.
  rewrite stored_word_bits by (apply target_ok || assumption).
  rewrite mod_pow2_bits by (assumption || (unfold width_bits; simpl; lia)).
  change (width_bits t) with 8. change (bits_shift t) with 0. change (bits_count t) with 8.
  destruct (Z.ltb_spec i 8); [| reflexivity].
  destruct (Z.leb_spec 0 i); [| lia]. cbn [andb Z.add].
  destruct (Z.ltb_spec i 8); [| lia]. now rewrite Z.sub_0_r.
Qed.

Lemma store_field_bits t x f a i :
  field_ok t -> 0 <= i ->
  Z.testbit (store_field t x f a) i =
  if RegAddr_eq_dec (field_addr t) a
  then if i <? width_bits t
       then if (bits_shift t <=? i) && (i <? bits_shift t + bits_count t)
            then Z.testbit x (i - bits_shift t) else Z.testbit (f a) i
       else false
  else Z.testbit (f a) i.
Proof.
  intros Hok Hi. unfold store_field, set_reg.
  destruct (RegAddr_eq_dec (field_addr t) a) as [<- | Hne]; [| reflexivity].
  now apply stored_word_bits.
Qed.

Lemma field_eqb_eq t u : field_eqb t u = true -> t = u.
Proof.
  destruct t as [[a w o] n s], u as [[a' w' o'] n' s'].
  unfold field_eqb, field_addr; cbn.
  destruct (RegAddr_eq_dec a a') as [-> |]; [| discriminate]. cbn.
  destruct (Z.eqb_spec w w') as [-> |]; [| discriminate]. cbn.
  destruct (Z.eqb_spec n n') as [-> |]; [| destruct o, o'; discriminate].
  destruct (Z.eqb_spec s s') as [-> |]; [| destruct o, o'; discriminate].
  destruct o, o'; discriminate || reflexivity.
Qed.

Lemma fields_separate_holds : fields_separate = true.
Proof. vm_compute. reflexivity. Qed.

Lemma separate_fields t u :
  In t all_fields -> In u all_fields -> t = u \/ apart t u = true.
Proof.
  intros Ht Hu. pose proof fields_separate_holds as H. unfold fields_separate in H.
  rewrite forallb_forall in H. specialize (H t Ht).
  rewrite forallb_forall in H. specialize (H u Hu).
  apply orb_true_iff in H as [H | H]; [left; now apply field_eqb_eq | now right].
Qed.

Lemma setting_in_all (s : Setting) : In s all_settings.
Proof.
  unfold all_settings. rewrite !in_app_iff.
  destruct s as [l | e | f | f];
    [left | right; left | right; right; left | right; right; right];
    apply in_map; [destruct l | destruct e | destruct f | destruct f];
    cbn; repeat (first [left; reflexivity | right]).
Qed.

Lemma setting_field_listed (s : Setting) : In (setting_field s) all_fields.
Proof. unfold all_fields. apply in_or_app. left. apply in_map, setting_in_all. Qed.

(** The field a call addresses is that of a setting, or one of the two
    one-shot bits. *)
Lemma target_of_setting (c : Call) :
  (exists s, target c = setting_field s) \/
  target c = target call_resetWDT \/ target c = target call_reset.
Proof.
  destruct c;
    try (right; left; reflexivity); try (right; right; reflexivity); left;
    let rec go l :=
      match l with
      | ?s :: ?r => first [ exists s; reflexivity | go r ]
      end in
    let l := eval cbv in all_settings in go l.
Qed.

Lemma target_listed (c : Call) : In (target c) all_fields.
Proof.
  destruct (target_of_setting c) as [[s ->] | [-> | ->]].
  - apply setting_field_listed.
  - unfold all_fields. apply in_or_app. right. now left.
  - unfold all_fields. apply in_or_app. right. right. now left.
Qed.

Lemma store_field_again t x y f a :
  field_ok t -> store_field t y (store_field t x f) a = store_field t y f a.
Proof.
  intros Hok. apply Z.bits_inj'. intros i Hi.
  rewrite !store_field_bits by assumption.
  destruct (RegAddr_eq_dec (field_addr t) a); [| reflexivity].
  destruct (i <? width_bits t); [| reflexivity].
  now destruct ((bits_shift t <=? i) && (i <? bits_shift t + bits_count t)).
Qed.

Lemma store_field_swap t u x y f a :
  field_ok t -> field_ok u -> apart t u = true ->
  store_field u y (store_field t x f) a = store_field t x (store_field u y f) a.
Proof.
  intros Ht Hu Hap. apply Z.bits_inj'. intros i Hi.
  rewrite !store_field_bits by assumption.
  unfold apart in Hap.
  destruct (RegAddr_eq_dec (field_addr t) (field_addr u)) as [E | N].
  - apply andb_true_iff in Hap as [Hw Hr]. apply Z.eqb_eq in Hw.
    rewrite E, Hw.
    destruct (RegAddr_eq_dec (field_addr u) a); [| reflexivity].
    destruct (i <? width_bits u); [| reflexivity].
    apply orb_true_iff in Hr.
    destruct (Z.leb_spec (bits_shift u) i), (Z.ltb_spec i (bits_shift u + bits_count u)),
             (Z.leb_spec (bits_shift t) i), (Z.ltb_spec i (bits_shift t + bits_count t));
      cbn [andb]; try reflexivity;
      destruct Hr as [Hr | Hr]; apply Z.leb_le in Hr; lia.
  - destruct (RegAddr_eq_dec (field_addr u) a) as [Ea | Na];
      destruct (RegAddr_eq_dec (field_addr t) a) as [Ea' | Na']; try congruence;
      reflexivity.
Qed.

Lemma store_field_ext t y F G a :
  F (field_addr t) = G (field_addr t) -> F a = G a ->
  store_field t y F a = store_field t y G a.
Proof.
  intros Ht Ha. unfold store_field, set_reg.
  destruct (RegAddr_eq_dec (field_addr t) a); [now rewrite Ht | exact Ha].
Qed.

Lemma run_stores hdr ub c :
  (forall d, run hdr ub c d = (false, d)) \/
  (exists x, (forall d, fst (run hdr ub c d) = true) /\ stores hdr ub c x).
Proof.
  destruct (run_uniform hdr ub c) as [E | [x E]]; [now left | right].
  exists x. split; intros d; [| intros a]; rewrite E; [reflexivity |].
  apply write_field_store.
Qed.

Lemma stores_twice hdr ub c1 c2 x y d a :
  stores hdr ub c1 x -> stores hdr ub c2 y ->
  regs (snd (run hdr ub c2 (snd (run hdr ub c1 d)))) a =
  if acks d then store_field (target c2) y (store_field (target c1) x (regs d)) a
  else regs d a.
Proof.
  intros H1 H2. rewrite H2.
  destruct (run_bus hdr ub c1 d) as [-> _].
  destruct (acks d) eqn:Ha.
  - apply store_field_ext; now rewrite H1, Ha.
  - now rewrite H1, Ha.
Qed.

(** X2: calls on one and the same field: the later one decides.  After any
    call, a call that is accepted leaves the registers as it would have
    without the earlier one; in particular repeating a call changes no
    register. *)
Theorem later_call_on_same_field_wins (hdr : Header) (ub : float -> Z)
    (c1 c2 : Call) (d : Device) (a : RegAddr) :
  target c1 = target c2 ->
  fst (run hdr ub c2 d) = true ->
  regs (snd (run hdr ub c2 (snd (run hdr ub c1 d)))) a = regs (snd (run hdr ub c2 d)) a.
Proof.
  intros Ht Hacc.
  destruct (run_stores hdr ub c2) as [E2 | (y & _ & H2)].
  { rewrite E2 in Hacc. discriminate. }
  destruct (run_stores hdr ub c1) as [E1 | (x & _ & H1)].
  - now rewrite E1.
  - rewrite (stores_twice hdr ub c1 c2 x y d a H1 H2), H2.
    destruct (acks d); [| reflexivity].
    rewrite Ht. apply store_field_again, target_ok.
Qed.

(** X3: calls on different fields commute: whichever comes first, the
    registers end up the same.  [reset] is left aside: its bit makes the
    chip restore every register to its default, which a later or an earlier
    setter does not survive alike. *)
Theorem calls_on_different_fields_commute (hdr : Header) (ub : float -> Z)
    (c1 c2 : Call) (d : Device) (a : RegAddr) :
  c1 <> call_reset -> c2 <> call_reset ->
  target c1 <> target c2 ->
  regs (snd (run hdr ub c2 (snd (run hdr ub c1 d)))) a =
  regs (snd (run hdr ub c1 (snd (run hdr ub c2 d)))) a.
Proof.
  intros _ _ Hne.
  assert (Hap : apart (target c1) (target c2) = true).
  { destruct (separate_fields (target c1) (target c2) (target_listed c1) (target_listed c2));
      [contradiction | assumption]. }
  destruct (run_stores hdr ub c1) as [E1 | (x & _ & H1)];
    destruct (run_stores hdr ub c2) as [E2 | (y & _ & H2)].
  - now rewrite !E1, !E2.
  - now rewrite !E1.
  - now rewrite !E2.
  - rewrite (stores_twice hdr ub c1 c2 x y d a H1 H2),
            (stores_twice hdr ub c2 c1 y x d a H2 H1).
    destruct (acks d); [| reflexivity].
    apply store_field_swap; try apply target_ok. exact Hap.
Qed.

(** ** Getters *)

(** What [RegisterBits_read] hands back for field [t]. *)
Lemma RegisterBits_read_run t d :
  RegisterBits_read t d =
  (Z.land (Z.shiftr ((if acks d then regs d (field_addr t) else nack_value d)
                       mod 2 ^ width_bits t) (bits_shift t))
          (Z.ones (bits_count t)),
   log (BusRead (field_addr t) (reg_width (bits_register t))) d).
Proof. reflexivity. Qed.

Lemma land_ones_small v s n w :
  0 <= n <= w -> Z.land (Z.shiftr v s) (Z.ones n) mod 2 ^ w = Z.land (Z.shiftr v s) (Z.ones n).
Proof.
  intros Hn. rewrite Z.land_ones by lia.
  pose proof (Z.mod_pos_bound (Z.shiftr v s) (2 ^ n) ltac:(apply Z.pow_pos_nonneg; lia)).
  assert (2 ^ n <= 2 ^ w) by (apply Z.pow_le_mono_r; lia).
  apply Z.mod_small. lia.
Qed.

Lemma land_one_bit v s :
  Z.land (Z.shiftr v s) (Z.ones 1) = 0 \/ Z.land (Z.shiftr v s) (Z.ones 1) = 1.
Proof.
  rewrite Z.land_ones by lia. change (2 ^ 1) with 2.
  pose proof (Z.mod_pos_bound (Z.shiftr v s) 2 ltac:(lia)). lia.
Qed.

Lemma setting_field_ok (s : Setting) : field_ok (setting_field s).
Proof. destruct s; apply target_ok. Qed.

(** Every getter is one read of its field, followed by a conversion of the
    value read. *)
Lemma get_run (s : Setting) (d : Device) :
  get s d =
  (reading_of s (fst (RegisterBits_read (setting_field s) d)),
   log (BusRead (field_addr (setting_field s))
                (reg_width (bits_register (setting_field s)))) d).
Proof.
  rewrite RegisterBits_read_run. cbn [fst].
  destruct s as [l | e | f | f].
  - destruct l; unfold get, lin_get;
      match goal with |- (_ <- ?g ;; _) d = _ => unfold g end;
      cbv zeta; unfold bind, ret;
      first [ rewrite RegisterBits_read_run | unfold Register_read ];
      cbv [reading_of decode offset scale];
      unfold uint8_t, uint16_t;
      cbv [setting_field lin_field lin_call target field_addr width_bits bits_register
           bits_count bits_shift reg_addr reg_width];
      rewrite ?land_ones_small by lia;
      try reflexivity.
    rewrite Z.shiftr_0_r, Z.land_ones, !Z.mod_mod by lia. reflexivity.
  - destruct e; unfold get, enum_get;
      match goal with |- (_ <- ?g ;; _) d = _ => unfold g end;
      cbv zeta; unfold bind, ret;
      rewrite RegisterBits_read_run;
      cbv [reading_of]; unfold uint8_t;
      cbv [setting_field enum_call target field_addr width_bits bits_register
           bits_count bits_shift reg_addr reg_width];
      rewrite ?land_ones_small by lia;
      reflexivity.
  - destruct f; unfold get, inv_get;
      match goal with |- (_ <- ?g ;; _) d = _ => unfold g end;
      cbv zeta; unfold bind, ret;
      rewrite RegisterBits_read_run;
      reflexivity.
  - destruct f; unfold get, flag_get;
      match goal with |- (_ <- ?g ;; _) d = _ => unfold g end;
      cbv zeta; unfold bind, ret;
      rewrite RegisterBits_read_run;
      cbv [reading_of]; unfold uint_to_bool;
      cbv [setting_field flag_call target field_addr width_bits bits_register
           bits_count bits_shift reg_addr reg_width];
      try reflexivity;
      match goal with
      | |- context [Z.land (Z.shiftr ?v ?s) (Z.ones 1)] =>
          destruct (land_one_bit v s) as [-> | ->]; reflexivity
      end.
Qed.

(** X5: every getter performs exactly one bus transaction, a read of the
    register of its setting, and writes nothing: registers, responsiveness
    and all earlier transactions are as before. *)
Theorem getters_only_read (s : Setting) (d : Device) :
  regs (snd (get s d)) = regs d /\
  acks (snd (get s d)) = acks d /\
  trace (snd (get s d)) =
    BusRead (field_addr (setting_field s)) (reg_width (bits_register (setting_field s)))
    :: trace d /\
  (acks d = true -> fst (get s d) = reading_of s (field_of (setting_field s) (regs d))).
Proof.
  rewrite get_run. cbn [fst snd]. repeat split.
  intros Ha. now rewrite RegisterBits_read_value.
Qed.

Lemma field_of_bits t f j :
  field_ok t -> 0 <= j ->
  Z.testbit (field_of t f) j =
  if j <? bits_count t then Z.testbit (f (field_addr t)) (j + bits_shift t) else false.
Proof.
  intros (Hs & Hn & Hfit) Hj. unfold field_of.
  rewrite Z.land_spec, Z.shiftr_spec by assumption.
  destruct (Z.ltb_spec j (bits_count t)).
  - rewrite Z.testbit_ones_nonneg by lia.
    destruct (Z.ltb_spec j (bits_count t)); [| lia].
    rewrite andb_true_r. apply Z.mod_pow2_bits_low. unfold width_bits. lia.
  - rewrite Z.testbit_ones_nonneg by lia.
    destruct (Z.ltb_spec j (bits_count t)); [lia |]. apply andb_false_r.
Qed.

(** A field keeps its contents when a field apart from it is written. *)
Lemma field_of_store_apart u t x f :
  field_ok u -> field_ok t -> apart u t = true ->
  field_of t (store_field u x f) = field_of t f.
Proof.
  intros Hu Ht Hap. pose proof Ht as (Hs & Hn & Hfit).
  apply Z.bits_inj'. intros j Hj.
  rewrite !field_of_bits by assumption.
  destruct (Z.ltb_spec j (bits_count t)) as [Hin |]; [| reflexivity].
  rewrite store_field_bits by (assumption || lia).
  unfold apart in Hap.
  destruct (RegAddr_eq_dec (field_addr u) (field_addr t)) as [E | N]; [| reflexivity].
  apply andb_true_iff in Hap as [Hw Hr]. apply Z.eqb_eq in Hw.
  apply orb_true_iff in Hr.
  destruct (Z.ltb_spec (j + bits_shift t) (width_bits u)); [| unfold width_bits in *; lia].
  destruct (Z.leb_spec (bits_shift u) (j + bits_shift t)),
           (Z.ltb_spec (j + bits_shift t) (bits_shift u + bits_count u));
    cbn [andb]; try reflexivity.
  destruct Hr as [Hr | Hr]; apply Z.leb_le in Hr; lia.
Qed.

Lemma field_of_ext t f g :
  f (field_addr t) = g (field_addr t) -> field_of t f = field_of t g.
Proof. intros E. unfold field_of. now rewrite E. Qed.

Lemma RegisterBits_read_any t d :
  fst (RegisterBits_read t d) =
  if acks d then field_of t (regs d) else field_of t (fun _ => nack_value d).
Proof. rewrite RegisterBits_read_run. cbn [fst]. now destruct (acks d). Qed.

(** X4: a call other than [reset] changes the reading of no setting but
    its own: whatever the call and its argument, the getter of every
    setting with another field returns afterwards what it returned before.
    ([reset] is meant to change them all: its bit makes the chip restore
    every register to its default.) *)
Theorem call_changes_no_other_setting (hdr : Header) (ub : float -> Z)
    (c : Call) (s : Setting) (d : Device) :
  c <> call_reset ->
  target c <> setting_field s ->
  fst (get s (snd (run hdr ub c d))) = fst (get s d).
Proof.
  intros _ Hne.
  assert (Hap : apart (target c) (setting_field s) = true).
  { destruct (separate_fields (target c) (setting_field s)
                (target_listed c) (setting_field_listed s));
      [contradiction | assumption]. }
  rewrite !get_run. cbn [fst]. f_equal.
  rewrite !RegisterBits_read_any.
  destruct (run_bus hdr ub c d) as [-> ->].
  destruct (acks d) eqn:Ha; [| reflexivity].
  destruct (run_stores hdr ub c) as [E | (x & _ & H)].
  - now rewrite E.
  - rewrite <- (field_of_store_apart (target c) (setting_field s) x (regs d))
      by (apply target_ok || apply setting_field_ok || assumption).
    apply field_of_ext. now rewrite H, Ha.
Qed.

(** ** Order of the raw values *)

Section SweepProofs.

Variable off : option float.
Variable sc : float.
Variable rmax : Z.
Variable tol : Q.
Variables m1 e1 m2 e2 : Z.

Lemma walk_mono_sound fuel :
  forall e lo hi prev last,
    walk_mono off sc rmax tol fuel e lo hi prev = Some last ->
    2 ^ 23 <= lo -> hi < 2 ^ 24 -> ordered_on off sc e lo hi prev last.
Proof.
  induction fuel as [| f IH]; intros e lo hi prev last H Hlo Hhi; cbn [walk_mono] in H.
  - destruct (Z.ltb_spec hi lo) as [Hlt |]; [| discriminate].
    injection H as <-. repeat split; intros; lia.
  - destruct (Z.ltb_spec hi lo) as [Hlt | Hge].
    { injection H as <-. repeat split; intros; lia. }
    cbv zeta in H.
    set (b := seg_end off sc e lo hi) in H.
    destruct (seg_ok off sc rmax tol e lo b) eqn:Hseg; [| discriminate].
    destruct (Z.leb_spec b hi) as [Hb |]; [| discriminate].
    destruct (F32.trunc (quotient off sc (fin lo e))) as [k0 |] eqn:Hk0; [| discriminate].
    destruct (Z.leb_spec prev k0) as [Hp |]; [| discriminate].
    assert (Hlb : lo <= b).
    { unfold seg_ok in Hseg. cbv zeta in Hseg.
      apply andb_true_iff in Hseg as [Hseg _].
      apply andb_true_iff in Hseg as [Hseg _].
      apply andb_true_iff in Hseg as [Hseg _].
      now apply Z.leb_le in Hseg. }
    assert (Hsegv : forall m, lo <= m <= b ->
                              F32.trunc (quotient off sc (fin m e)) = Some k0).
    { intros m Hm. rewrite <- Hk0.
      apply (quot_segment off sc rmax tol e lo b m Hseg); lia. }
    destruct (IH e (b + 1) hi k0 last H ltac:(lia) Hhi) as (Hkl & Hall & Hord).
    split; [lia | split].
    + intros m Hm. destruct (Z.le_gt_cases m b) as [Hin | Hout].
      * exists k0. split; [apply Hsegv; lia | lia].
      * destruct (Hall m ltac:(lia)) as (k & Ek & Hk). exists k. split; [exact Ek | lia].
    + intros m m' k k' Hm Hmm Hm' Ek Ek'.
      destruct (Z.le_gt_cases m' b) as [Hin' | Hout'].
      * rewrite Hsegv in Ek, Ek' by lia. assert (k = k') by congruence. lia.
      * destruct (Z.le_gt_cases m b) as [Hin | Hout].
        -- rewrite Hsegv in Ek by lia. injection Ek as <-.
           destruct (Hall m' ltac:(lia)) as (k2 & Ek2 & Hk2).
           rewrite Ek' in Ek2. injection Ek2 as <-. lia.
        -- apply (Hord m m' k k'); lia || assumption.
Qed.

Hypothesis Hm1 : 2 ^ 23 <= m1.
Hypothesis Hm2 : m2 < 2 ^ 24.

Lemma first_mant_low e : 2 ^ 23 <= first_mant m1 e1 e.
Proof. unfold first_mant. destruct (e =? e1); lia. Qed.

Lemma last_mant_high e : last_mant m2 e2 e < 2 ^ 24.
Proof. unfold last_mant. destruct (e =? e2); lia. Qed.

Lemma sweep_sound fuel n :
  forall e prev last,
    sweep off sc rmax tol m1 e1 m2 e2 fuel n e prev = Some last -> ordered_over off sc m1 e1 m2 e2 n e prev last.
Proof.
  induction n as [| n IH]; intros e prev last H; cbn [sweep] in H.
  - injection H as <-. repeat split; intros; lia.
  - destruct (walk_mono off sc rmax tol fuel e (first_mant m1 e1 e) (last_mant m2 e2 e) prev)
      as [mid |] eqn:Hw; [| discriminate].
    destruct (walk_mono_sound _ _ _ _ _ _ Hw (first_mant_low e) (last_mant_high e))
      as (Hpm & Hall0 & Hord0).
    destruct (IH (e + 1) mid last H) as (Hml & Hall & Hord).
    split; [lia | split].
    + intros e' m He' Hm. destruct (Z.eq_dec e' e) as [-> | Hne].
      * destruct (Hall0 m Hm) as (k & Ek & Hk). exists k. split; [exact Ek | lia].
      * destruct (Hall e' m ltac:(lia) Hm) as (k & Ek & Hk). exists k. split; [exact Ek | lia].
    + intros e' m e'' m' k k' He' He'' Hm Hm' Hlt Ek Ek'.
      destruct (Z.eq_dec e' e) as [-> | Hne'].
      * destruct (Z.eq_dec e'' e) as [-> | Hne''].
        -- apply (Hord0 m m' k k'); lia || assumption.
        -- destruct (Hall0 m Hm) as (k1 & Ek1 & Hk1).
           destruct (Hall e'' m' ltac:(lia) Hm') as (k2 & Ek2 & Hk2).
           rewrite Ek in Ek1. injection Ek1 as <-.
           rewrite Ek' in Ek2. injection Ek2 as <-. lia.
      * apply (Hord e' m e'' m' k k'); lia || assumption.
Qed.

End SweepProofs.

Lemma check_monotone_all s : check_monotone s = true.
Proof. destruct s; vm_compute; reflexivity. Qed.

Lemma leb_fin_order m e m' e' :
  0 < m -> 0 < m' -> F32.leb (fin m e) (fin m' e') = true ->
  e < e' \/ (e = e' /\ m <= m').
Proof.
  intros Hm Hm'. unfold F32.leb, SFleb, fin, SFcompare.
  change (Pos.compare_cont Eq (Z.to_pos m) (Z.to_pos m'))
    with (Pos.compare (Z.to_pos m) (Z.to_pos m')).
  destruct (Z.compare_spec e e'); [| now left | discriminate].
  destruct (Pos.compare_spec (Z.to_pos m) (Z.to_pos m')); try discriminate; intros _; right; lia.
Qed.

(** The raw value of an accepted input, without the clamp and without the
    undefined cases of the conversion. *)
Lemma encode_of_trunc ub s x k :
  F32.trunc (quotient (offset s) (scale s) x) = Some k ->
  0 <= k <= rawMax (lin_field s) -> encode ub s x = k.
Proof.
  unfold encode, float_to_uint.
  change (F32.div match offset s with Some o => F32.sub x o | None => x end (scale s))
    with (quotient (offset s) (scale s) x).
  intros -> Hk.
  assert (Hb : rawMax (lin_field s) < 2 ^ raw_type_bits s) by (destruct s; cbn; lia).
  destruct (Z.leb_spec 0 k); [| lia].
  destruct (Z.ltb_spec k (2 ^ raw_type_bits s)); [| lia]. cbn [andb].
  destruct (Z.gtb_spec k (rawMax (lin_field s))); [lia | reflexivity].
Qed.

Lemma good_at_trunc s x :
  good_at (offset s) (scale s) (rawMax (lin_field s)) (tolerance s) x = true ->
  exists k, F32.trunc (quotient (offset s) (scale s) x) = Some k /\
            0 <= k <= rawMax (lin_field s).
Proof.
  unfold good_at, good_with.
  destruct (F32.trunc _) as [k |]; [| discriminate].
  intros H. apply andb_true_iff in H as [H _].
  apply andb_true_iff in H as [H0 H1]. apply Z.leb_le in H0, H1.
  exists k. split; [reflexivity | lia].
Qed.

(** Accepted inputs in increasing order have raw values in increasing order. *)
Lemma raws_ordered s x y :
  F32.valid x = true -> F32.valid y = true ->
  F32.leb (minValue s) x = true -> F32.leb x (maxValue s) = true ->
  F32.leb (minValue s) y = true -> F32.leb y (maxValue s) = true ->
  F32.leb x y = true ->
  exists k k', F32.trunc (quotient (offset s) (scale s) x) = Some k /\
               F32.trunc (quotient (offset s) (scale s) y) = Some k' /\
               0 <= k /\ k <= k' /\ k' <= rawMax (lin_field s).
Proof.
  intros Hvx Hvy Hx1 Hx2 Hy1 Hy2 Hxy.
  destruct (good_at_trunc s x (check_setting_sound s x (check_setting_all s) Hvx Hx1 Hx2))
    as (k & Ek & Hk).
  destruct (good_at_trunc s y (check_setting_sound s y (check_setting_all s) Hvy Hy1 Hy2))
    as (k' & Ek' & Hk').
  exists k, k'. split; [exact Ek | split; [exact Ek' | split; [lia | split; [| lia]]]].
  pose proof (check_monotone_all s) as Hc. unfold check_monotone in Hc.
  destruct (minValue s) as [| | | [] m1 e1]; try discriminate.
  destruct (maxValue s) as [| | | [] m2 e2]; try discriminate.
  apply andb_true_iff in Hc as [Hc Hsw].
  apply andb_true_iff in Hc as [Hc He1].
  apply andb_true_iff in Hc as [Hm1 Hm2].
  apply Z.ltb_lt in He1, Hm2. apply Z.leb_le in Hm1.
  destruct (sweep _ _ _ _ _ _ _ _ _ _ _ _) as [last |] eqn:Hs; [| discriminate].
  destruct (sweep_sound _ _ _ _ _ _ _ _ Hm1 Hm2 _ _ _ _ _ Hs) as (_ & _ & Hord).
  destruct (in_range_normal m1 e1 m2 e2 x Hvx He1 Hx1 Hx2)
    as (m & e & -> & Hm & He & Hml & Hmh).
  destruct (in_range_normal m1 e1 m2 e2 y Hvy He1 Hy1 Hy2)
    as (m' & e' & -> & Hm' & He' & Hml' & Hmh').
  apply leb_fin_order in Hxy; [| lia | lia].
  apply (Hord e m e' m' k k'); try assumption; try lia.
  - unfold first_mant, last_mant.
    destruct (Z.eqb_spec e e1), (Z.eqb_spec e e2); lia.
  - unfold first_mant, last_mant.
    destruct (Z.eqb_spec e' e1), (Z.eqb_spec e' e2); lia.
Qed.

(** Between two positive finite bounds, [F32.leb] chains. *)
Lemma leb_between a x y b :
  (exists ma ea, a = S754_finite false ma ea) ->
  (exists mb eb, b = S754_finite false mb eb) ->
  F32.leb a x = true -> F32.leb x y = true -> F32.leb y b = true ->
  F32.leb x b = true /\ F32.leb a y = true.
Proof.
  intros (ma & ea & ->) (mb & eb & ->).
  unfold F32.leb, SFleb.
  destruct x as [sx | sx | | sx mx ex], y as [sy | sy | | sy my ey];
    try destruct sx; try destruct sy; cbn [SFcompare]; try discriminate.
  change (Pos.compare_cont Eq ma mx) with (Pos.compare ma mx).
  change (Pos.compare_cont Eq mx my) with (Pos.compare mx my).
  change (Pos.compare_cont Eq my mb) with (Pos.compare my mb).
  change (Pos.compare_cont Eq mx mb) with (Pos.compare mx mb).
  change (Pos.compare_cont Eq ma my) with (Pos.compare ma my).
  intros H1 H2 H3.
  assert (L1 : ea < ex \/ (ea = ex /\ (ma <= mx)%positive)).
  { destruct (Z.compare_spec ea ex); [| now left | discriminate].
    right. split; [assumption |].
    destruct (Pos.compare_spec ma mx); try discriminate; lia. }
  assert (L2 : ex < ey \/ (ex = ey /\ (mx <= my)%positive)).
  { destruct (Z.compare_spec ex ey); [| now left | discriminate].
    right. split; [assumption |].
    destruct (Pos.compare_spec mx my); try discriminate; lia. }
  assert (L3 : ey < eb \/ (ey = eb /\ (my <= mb)%positive)).
  { destruct (Z.compare_spec ey eb); [| now left | discriminate].
    right. split; [assumption |].
    destruct (Pos.compare_spec my mb); try discriminate; lia. }
  split.
  - destruct (Z.compare_spec ex eb); try reflexivity; try lia.
    destruct (Pos.compare_spec mx mb); try reflexivity; lia.
  - destruct (Z.compare_spec ea ey); try reflexivity; try lia.
    destruct (Pos.compare_spec ma my); try reflexivity; lia.
Qed.

Lemma bounds_finite s :
  (exists m e, minValue s = S754_finite false m e) /\
  (exists m e, maxValue s = S754_finite false m e).
Proof. destruct s; split; eexists; eexists; vm_compute; reflexivity. Qed.

(** The field after a linear call that passes the range check, on a
    responsive device. *)
Lemma lin_field_after hdr ub s x d :
  acks d = true ->
  F32.leb (minValue s) x = true -> F32.leb x (maxValue s) = true ->
  fst (run hdr ub (lin_call s x) d) = true /\
  field_of (lin_field s) (regs (snd (run hdr ub (lin_call s x) d))) = encode ub s x.
Proof.
  intros Ha Hlo Hhi.
  rewrite lin_run, (leb_not_ltb _ _ Hlo), (leb_not_ltb _ _ Hhi). cbn [orb fst snd].
  split; [reflexivity |].
  rewrite <- (lin_target s x) at 1.
  rewrite write_field_regs by (apply target_ok || assumption).
  rewrite lin_target. apply Z.mod_small.
  pose proof (encode_range ub s x) as H. unfold rawMax in H. lia.
Qed.

(** X11: of two accepted inputs, the larger never leaves the smaller raw
    value in the field. *)
Theorem larger_input_never_stores_less (hdr : Header) (ub : float -> Z)
    (s : LinearSetting) (x y : float) (d : Device) :
  acks d = true -> F32.valid x = true -> F32.valid y = true ->
  F32.leb (minValue s) x = true -> F32.leb x y = true -> F32.leb y (maxValue s) = true ->
  field_of (lin_field s) (regs (snd (run hdr ub (lin_call s x) d))) <=
  field_of (lin_field s) (regs (snd (run hdr ub (lin_call s y) d))).
Proof.
  intros Ha Hvx Hvy Hlo Hxy Hhi.
  destruct (bounds_finite s) as [Fa Fb].
  destruct (leb_between _ _ _ _ Fa Fb Hlo Hxy Hhi) as [Hx2 Hy1].
  destruct (lin_field_after hdr ub s x d Ha Hlo Hx2) as [_ ->].
  destruct (lin_field_after hdr ub s y d Ha Hy1 Hhi) as [_ ->].
  destruct (raws_ordered s x y Hvx Hvy Hlo Hx2 Hy1 Hhi Hxy) as (k & k' & Ek & Ek' & H0 & Hkk & Hm).
  rewrite (encode_of_trunc ub s x k Ek), (encode_of_trunc ub s y k' Ek') by lia.
  exact Hkk.
Qed.

Lemma bounds_valid s : F32.valid (minValue s) = true /\ F32.valid (maxValue s) = true.
Proof. destruct s; split; vm_compute; reflexivity. Qed.

Lemma bounds_ordered s :
  F32.leb (minValue s) (minValue s) = true /\ F32.leb (minValue s) (maxValue s) = true /\
  F32.leb (maxValue s) (maxValue s) = true.
Proof. destruct s; repeat split; vm_compute; reflexivity. Qed.

Lemma raw_at_bounds s :
  F32.trunc (quotient (offset s) (scale s) (minValue s)) = Some (lowest_raw s) /\
  F32.trunc (quotient (offset s) (scale s) (maxValue s)) = Some (highest_raw s).
Proof. destruct s; split; vm_compute; reflexivity. Qed.

(** X12: an accepted input is converted by plain truncation of the quotient:
    the conversion is defined, the clamp is never taken, and the raw value
    lies between those of the smallest and of the largest accepted input. *)
Theorem accepted_input_is_stored_unclamped (hdr : Header) (ub : float -> Z)
    (s : LinearSetting) (x : float) (d : Device) :
  acks d = true -> F32.valid x = true ->
  F32.leb (minValue s) x = true -> F32.leb x (maxValue s) = true ->
  let r := field_of (lin_field s) (regs (snd (run hdr ub (lin_call s x) d))) in
  F32.trunc (F32.div match offset s with Some o => F32.sub x o | None => x end (scale s))
    = Some r /\
  lowest_raw s <= r <= highest_raw s /\
  highest_raw s <= rawMax (lin_field s).
Proof.
  intros Ha Hv Hlo Hhi r.
  destruct (bounds_valid s) as [Vmin Vmax].
  destruct (bounds_ordered s) as (Hmm & HmM & HMM).
  destruct (raw_at_bounds s) as [Rmin Rmax].
  destruct (raws_ordered s (minValue s) x Vmin Hv Hmm HmM Hlo Hhi Hlo)
    as (k0 & k & Ek0 & Ek & _ & Hk0 & Hk).
  destruct (raws_ordered s x (maxValue s) Hv Vmax Hlo Hhi HmM HMM Hhi)
    as (k' & k1 & Ek' & Ek1 & H0 & Hk1 & Hm).
  rewrite Ek in Ek'. injection Ek' as <-.
  rewrite Rmin in Ek0. injection Ek0 as <-.
  rewrite Rmax in Ek1. injection Ek1 as <-.
  assert (Er : r = k).
  { unfold r. destruct (lin_field_after hdr ub s x d Ha Hlo Hhi) as [_ ->].
    apply encode_of_trunc; [exact Ek | lia]. }
  rewrite Er. split; [exact Ek | split; [lia | exact Hm]].
Qed.

(** ** Readings of the linear-scaled settings *)

Lemma decode_checks s :
  all_below (Z.to_nat (rawMax (lin_field s) + 1))
    (fun r =>
       Qle_bool (Qabs (F32.to_Q (decode s r) - (origin s + inject_Z r * step s))) (1 # 262144)
       && Bool.eqb (in_range s (decode s r)) ((lowest_reread s <=? r) && (r <=? highest_raw s)))
  = true.
Proof. destruct s; vm_compute; reflexivity. Qed.

Lemma reencode_checks ub s :
  all_below (Z.to_nat (rawMax (lin_field s) + 1))
    (fun r =>
       let k := encode ub s (decode s r) in
       if (lowest_reread s <=? r) && (r <=? highest_raw s)
       then (r - 1 <=? k) && (k <=? r) && (if rereads_exactly s then k =? r else true)
       else true)
  = true.
Proof. destruct s; vm_compute; reflexivity. Qed.

Lemma rawMax_nonneg s : 0 <= rawMax (lin_field s).
Proof. destruct s; unfold rawMax; simpl; lia. Qed.

Lemma lin_field_ok s : field_ok (lin_field s).
Proof. unfold lin_field. apply target_ok. Qed.

Lemma lin_run_in_range hdr ub s x d :
  run hdr ub (lin_call s x) d =
  if in_range s x then (true, snd (write_field (lin_call s x) (encode ub s x) d))
  else (false, d).
Proof.
  rewrite lin_run. unfold in_range.
  now destruct (F32.ltb x (minValue s) || F32.ltb (maxValue s) x).
Qed.

(** X13: the value a linear getter returns is the decimal value of the data
    sheet, offset plus raw value times step, to within 2^-18; so a larger
    raw value always reads as a larger value. *)
Theorem linear_reading_is_accurate (s : LinearSetting) (d d' : Device) :
  acks d = true -> acks d' = true ->
  let r := field_of (lin_field s) (regs d) in
  let r' := field_of (lin_field s) (regs d') in
  (Qabs (F32.to_Q (fst (lin_get s d)) - (origin s + inject_Z r * step s)) <= 1 # 262144)%Q /\
  (r < r' -> (F32.to_Q (fst (lin_get s d)) < F32.to_Q (fst (lin_get s d')))%Q).
Proof.
  intros Ha Ha' r r'.
  assert (Hnear : forall d0, acks d0 = true ->
            (Qabs (F32.to_Q (fst (lin_get s d0))
                   - (origin s + inject_Z (field_of (lin_field s) (regs d0)) * step s))
             <= 1 # 262144)%Q).
  { intros d0 Ha0. rewrite lin_get_run by assumption.
    pose proof (field_of_bound (lin_field s) (regs d0) (lin_field_ok s)) as Hb.
    pose proof (rawMax_nonneg s) as Hm.
    pose proof (all_below_spec _ _ (decode_checks s) (field_of (lin_field s) (regs d0))
                  ltac:(lia)) as H.
    cbv beta in H. apply andb_true_iff in H as [H _].
    now apply Qle_bool_iff in H. }
  split; [now apply Hnear |].
  intros Hlt.
  pose proof (Hnear d Ha) as H1. pose proof (Hnear d' Ha') as H2.
  fold r in H1. fold r' in H2.
  apply Qabs_Qle_condition in H1 as [_ H1].
  apply Qabs_Qle_condition in H2 as [H2 _].
  assert (Hr : (inject_Z r + 1 <= inject_Z r')%Q).
  { change 1%Q with (inject_Z 1). rewrite <- inject_Z_plus, <- Zle_Qle. lia. }
  revert H1 H2 Hr.
  generalize (F32.to_Q (fst (lin_get s d))) (F32.to_Q (fst (lin_get s d')))
             (inject_Z r) (inject_Z r').
  intros g g' R R' H1 H2 Hr.
  destruct s; unfold origin, step in H1, H2; lra.
Qed.

(** ** Writing a reading back *)

Lemma write_field_lin ub s x d :
  acks d = true ->
  field_of (lin_field s) (regs (snd (write_field (lin_call s x) (encode ub s x) d)))
  = encode ub s x.
Proof.
  intros Ha. rewrite <- (lin_target s x) at 1.
  rewrite write_field_regs by (apply target_ok || assumption).
  rewrite lin_target. apply Z.mod_small.
  pose proof (encode_range ub s x) as H. unfold rawMax in H. lia.
Qed.

(** X14: which readings a setter takes back: the setter of a linear setting
    accepts the value its getter returns exactly when the raw value in the
    field lies between [lowest_reread] and [highest_raw]; every other
    register content reads as a value the setter refuses. *)
Theorem reading_is_accepted_iff_raw_in_interval (hdr : Header) (ub : float -> Z)
    (s : LinearSetting) (d d' : Device) :
  acks d = true ->
  let r := field_of (lin_field s) (regs d) in
  fst (run hdr ub (lin_call s (fst (lin_get s d))) d') = true <->
  lowest_reread s <= r <= highest_raw s.
Proof.
  intros Ha r.
  rewrite lin_get_run by assumption. fold r.
  pose proof (field_of_bound (lin_field s) (regs d) (lin_field_ok s)) as Hb. fold r in Hb.
  pose proof (all_below_spec _ _ (decode_checks s) r ltac:(lia)) as H.
  cbv beta in H. apply andb_true_iff in H as [_ H]. apply Bool.eqb_prop in H.
  rewrite lin_run_in_range, H.
  destruct (Z.leb_spec (lowest_reread s) r), (Z.leb_spec r (highest_raw s));
    cbn [andb fst]; split; intros; lia || discriminate || reflexivity.
Qed.

(** A linear getter leaves the device as it was, but for the read it logs. *)
Lemma lin_get_state s d :
  snd (lin_get s d) =
  log (BusRead (field_addr (lin_field s)) (reg_width (bits_register (lin_field s)))) d.
Proof.
  pose proof (get_run (Linear s) d) as H. apply (f_equal snd) in H.
  cbn [snd setting_field] in H. rewrite <- H.
  unfold get, bind, ret. now destruct (lin_get s d).
Qed.

(** X15: reading a setting and writing the value back: on a responsive
    device whose field holds a raw value that reads as an accepted value,
    the write-back succeeds and leaves the same raw value or the one below
    it, never another; for the minimal system voltage and the input voltage
    limit it always leaves the same. *)
Theorem write_back_keeps_or_lowers_by_one (hdr : Header) (ub : float -> Z)
    (s : LinearSetting) (d : Device) :
  acks d = true ->
  let r := field_of (lin_field s) (regs d) in
  let outcome := run hdr ub (lin_call s (fst (lin_get s d))) (snd (lin_get s d)) in
  lowest_reread s <= r <= highest_raw s ->
  fst outcome = true /\
  r - 1 <= field_of (lin_field s) (regs (snd outcome)) <= r /\
  (rereads_exactly_in_any_evaluation s = true ->
   field_of (lin_field s) (regs (snd outcome)) = r).
Proof.
  intros Ha r outcome Hr. unfold outcome.
  rewrite lin_get_state, lin_get_run by assumption. fold r.
  pose proof (field_of_bound (lin_field s) (regs d) (lin_field_ok s)) as Hb. fold r in Hb.
  pose proof (all_below_spec _ _ (decode_checks s) r ltac:(lia)) as H.
  cbv beta in H. apply andb_true_iff in H as [_ H]. apply Bool.eqb_prop in H.
  pose proof (all_below_spec _ _ (reencode_checks ub s) r ltac:(lia)) as H'.
  cbv beta zeta in H'.
  destruct (Z.leb_spec (lowest_reread s) r); [| lia].
  destruct (Z.leb_spec r (highest_raw s)); [| lia].
  cbn [andb] in H, H'.
  apply andb_true_iff in H' as [H' He]. apply andb_true_iff in H' as [Hl Hu].
  apply Z.leb_le in Hl, Hu.
  rewrite lin_run_in_range, H. cbn [fst snd].
  rewrite write_field_lin by assumption.
  split; [reflexivity | split; [lia |]].
  intros Hx.
  assert (Hx' : rereads_exactly s = true) by (destruct s; reflexivity || discriminate Hx).
  rewrite Hx' in He. now apply Z.eqb_eq in He.
Qed.

(** X16: the loss is real: for each of the seven settings that do not reread
    exactly there is a register content, read as an accepted value, that a
    write-back of the reading lowers by one step. *)
Theorem write_back_can_lower_the_raw_value (hdr : Header) (ub : float -> Z)
    (s : LinearSetting) :
  rereads_exactly s = false ->
  let d := device_holding (drifting_raw s) in
  let outcome := run hdr ub (lin_call s (fst (lin_get s d))) (snd (lin_get s d)) in
  field_of (lin_field s) (regs d) = drifting_raw s /\
  lowest_reread s <= drifting_raw s <= highest_raw s /\
  fst outcome = true /\
  field_of (lin_field s) (regs (snd outcome)) = drifting_raw s - 1.
Proof.
  intros Hs d outcome. unfold outcome, d.
  destruct s; try discriminate Hs; repeat split; try (vm_compute; reflexivity);
    try (vm_compute; discriminate).
Qed.

(** X17: the smallest accepted charge current limit and input current limit
    do not survive a read-back.  The setter accepts its minimum and stores
    the truncated quotient; the getter then returns a value just below that
    minimum, and the setter refuses it, touching nothing. *)
Theorem minimum_is_refused_on_read_back (hdr : Header) (ub : float -> Z)
    (s : LinearSetting) (d : Device) :
  s = ChargeLimitA \/ s = InputLimitA -> acks d = true ->
  let d1 := snd (run hdr ub (lin_call s (minValue s)) d) in
  fst (run hdr ub (lin_call s (minValue s)) d) = true /\
  field_of (lin_field s) (regs d1) = lowest_raw s /\
  F32.ltb (fst (lin_get s d1)) (minValue s) = true /\
  run hdr ub (lin_call s (fst (lin_get s d1))) (snd (lin_get s d1))
  = (false, snd (lin_get s d1)).
Proof.
  intros Hs Ha d1.
  destruct (bounds_ordered s) as (Hmm & HmM & _).
  destruct (raw_at_bounds s) as [Rmin _].
  destruct (lin_field_after hdr ub s (minValue s) d Ha Hmm HmM) as [Hacc Hfield].
  assert (Henc : encode ub s (minValue s) = lowest_raw s).
  { apply encode_of_trunc; [exact Rmin |].
    destruct Hs as [-> | ->]; vm_compute; split; discriminate. }
  rewrite Henc in Hfield. fold d1 in Hfield.
  assert (Ha1 : acks d1 = true).
  { unfold d1. destruct (run_bus hdr ub (lin_call s (minValue s)) d) as [-> _]. exact Ha. }
  assert (Hlow : F32.ltb (fst (lin_get s d1)) (minValue s) = true).
  { rewrite lin_get_run, Hfield by assumption.
    destruct Hs as [-> | ->]; vm_compute; reflexivity. }
  split; [exact Hacc | split; [exact Hfield | split; [exact Hlow |]]].
  now rewrite lin_run, Hlow.
Qed.

(** ** Requests for a value of the grid *)

Lemma grid_checks ub s :
  all_below (Z.to_nat (rawMax (lin_field s) + 1))
    (fun k =>
       if (lowest_raw s <=? k) && (k <=? highest_raw s)
       then let x := grid_value s k in
            let r := encode ub s x in
            Qle_bool (Qabs (F32.to_Q x - (origin s + inject_Z k * step s))) (1 # 1048576)
            && in_range s x && (k - 1 <=? r) && (r <=? k)
            && (if stores_grid_exactly s then r =? k else true)
       else true)
  = true.
Proof. destruct s; vm_compute; reflexivity. Qed.

(** X18: asking for a value of the grid.  When the argument is the binary32
    literal of offset + k steps, within the range, the setter accepts it and
    stores [k] or [k - 1], never anything else; seven of the ten settings
    always store [k]. *)
Theorem grid_request_is_stored_at_or_below (hdr : Header) (ub : float -> Z)
    (s : LinearSetting) (k : Z) (d : Device) :
  acks d = true -> lowest_raw s <= k <= highest_raw s ->
  let x := grid_value s k in
  let outcome := run hdr ub (lin_call s x) d in
  (Qabs (F32.to_Q x - (origin s + inject_Z k * step s)) <= 1 # 1048576)%Q /\
  fst outcome = true /\
  k - 1 <= field_of (lin_field s) (regs (snd outcome)) <= k /\
  (stores_grid_exactly s = true -> field_of (lin_field s) (regs (snd outcome)) = k).
Proof.
  intros Ha Hk x outcome. unfold outcome, x.
  assert (Hm : highest_raw s <= rawMax (lin_field s))
    by (destruct s; vm_compute; discriminate).
  assert (H0 : 0 <= lowest_raw s) by (destruct s; vm_compute; discriminate).
  pose proof (all_below_spec _ _ (grid_checks ub s) k ltac:(lia)) as H.
  cbv beta zeta in H.
  destruct (Z.leb_spec (lowest_raw s) k); [| lia].
  destruct (Z.leb_spec k (highest_raw s)); [| lia].
  cbn [andb] in H.
  apply andb_true_iff in H as [H He]. apply andb_true_iff in H as [H Hu].
  apply andb_true_iff in H as [H Hl]. apply andb_true_iff in H as [Hq Hin].
  apply Z.leb_le in Hl, Hu. apply Qle_bool_iff in Hq.
  rewrite lin_run_in_range, Hin. cbn [fst snd].
  rewrite write_field_lin by assumption.
  split; [exact Hq | split; [reflexivity | split; [lia |]]].
  intros Hx. rewrite Hx in He. now apply Z.eqb_eq in He.
Qed.

(** X19: the miss is real.  For the input voltage limit, the recharge
    threshold offset and the OTG voltage there are grid values whose literal
    is stored one step low: asking for 4.2 V of input voltage limit stores
    41, asking for an offset of 0.35 V stores 5, asking for 2.81 V of OTG
    voltage stores 0. *)
Theorem grid_request_can_be_stored_one_low (hdr : Header) (ub : float -> Z)
    (s : LinearSetting) (d : Device) :
  stores_grid_exactly s = false -> acks d = true ->
  let k := missed_grid s in
  let outcome := run hdr ub (lin_call s (grid_value s k)) d in
  lowest_raw s <= k <= highest_raw s /\
  fst outcome = true /\
  field_of (lin_field s) (regs (snd outcome)) = k - 1 /\
  fst (lin_get s (snd outcome)) = grid_value s (k - 1).
Proof.
  intros Hs Ha k outcome. unfold outcome, k.
  assert (Hin : in_range s (grid_value s (missed_grid s)) = true)
    by (destruct s; try discriminate Hs; vm_compute; reflexivity).
  assert (Henc : encode ub s (grid_value s (missed_grid s)) = missed_grid s - 1)
    by (destruct s; try discriminate Hs; vm_compute; reflexivity).
  assert (Hdec : decode s (missed_grid s - 1) = grid_value s (missed_grid s - 1))
    by (destruct s; try discriminate Hs; vm_compute; reflexivity).
  assert (Hk : lowest_raw s <= missed_grid s <= highest_raw s)
    by (destruct s; try discriminate Hs; vm_compute; split; discriminate).
  rewrite lin_run_in_range, Hin. cbn [fst snd].
  split; [exact Hk | split; [reflexivity |]].
  rewrite lin_get_run by (now rewrite write_field_acks).
  rewrite write_field_lin, Henc by assumption.
  split; [reflexivity | exact Hdec].
Qed.

(** ** What a call reports *)

(** X1: the result of a call tells about its argument only: it is the same
    on every device.  A write the device does not acknowledge is reported
    just as a write that went through, although no register has changed. *)
Theorem call_result_ignores_the_device (hdr : Header) (ub : float -> Z)
    (c : Call) (d d' : Device) :
  fst (run hdr ub c d) = fst (run hdr ub c d') /\
  (acks d = false -> forall a, regs (snd (run hdr ub c d)) a = regs d a).
Proof.
  destruct (run_stores hdr ub c) as [E | (x & Hacc & H)].
  - rewrite !E. split; [reflexivity | intros _ a; reflexivity].
  - rewrite !Hacc. split; [reflexivity |].
    intros Ha a. now rewrite H, Ha.
Qed.

(** ** Special arguments of the linear setters *)

(** X10: zero, negative numbers and the infinities fail the range check of
    every linear setter and nothing is written.  A NaN passes it, both
    comparisons being false: the call reports success and writes what the
    conversion of a NaN to an integer happens to yield, clamped to the
    field. *)
Theorem linear_setters_on_special_arguments (hdr : Header) (ub : float -> Z)
    (s : LinearSetting) (d : Device) :
  (forall x, match x with
             | S754_zero _ | S754_infinity _ | S754_finite true _ _ => True
             | _ => False
             end -> run hdr ub (lin_call s x) d = (false, d)) /\
  run hdr ub (lin_call s S754_nan) d =
    (true, snd (write_field (lin_call s S754_nan)
                  (Z.min (ub S754_nan mod 2 ^ raw_type_bits s) (rawMax (lin_field s))) d)).
Proof.
  split.
  - intros x Hx. rewrite lin_run.
    destruct (bounds_finite s) as [(m1 & e1 & ->) (m2 & e2 & ->)].
    destruct x as [[] | [] | | [] m e]; try contradiction; reflexivity.
  - rewrite lin_run.
    replace (F32.ltb S754_nan (minValue s) || F32.ltb (maxValue s) S754_nan) with false
      by (destruct (bounds_finite s) as [(m1 & e1 & ->) (m2 & e2 & ->)]; reflexivity).
    do 3 f_equal. unfold encode.
    replace (F32.div match offset s with Some o => F32.sub S754_nan o | None => S754_nan end
                     (scale s)) with S754_nan by (destruct s; reflexivity).
    unfold float_to_uint. cbn [F32.trunc].
    destruct (Z.gtb_spec (ub S754_nan mod 2 ^ raw_type_bits s) (rawMax (lin_field s))); lia.
Qed.

(** ** Plain flags *)

Lemma flag_call_run hdr ub f enable d :
  run hdr ub (flag_call f enable) d =
  (true, snd (RegisterBits_write (target (flag_call f true)) (bool_to_uint enable) d)).
Proof. destruct f; apply then_true. Qed.

Lemma flag_get_run f d :
  fst (flag_get f d) = (fst (RegisterBits_read (target (flag_call f true)) d) =? 1).
Proof.
  pose proof (get_run (Plain f) d) as H.
  apply (f_equal fst) in H. cbn [fst reading_of setting_field] in H.
  unfold get, bind, ret in H.
  destruct (flag_get f d) as [b d1]. cbn [fst] in H |- *. now injection H.
Qed.

(** X6: for every flag written in the sense of its hardware bit, on a
    responsive device: the setter reports success, the hardware bit then
    equals the argument, the getter returns the hardware bit, and so the
    getter gives back what the setter was given. *)
Theorem plain_flags_round_trip (hdr : Header) (ub : float -> Z)
    (f : PlainFlag) (enable : bool) (d : Device) :
  acks d = true ->
  fst (run hdr ub (flag_call f enable) d) = true /\
  plain_bit f (snd (run hdr ub (flag_call f enable) d)) = enable /\
  fst (flag_get f d) = plain_bit f d /\
  fst (flag_get f (snd (run hdr ub (flag_call f enable) d))) = enable.
Proof.
  intros Ha.
  pose proof (target_ok (flag_call f true)) as Hok.
  assert (H1 : bits_count (target (flag_call f true)) = 1) by (destruct f; reflexivity).
  assert (Hget : forall d0, acks d0 = true -> fst (flag_get f d0) = plain_bit f d0).
  { intros d0 Ha0. rewrite flag_get_run, RegisterBits_read_value by assumption.
    rewrite field_of_one_bit by assumption. unfold plain_bit.
    now destruct (Z.testbit _ _). }
  assert (Hbit : plain_bit f (snd (run hdr ub (flag_call f enable) d)) = enable).
  { rewrite <- Hget by (rewrite flag_call_run; cbn [snd]; now rewrite RegisterBits_write_acks).
    rewrite flag_call_run. cbn [snd].
    rewrite flag_get_run, read_after_write, H1 by assumption.
    now destruct enable. }
  rewrite flag_call_run at 1. cbn [fst].
  repeat split; try assumption.
  - now apply Hget.
  - rewrite Hget; [exact Hbit |].
    rewrite flag_call_run. cbn [snd]. now rewrite RegisterBits_write_acks.
Qed.

(** ** The watchdog reset *)

(** X8:  [resetWDT] reports success on every device; on a responsive one it
    sets the watchdog-reset bit, bit 3 of charger control 1, and the
    watchdog timer setting in the same register reads as before. *)
Theorem resetWDT_sets_its_bit_only (d : Device) :
  fst (resetWDT d) = true /\
  (acks d = true ->
     Z.testbit (regs (snd (resetWDT d)) BQ25798_REG_CHARGER_CONTROL_1) 3 = true) /\
  fst (getWDT (snd (resetWDT d))) = fst (getWDT d) /\
  frame (target call_resetWDT) d (snd (resetWDT d)).
Proof.
  unfold resetWDT; cbv zeta. rewrite then_true. cbn [fst snd].
  set (t := Adafruit_BusIO_RegisterBits _ 1 3).
  assert (Hok : field_ok t) by (unfold field_ok; simpl; lia).
  split; [reflexivity | split; [| split]].
  - intros Ha. rewrite RegisterBits_write_regs, Ha.
    change (field_addr t) with BQ25798_REG_CHARGER_CONTROL_1.
    rewrite set_reg_same, Z.mod_pow2_bits_low by (unfold width_bits; simpl; lia).
    exact (merge_field_inside t _ 1 0 Hok ltac:(simpl; lia)).
  - change getWDT with (enum_get WDT).
    assert (Hg : forall d0, fst (enum_get WDT d0) =
                            fst (RegisterBits_read (setting_field (Enumerated WDT)) d0)).
    { intros d0. pose proof (get_run (Enumerated WDT) d0) as H.
      apply (f_equal fst) in H. cbn [fst reading_of] in H.
      unfold get, bind, ret in H.
      destruct (enum_get WDT d0) as [o d1]. cbn [fst] in H |- *. now injection H. }
    destruct (write_field_bus call_resetWDT 1 d) as [Hacks Hnack].
    change (write_field call_resetWDT 1 d) with (RegisterBits_write t 1 d) in Hacks, Hnack.
    rewrite !Hg, !RegisterBits_read_any, Hacks, Hnack.
    destruct (acks d) eqn:Ha; [| reflexivity].
    rewrite <- (field_of_store_apart t (setting_field (Enumerated WDT)) 1 (regs d))
      by (assumption || apply setting_field_ok || reflexivity).
    apply field_of_ext. now rewrite RegisterBits_write_regs, Ha.
  - apply (RegisterBits_write_frame t 1 d Hok).
Qed.

(** ** Initialisation *)

Lemma begin_run (d : Device) :
  begin d =
  if acks d
  then let d1 := log (BusRead BQ25798_REG_PART_INFORMATION 1) (log BusProbe d) in
       if part_number (regs d BQ25798_REG_PART_INFORMATION) =? 3
       then (true, snd (reset d1)) else (false, d1)
  else (false, log BusProbe d).
Proof.
  unfold begin; cbv zeta.
  unfold bind at 1. unfold I2CDevice_begin at 1.
  destruct (acks d) eqn:Ha; cbn [negb]; [| reflexivity].
  unfold bind at 1. unfold Register_read at 1. cbn [reg_width reg_addr].
  change (acks (log BusProbe d)) with (acks d).
  change (regs (log BusProbe d)) with (regs d).
  rewrite Ha, part_number_check, part_number_uint8.
  destruct (part_number (regs d BQ25798_REG_PART_INFORMATION) =? 3); cbn [negb];
    [apply then_true | reflexivity].
Qed.

(** X9: [begin] succeeds exactly when the device answers and identifies
    itself as the expected part; when it fails it has issued no write and
    no register has changed. *)
Theorem begin_succeeds_iff_identified (d : Device) :
  (fst (begin d) = true <->
   acks d = true /\ part_number (regs d BQ25798_REG_PART_INFORMATION) = 3) /\
  (fst (begin d) = false ->
   regs (snd (begin d)) = regs d /\
   forall a w v, In (BusWrite a w v) (trace (snd (begin d))) ->
                 In (BusWrite a w v) (trace d)).
Proof.
  rewrite begin_run.
  destruct (acks d) eqn:Ha; cbv zeta.
  - destruct (Z.eqb_spec (part_number (regs d BQ25798_REG_PART_INFORMATION)) 3) as [Hp | Hp];
      cbn [fst snd].
    + split; [tauto | discriminate].
    + split; [split; [discriminate | tauto] |].
      intros _. split; [reflexivity |].
      intros a w v [F | [F | H]]; [discriminate F | discriminate F | exact H].
  - cbn [fst snd]. split; [split; [discriminate | intros [F _]; discriminate] |].
    intros _. split; [reflexivity |].
    intros a w v [F | H]; [discriminate F | exact H].
Qed.

(** ** The theorems at sample inputs *)

Lemma C2_witness :
  acks sample_device = true /\
  F32.valid (F32.lit 42 10) = true /\
  F32.leb (minValue ChargeLimitV) (F32.lit 42 10) = true /\
  F32.leb (F32.lit 42 10) (maxValue ChargeLimitV) = true /\
  fst (run sample_header sample_ub (lin_call ChargeLimitV (F32.lit 42 10)) sample_device)
  = true /\
  (Qabs (F32.to_Q (fst (lin_get ChargeLimitV
                          (snd (run sample_header sample_ub
                                    (lin_call ChargeLimitV (F32.lit 42 10)) sample_device))))
         - F32.to_Q (F32.lit 42 10))
   <= tolerance ChargeLimitV)%Q.
Proof.
  split; [reflexivity |]. split; [reflexivity |].
  split; [reflexivity |]. split; [reflexivity |].
  apply (C2_round_trip_within_tolerance sample_header sample_ub ChargeLimitV
           (F32.lit 42 10) sample_device); reflexivity.
Defined.


Lemma C1_witness :
  run sample_header sample_ub (lin_call ChargeLimitV (F32.lit 20 10)) sample_device
  = (false, sample_device) /\
  run sample_header sample_ub (lin_call ChargeLimitV (F32.lit 190 10)) sample_device
  = (false, sample_device) /\
  fst (run sample_header sample_ub (lin_call ChargeLimitV (minValue ChargeLimitV))
           sample_device) = true /\
  fst (run sample_header sample_ub (lin_call ChargeLimitV (maxValue ChargeLimitV))
           sample_device) = true.
Proof.
  destruct (C1_linear_setters_validate_range sample_header sample_ub ChargeLimitV
              sample_device) as [Hreject Haccept].
  split; [apply Hreject; left; reflexivity |].
  split; [apply Hreject; right; reflexivity |].
  split; [apply (Haccept (minValue ChargeLimitV)); left; reflexivity |].
  apply (Haccept (maxValue ChargeLimitV)); right; reflexivity.
Defined.

Lemma C5_witness :
  begin sample_device_absent = (false, log BusProbe sample_device_absent) /\
  begin sample_device
  = (false, log (BusRead BQ25798_REG_PART_INFORMATION 1) (log BusProbe sample_device)) /\
  begin sample_device_identified
  = (true, snd (reset (log (BusRead BQ25798_REG_PART_INFORMATION 1)
                           (log BusProbe sample_device_identified)))) /\
  (exists v,
      trace (snd (begin sample_device_identified)) =
        BusWrite BQ25798_REG_TERMINATION_CONTROL 1 v
        :: BusRead BQ25798_REG_TERMINATION_CONTROL 1
        :: BusRead BQ25798_REG_PART_INFORMATION 1 :: BusProbe
        :: trace sample_device_identified /\
      Z.testbit v 6 = true) /\
  Z.testbit (regs (snd (begin sample_device_identified)) BQ25798_REG_TERMINATION_CONTROL) 6
  = true.
Proof.
  split; [| split].
  - apply (C5_begin_checks_identity_then_resets sample_device_absent). reflexivity.
  - apply (C5_begin_checks_identity_then_resets sample_device);
      [reflexivity | discriminate].
  - apply (C5_begin_checks_identity_then_resets sample_device_identified); reflexivity.
Defined.

Lemma C9_witness :
  fst (reset sample_device) = true /\
  Z.testbit (regs (snd (reset sample_device)) BQ25798_REG_TERMINATION_CONTROL) 6 = true /\
  fst (reset sample_device_absent) = true /\
  regs (snd (reset sample_device_absent)) = regs sample_device_absent.
Proof.
  destruct (C9_reset_always_reports_success sample_device) as (Hok & _ & Hset & _).
  destruct (C9_reset_always_reports_success sample_device_absent) as (Hok' & _ & _ & Hkeep & _).
  split; [exact Hok |]. split; [apply Hset; reflexivity |].
  split; [exact Hok' |]. apply Hkeep; reflexivity.
Defined.

Lemma C3_witness :
  enum_guard sample_header VOCdelay = None /\
  run sample_header sample_ub (enum_call VOCdelay 4) sample_device =
    (true, snd (RegisterBits_write (target (enum_call VOCdelay 4)) (uint8_t 4)
                                   sample_device)) /\
  (acks sample_device = true ->
   fst (enum_get VOCdelay
          (snd (run sample_header sample_ub (enum_call VOCdelay 4) sample_device))) =
     uint8_t 4 mod 2 ^ bits_count (target (enum_call VOCdelay 4))).
Proof.
  split; [reflexivity |].
  apply (C3_unguarded_enum_setters_accept_every_ordinal
           sample_header sample_ub VOCdelay 4 sample_device).
  reflexivity.
Defined.

Lemma C6_witness :
  acks sample_device = true /\
  physical_bit ACenable
    (snd (run sample_header sample_ub (inv_call ACenable true) sample_device)) = false /\
  physical_bit ACenable
    (snd (run sample_header sample_ub (inv_call ACenable false) sample_device)) = true /\
  fst (inv_get ACenable sample_device) = negb (physical_bit ACenable sample_device) /\
  forall enable : bool,
    fst (run sample_header sample_ub (inv_call ACenable enable) sample_device) = true /\
    fst (inv_get ACenable
           (snd (run sample_header sample_ub (inv_call ACenable enable) sample_device)))
    = enable.
Proof.
  split; [reflexivity |].
  apply (C6_inverted_flags_expose_logical_sense
           sample_header sample_ub ACenable sample_device).
  reflexivity.
Defined.

Lemma C7_witness :
  acks sample_device = true /\
  fst (setChargeLimitV sample_ub (F32.lit 42 10) sample_device) = true /\
  encode sample_ub ChargeLimitV (F32.lit 42 10) = 420 /\
  field_of (lin_field ChargeLimitV)
    (regs (snd (setChargeLimitV sample_ub (F32.lit 42 10) sample_device))) = 420 /\
  fst (getChargeLimitV (snd (setChargeLimitV sample_ub (F32.lit 42 10) sample_device)))
    = F32.lit 42 10 /\
  forall d' : Device, setChargeLimitV sample_ub (F32.lit 20 10) d' = (false, d').
Proof.
  split; [reflexivity |].
  apply (C7_charge_limit_scenario sample_ub sample_device).
  reflexivity.
Defined.

Lemma C8_witness :
  fst (run sample_header sample_ub (call_setMinSystemV (F32.lit 160 10)) sample_device)
    = true /\
  exists x,
    0 <= x <= rawMax (target (call_setMinSystemV (F32.lit 160 10))) /\
    snd (run sample_header sample_ub (call_setMinSystemV (F32.lit 160 10)) sample_device)
      = snd (write_field (call_setMinSystemV (F32.lit 160 10)) x sample_device) /\
    (acks sample_device = true ->
     field_of (target (call_setMinSystemV (F32.lit 160 10)))
       (regs (snd (run sample_header sample_ub (call_setMinSystemV (F32.lit 160 10))
                       sample_device))) = x) /\
    (forall s v, call_setMinSystemV (F32.lit 160 10) = lin_call s v ->
                 x = encode sample_ub s v).
Proof.
  split; [vm_compute; reflexivity |].
  apply (C8_raw_value_fits_field sample_header sample_ub
           (call_setMinSystemV (F32.lit 160 10)) sample_device).
  vm_compute; reflexivity.
Defined.

Lemma C10_witness :
  acks sample_device_ones = true /\
  field_of (lin_field MinSystemV) (regs sample_device_ones) = 63 /\
  (0 <= 63 <= 63) /\
  (F32.to_Q (fst (getMinSystemV sample_device_ones))
   == (5 # 2) + inject_Z 63 * (1 # 4))%Q /\
  (54 < 63 ->
   F32.ltb (maxValue MinSystemV) (fst (getMinSystemV sample_device_ones)) = true /\
   forall d' : Device,
     setMinSystemV sample_ub (fst (getMinSystemV sample_device_ones)) d' = (false, d')).
Proof.
  split; [reflexivity | split; [reflexivity |]].
  apply (C10_getter_may_return_what_setter_rejects sample_ub sample_device_ones 63);
    reflexivity.
Defined.

Lemma later_call_witness :
  target (call_setWDT 2) = target (call_setWDT 5) /\
  fst (run sample_header sample_ub (call_setWDT 5) sample_device) = true /\
  regs (snd (run sample_header sample_ub (call_setWDT 5)
               (snd (run sample_header sample_ub (call_setWDT 2) sample_device))))
       BQ25798_REG_CHARGER_CONTROL_1
  = regs (snd (run sample_header sample_ub (call_setWDT 5) sample_device))
         BQ25798_REG_CHARGER_CONTROL_1.
Proof.
  split; [reflexivity |]. split; [reflexivity |].
  apply (later_call_on_same_field_wins sample_header sample_ub
           (call_setWDT 2) (call_setWDT 5) sample_device BQ25798_REG_CHARGER_CONTROL_1);
    reflexivity.
Defined.

Lemma commute_witness :
  call_setWDT 5 <> call_reset /\ call_setVACOVP 1 <> call_reset /\
  target (call_setWDT 5) <> target (call_setVACOVP 1) /\
  regs (snd (run sample_header sample_ub (call_setVACOVP 1)
               (snd (run sample_header sample_ub (call_setWDT 5) sample_device))))
       BQ25798_REG_CHARGER_CONTROL_1
  = regs (snd (run sample_header sample_ub (call_setWDT 5)
                 (snd (run sample_header sample_ub (call_setVACOVP 1) sample_device))))
         BQ25798_REG_CHARGER_CONTROL_1.
Proof.
  do 3 (split; [discriminate |]).
  apply (calls_on_different_fields_commute sample_header sample_ub
           (call_setWDT 5) (call_setVACOVP 1) sample_device BQ25798_REG_CHARGER_CONTROL_1);
    discriminate.
Defined.

Lemma no_other_setting_witness :
  call_setChargeEnable false <> call_reset /\
  target (call_setChargeEnable false) <> setting_field (Plain HIZMode) /\
  fst (get (Plain HIZMode)
         (snd (run sample_header sample_ub (call_setChargeEnable false) sample_device)))
  = fst (get (Plain HIZMode) sample_device).
Proof.
  do 2 (split; [discriminate |]).
  apply (call_changes_no_other_setting sample_header sample_ub
           (call_setChargeEnable false) (Plain HIZMode) sample_device);
    discriminate.
Defined.

Lemma plain_flags_witness :
  acks sample_device = true /\
  fst (run sample_header sample_ub (flag_call HIZMode true) sample_device) = true /\
  plain_bit HIZMode (snd (run sample_header sample_ub (flag_call HIZMode true) sample_device))
  = true /\
  fst (flag_get HIZMode sample_device) = plain_bit HIZMode sample_device /\
  fst (flag_get HIZMode
         (snd (run sample_header sample_ub (flag_call HIZMode true) sample_device))) = true.
Proof.
  split; [reflexivity |].
  apply (plain_flags_round_trip sample_header sample_ub HIZMode true sample_device).
  reflexivity.
Defined.

Lemma guarded_enum_witness :
  enum_guard sample_header WDT = Some 7 /\
  run sample_header sample_ub (enum_call WDT 9) sample_device = (false, sample_device) /\
  fst (run sample_header sample_ub (enum_call WDT 5) sample_device) = true /\
  fst (enum_get WDT (snd (run sample_header sample_ub (enum_call WDT 5) sample_device))) = 5.
Proof.
  split; [reflexivity |]. split.
  - apply (guarded_enum_setters_validate sample_header sample_ub WDT 7 9 sample_device
             eq_refl). lia.
  - apply (guarded_enum_setters_validate sample_header sample_ub WDT 7 5 sample_device
             eq_refl); [lia | simpl; lia | reflexivity].
Defined.

Lemma larger_input_witness :
  acks sample_device = true /\
  F32.valid (F32.lit 42 10) = true /\ F32.valid (F32.lit 435 100) = true /\
  F32.leb (minValue ChargeLimitV) (F32.lit 42 10) = true /\
  F32.leb (F32.lit 42 10) (F32.lit 435 100) = true /\
  F32.leb (F32.lit 435 100) (maxValue ChargeLimitV) = true /\
  field_of (lin_field ChargeLimitV)
    (regs (snd (run sample_header sample_ub (lin_call ChargeLimitV (F32.lit 42 10))
                    sample_device))) <=
  field_of (lin_field ChargeLimitV)
    (regs (snd (run sample_header sample_ub (lin_call ChargeLimitV (F32.lit 435 100))
                    sample_device))).
Proof.
  do 6 (split; [reflexivity |]).
  apply (larger_input_never_stores_less sample_header sample_ub ChargeLimitV
           (F32.lit 42 10) (F32.lit 435 100) sample_device); reflexivity.
Defined.

Lemma unclamped_witness :
  acks sample_device = true /\
  F32.valid (F32.lit 42 10) = true /\
  F32.leb (minValue ChargeLimitV) (F32.lit 42 10) = true /\
  F32.leb (F32.lit 42 10) (maxValue ChargeLimitV) = true /\
  let r := field_of (lin_field ChargeLimitV)
             (regs (snd (run sample_header sample_ub
                             (lin_call ChargeLimitV (F32.lit 42 10)) sample_device))) in
  F32.trunc (F32.div match offset ChargeLimitV with
                     | Some o => F32.sub (F32.lit 42 10) o
                     | None => F32.lit 42 10
                     end (scale ChargeLimitV)) = Some r /\
  lowest_raw ChargeLimitV <= r <= highest_raw ChargeLimitV /\
  highest_raw ChargeLimitV <= rawMax (lin_field ChargeLimitV).
Proof.
  do 4 (split; [reflexivity |]).
  apply (accepted_input_is_stored_unclamped sample_header sample_ub ChargeLimitV
           (F32.lit 42 10) sample_device); reflexivity.
Defined.

Lemma accurate_reading_witness :
  acks sample_device = true /\ acks sample_device_ones = true /\
  let r := field_of (lin_field ChargeLimitV) (regs sample_device) in
  let r' := field_of (lin_field ChargeLimitV) (regs sample_device_ones) in
  (Qabs (F32.to_Q (fst (lin_get ChargeLimitV sample_device))
         - (origin ChargeLimitV + inject_Z r * step ChargeLimitV)) <= 1 # 262144)%Q /\
  (r < r' -> (F32.to_Q (fst (lin_get ChargeLimitV sample_device))
              < F32.to_Q (fst (lin_get ChargeLimitV sample_device_ones)))%Q).
Proof.
  do 2 (split; [reflexivity |]).
  apply (linear_reading_is_accurate ChargeLimitV sample_device sample_device_ones);
    reflexivity.
Defined.

Lemma accepted_reading_witness :
  acks (device_holding 420) = true /\
  let r := field_of (lin_field ChargeLimitV) (regs (device_holding 420)) in
  (fst (run sample_header sample_ub
            (lin_call ChargeLimitV (fst (lin_get ChargeLimitV (device_holding 420))))
            sample_device) = true <->
   lowest_reread ChargeLimitV <= r <= highest_raw ChargeLimitV).
Proof.
  split; [reflexivity |].
  apply (reading_is_accepted_iff_raw_in_interval sample_header sample_ub ChargeLimitV
           (device_holding 420) sample_device).
  reflexivity.
Defined.

Lemma write_back_witness :
  acks (device_holding 401) = true /\
  let d := device_holding 401 in
  let r := field_of (lin_field ChargeLimitV) (regs d) in
  let outcome := run sample_header sample_ub
                     (lin_call ChargeLimitV (fst (lin_get ChargeLimitV d)))
                     (snd (lin_get ChargeLimitV d)) in
  lowest_reread ChargeLimitV <= r <= highest_raw ChargeLimitV /\
  fst outcome = true /\
  r - 1 <= field_of (lin_field ChargeLimitV) (regs (snd outcome)) <= r /\
  (rereads_exactly_in_any_evaluation ChargeLimitV = true ->
   field_of (lin_field ChargeLimitV) (regs (snd outcome)) = r).
Proof.
  split; [reflexivity |]. cbv zeta.
  assert (H : lowest_reread ChargeLimitV
              <= field_of (lin_field ChargeLimitV) (regs (device_holding 401))
              <= highest_raw ChargeLimitV) by (vm_compute; split; discriminate).
  split; [exact H |].
  apply (write_back_keeps_or_lowers_by_one sample_header sample_ub ChargeLimitV
           (device_holding 401) eq_refl H).
Defined.

Lemma lowering_witness :
  rereads_exactly OTGV = false /\
  let d := device_holding (drifting_raw OTGV) in
  let outcome := run sample_header sample_ub (lin_call OTGV (fst (lin_get OTGV d)))
                     (snd (lin_get OTGV d)) in
  field_of (lin_field OTGV) (regs d) = drifting_raw OTGV /\
  lowest_reread OTGV <= drifting_raw OTGV <= highest_raw OTGV /\
  fst outcome = true /\
  field_of (lin_field OTGV) (regs (snd outcome)) = drifting_raw OTGV - 1.
Proof.
  split; [reflexivity |].
  apply (write_back_can_lower_the_raw_value sample_header sample_ub OTGV).
  reflexivity.
Defined.

Lemma minimum_read_back_witness :
  (ChargeLimitA = ChargeLimitA \/ ChargeLimitA = InputLimitA) /\
  acks sample_device = true /\
  let d1 := snd (run sample_header sample_ub
                     (lin_call ChargeLimitA (minValue ChargeLimitA)) sample_device) in
  fst (run sample_header sample_ub (lin_call ChargeLimitA (minValue ChargeLimitA))
           sample_device) = true /\
  field_of (lin_field ChargeLimitA) (regs d1) = lowest_raw ChargeLimitA /\
  F32.ltb (fst (lin_get ChargeLimitA d1)) (minValue ChargeLimitA) = true /\
  run sample_header sample_ub (lin_call ChargeLimitA (fst (lin_get ChargeLimitA d1)))
      (snd (lin_get ChargeLimitA d1))
  = (false, snd (lin_get ChargeLimitA d1)).
Proof.
  split; [left; reflexivity |]. split; [reflexivity |].
  apply (minimum_is_refused_on_read_back sample_header sample_ub ChargeLimitA sample_device);
    [left; reflexivity | reflexivity].
Defined.

Lemma grid_request_witness :
  acks sample_device = true /\
  lowest_raw InputLimitV <= 42 <= highest_raw InputLimitV /\
  let x := grid_value InputLimitV 42 in
  let outcome := run sample_header sample_ub (lin_call InputLimitV x) sample_device in
  (Qabs (F32.to_Q x - (origin InputLimitV + inject_Z 42 * step InputLimitV))
   <= 1 # 1048576)%Q /\
  fst outcome = true /\
  42 - 1 <= field_of (lin_field InputLimitV) (regs (snd outcome)) <= 42 /\
  (stores_grid_exactly InputLimitV = true ->
   field_of (lin_field InputLimitV) (regs (snd outcome)) = 42).
Proof.
  split; [reflexivity |].
  assert (H : lowest_raw InputLimitV <= 42 <= highest_raw InputLimitV)
    by (vm_compute; split; discriminate).
  split; [exact H |].
  apply (grid_request_is_stored_at_or_below sample_header sample_ub InputLimitV 42
           sample_device eq_refl H).
Defined.

Lemma grid_miss_witness :
  stores_grid_exactly InputLimitV = false /\ acks sample_device = true /\
  let k := missed_grid InputLimitV in
  let outcome := run sample_header sample_ub
                     (lin_call InputLimitV (grid_value InputLimitV k)) sample_device in
  lowest_raw InputLimitV <= k <= highest_raw InputLimitV /\
  fst outcome = true /\
  field_of (lin_field InputLimitV) (regs (snd outcome)) = k - 1 /\
  fst (lin_get InputLimitV (snd outcome)) = grid_value InputLimitV (k - 1).
Proof.
  split; [reflexivity |]. split; [reflexivity |].
  apply (grid_request_can_be_stored_one_low sample_header sample_ub InputLimitV
           sample_device); reflexivity.
Defined.
